(** * JASSS User-Data: the identity engine of [src/dynamo.ts]

    A shallow embedding of the user-data microservice: the DynamoDB table of
    user items, the nine engine operations of [dynamo.ts] and the helpers they
    call, followed by the properties of the engine.

    Modelling conventions.
    - An item of the table is its primary key [user_id] (the [hash_key] of the
      Terraform table) together with a finite map of its other attributes.
      The table is the list of its items in scan order.
    - The engine runs in a state-and-exception monad over the table and a log
      of the writes and mails it performed; a thrown error keeps the state
      reached so far, as a rejected promise keeps the writes already awaited.
    - The libraries the engine calls (bcryptjs, email-validator, [Date]) are a
      [Platform] of pure functions; what a call draws from its surroundings
      (a UUID, a salt, a token, the clock, whether the SMTP transport
      delivers) is its [Env].
    - An [undefined] attribute value is an absent attribute, and an attribute
      is set when it is present, whatever string it holds.
    - A scan answers its first page only, as the engine sends one
      [ScanCommand] and reads [response.Items]: the first items of the table
      in scan order, as many as a page holds. DynamoDB fills a page up to
      1 MB; the model counts a page in items, [scan_page] of them.
    - A [GetCommand] is rejected, with an error that carries no [statusCode],
      when DynamoDB does not accept its projection expression or its key is
      the empty string. Puts, updates and deletes fail by the conditions
      they carry only. *)

From Stdlib Require Import ZArith Ascii String DecimalString.
From stdpp Require Import base option list strings gmap fin_maps.

Local Open Scope string_scope.
Local Open Scope Z_scope.

(** ** JavaScript strings *)

Module Js.

(** [String.prototype.toLowerCase], on the ASCII range. *)
Definition lower_ascii (c : ascii) : ascii :=
  let n := N_of_ascii c in
  if ((65 <=? n) && (n <=? 90))%N then ascii_of_N (n + 32) else c.

Fixpoint toLowerCase (s : string) : string :=
  match s with
  | EmptyString => EmptyString
  | String c r => String (lower_ascii c) (toLowerCase r)
  end.

(** White space as [trim] sees it, on the ASCII range: TAB, LF, VT, FF, CR
    and the space. *)
Definition is_space (c : ascii) : bool :=
  let n := N_of_ascii c in
  ((n =? 32) || ((9 <=? n) && (n <=? 13)))%N.

Fixpoint trimStart (s : string) : string :=
  match s with
  | EmptyString => EmptyString
  | String c r => if is_space c then trimStart r else s
  end.

Fixpoint trimEnd (s : string) : string :=
  match s with
  | EmptyString => EmptyString
  | String c r =>
      match trimEnd r with
      | EmptyString => if is_space c then EmptyString else String c EmptyString
      | r' => String c r'
      end
  end.

Definition trim (s : string) : string := trimEnd (trimStart s).

(** [s.split(",")]: never empty, [""] splits into [[""]]. *)
Fixpoint split_comma (s : string) : list string :=
  match s with
  | EmptyString => [EmptyString]
  | String c r =>
      if Ascii.eqb c ","%char then EmptyString :: split_comma r
      else match split_comma r with
           | h :: t => String c h :: t
           | [] => [String c EmptyString]
           end
  end.

(** [Array.prototype.includes] on strings. *)
Definition includes (l : list string) (x : string) : bool :=
  existsb (String.eqb x) l.

(** Truthiness of a possibly undefined string: [undefined] and [""] are
    falsy. *)
Definition truthy (v : option string) : bool :=
  match v with
  | Some s => negb (String.eqb s "")
  | None => false
  end.

(** A possibly undefined string inside a template literal. *)
Definition show (v : option string) : string :=
  match v with
  | Some s => s
  | None => "undefined"
  end.

(** [v === s] for a possibly undefined [v] and a string [s]. *)
Definition strict_eq (v : option string) (s : string) : bool :=
  match v with
  | Some x => String.eqb x s
  | None => false
  end.

End Js.

(** ** Errors *)

(** [ErrorWithStatus] of [types/errorWithStatus], and any other error a
    library rejects with (it carries no [statusCode]). *)
Inductive Exn : Type :=
| ErrorWithStatus (message : string) (statusCode : Z)
| JsError (message : string).

(** [error.statusCode], [None] for [undefined]. *)
Definition statusCode_of (e : Exn) : option Z :=
  match e with
  | ErrorWithStatus _ c => Some c
  | JsError _ => None
  end.

(** The status the endpoints answer with: [error.statusCode || 500]. *)
Definition http_status (e : Exn) : Z :=
  match statusCode_of e with
  | Some c => if c =? 0 then 500 else c
  | None => 500
  end.

Definition message_of (e : Exn) : string :=
  match e with
  | ErrorWithStatus m _ => m
  | JsError m => m
  end.

(** ** The table *)

Record Item : Type := mkItem {
  user_id : string;
  attrs : gmap string string;
}.

(** [item.email], [item.provider], ... *)
Definition attr (name : string) (item : Item) : option string :=
  attrs item !! name.

(** The two mails of the reset flow. The HTML templates are left out: a mail
    is its kind, its recipient and, for the token mail, the plaintext token it
    carries. *)
Inductive Mail : Type :=
| TokenMail (to token : string)
| ResetConfirmation (to : string).

(** What the engine did to the outside world, oldest first: the writes the
    table accepted and the mails handed to the transport. *)
Inductive Event : Type :=
| EvPut (item : Item)
| EvUpdate (userID : string) (infoValues : list (string * string))
| EvDelete (userId : string)
| EvMail (mail : Mail) (delivered : bool).

Record World : Type := mkWorld {
  db : list Item;
  log : list Event;
}.

(** ** The monad of the engine *)

Inductive Outcome (A : Type) : Type :=
| Return (a : A)
| Throw (e : Exn).
Arguments Return {A} a.
Arguments Throw {A} e.

Definition M (A : Type) : Type := World -> Outcome A * World.

Definition ret {A} (a : A) : M A := fun w => (Return a, w).
Definition throw {A} (e : Exn) : M A := fun w => (Throw e, w).
Definition bind {A B} (m : M A) (k : A -> M B) : M B :=
  fun w => match m w with
           | (Return a, w') => k a w'
           | (Throw e, w') => (Throw e, w')
           end.
(** [try { m } catch (err) { h err }] *)
Definition try_catch {A} (m : M A) (h : Exn -> M A) : M A :=
  fun w => match m w with
           | (Return a, w') => (Return a, w')
           | (Throw e, w') => h e w'
           end.

Notation "'let*' x ':=' m 'in' k" := (bind m (fun x => k))
  (at level 10, x name, m at level 100, k at level 200, only parsing).
Notation "m ;; k" := (bind m (fun _ => k))
  (at level 100, k at level 200, right associativity, only parsing).

(** ** Configuration: [constants.ts] *)

Definition TABLE_NAME : string := "User Data Table".
Definition ADDITIONAL_USER_FIELDS : list string := ["username"].
Definition RETRIEVABLE_USER_FIELDS : list string :=
  ["username"; "provider"; "email"] ++ ADDITIONAL_USER_FIELDS.

(** ** Projection expressions

    Which projection expressions DynamoDB accepts is left to the platform,
    between two bounds. It accepts the plain ones: case variants of the
    retrievable names (none is a reserved word), no two alike, separated by
    commas, with spaces around them at most. It rejects an expression that
    names an attribute twice ("two document paths overlap"). *)

Definition is_letter (c : ascii) : bool :=
  let n := N_of_ascii c in
  (((65 <=? n) && (n <=? 90)) || ((97 <=? n) && (n <=? 122)))%N.

Fixpoint letters_and_spaces (s : string) : bool :=
  match s with
  | EmptyString => true
  | String c r => (is_letter c || Ascii.eqb c " "%char) && letters_and_spaces r
  end.

Definition plain_part (part : string) : bool :=
  letters_and_spaces part
  && Js.includes RETRIEVABLE_USER_FIELDS (Js.toLowerCase (Js.trim part)).

Definition plain_projection (expression : string) : bool :=
  forallb plain_part (Js.split_comma expression)
  && bool_decide (NoDup (map Js.trim (Js.split_comma expression))).

(** ** The libraries, the store and the surroundings of a call *)

Class Platform : Type := {
  (** [bcrypt.hash(secret, 10)], the random salt made explicit *)
  bcrypt_hash : string -> string -> string;
  (** [bcrypt.compare(secret, digest)] on two strings *)
  bcrypt_verify : string -> string -> bool;
  (** [EmailValidator.validate] *)
  email_validate : string -> bool;
  (** [new Date(ms).toISOString()] *)
  toISOString : Z -> string;
  (** [new Date(str).getTime()], [None] for an invalid date *)
  parse_date : string -> option Z;
  (** the number of items the page of a [ScanCommand] holds *)
  scan_page : nat;
  (** does DynamoDB accept the [ProjectionExpression] of a [GetCommand] *)
  projection_accepted : string -> bool;
  projection_plain :
    ∀ expression,
      plain_projection expression = true →
      projection_accepted expression = true;
  projection_distinct :
    ∀ expression,
      projection_accepted expression = true →
      NoDup (map Js.trim (Js.split_comma expression));
}.

Record Env : Type := mkEnv {
  env_uuid : string;      (* randomUUID() *)
  env_salt : string;      (* the salt bcrypt.hash draws *)
  env_token : string;     (* crypto.randomBytes(10).toString("hex") *)
  env_now : Z;            (* new Date(), in milliseconds *)
  env_smtp : bool;        (* does emailTransport.sendMail deliver *)
}.

(** ** The document client

    The five DynamoDB commands the engine sends, on a world that holds the one
    table named [TABLE_NAME]. *)

Module Dynamo.

Definition has_key (userID : string) (item : Item) : bool :=
  String.eqb (user_id item) userID.

(** [PutCommand]: replaces the item with the same key, or adds one. Where a
    scan meets a new item is up to DynamoDB; here it comes last. *)
Fixpoint put_item (item : Item) (tbl : list Item) : list Item :=
  match tbl with
  | [] => [item]
  | x :: r =>
      if has_key (user_id item) x then item :: r else x :: put_item item r
  end.

(** [set a = :a, b = :b, ...] applied to one item. *)
Definition set_attrs (infoValues : list (string * string)) (item : Item) : Item :=
  mkItem (user_id item)
         (fold_left (fun m kv => <[kv.1 := kv.2]> m) infoValues (attrs item)).

Definition update_item (userID : string) (infoValues : list (string * string))
    (tbl : list Item) : list Item :=
  map (fun x => if has_key userID x then set_attrs infoValues x else x) tbl.

Definition delete_item (userId : string) (tbl : list Item) : list Item :=
  List.filter (fun x => negb (has_key userId x)) tbl.

Definition get_item (userID : string) (tbl : list Item) : option Item :=
  List.find (has_key userID) tbl.

Definition exists_key (userID : string) (tbl : list Item) : bool :=
  List.existsb (has_key userID) tbl.

(** A projection expression names attributes separated by commas, white
    space around a name ignored; the projected item holds those of them the
    item has. *)
Definition project (expression : string) (item : Item) : gmap string string :=
  fold_right
    (fun name acc =>
       match (if String.eqb name "user_id" then Some (user_id item)
              else attrs item !! name) with
       | Some v => <[name := v]> acc
       | None => acc
       end)
    ∅ (map Js.trim (Js.split_comma expression)).

Definition resource_not_found {A} : M A :=
  throw (JsError "ResourceNotFoundException").

Definition on_table {A} (table : string) (m : M A) : M A :=
  if String.eqb table TABLE_NAME then m else resource_not_found.

(** The first page of a scan of the table. *)
Definition page {P : Platform} (tbl : list Item) : list Item :=
  take scan_page tbl.

(** [ScanCommand], read at [response.Items]: the first page, no more. *)
Definition scan {P : Platform} (table : string) : M (list Item) :=
  on_table table (fun w => (Return (page (db w)), w)).

Definition put (table : string) (item : Item) : M unit :=
  on_table table
    (fun w => (Return tt, mkWorld (put_item item (db w)) (log w ++ [EvPut item]))).

(** [UpdateCommand] under [ConditionExpression: "attribute_exists(user_id)"].
    An update expression with no assignment is rejected. *)
Definition update (table userID : string) (infoValues : list (string * string))
    : M unit :=
  on_table table
    (fun w =>
       match infoValues with
       | [] => (Throw (JsError "ValidationException"), w)
       | _ =>
           if exists_key userID (db w)
           then (Return tt,
                 mkWorld (update_item userID infoValues (db w))
                         (log w ++ [EvUpdate userID infoValues]))
           else (Throw (JsError "ConditionalCheckFailedException"), w)
       end).

(** [DeleteCommand] under the same condition. *)
Definition delete (table userId : string) : M unit :=
  on_table table
    (fun w =>
       if exists_key userId (db w)
       then (Return tt,
             mkWorld (delete_item userId (db w)) (log w ++ [EvDelete userId]))
       else (Throw (JsError "ConditionalCheckFailedException"), w)).

(** [GetCommand] with a [ProjectionExpression]; [None] is an [undefined]
    [response.Item]. DynamoDB rejects the command (a validation error, which
    carries no [statusCode]) when it does not accept the expression, and
    when the key is the empty string. No table of DynamoDB holds an item
    under the empty key, so that the second rejection is placed where the
    key finds no item. *)
Definition get {P : Platform} (table userID expression : string)
    : M (option (gmap string string)) :=
  on_table table
    (fun w =>
       if negb (projection_accepted expression)
       then (Throw (JsError "ValidationException"), w)
       else match get_item userID (db w) with
            | Some item => (Return (Some (project expression item)), w)
            | None =>
                if String.eqb userID ""
                then (Throw (JsError "ValidationException"), w)
                else (Return None, w)
            end).

End Dynamo.

(** ** The engine: [dynamo.ts] *)

Section Engine.

Context {P : Platform}.

(** [bcrypt.compare(secret, digest)]: rejects when the digest is not a
    string. *)
Definition bcrypt_compare (secret : string) (digest : option string) : M bool :=
  match digest with
  | Some d => ret (bcrypt_verify secret d)
  | None => throw (JsError "Illegal arguments: string, undefined")
  end.

(** [emailTransport.sendMail] *)
Definition sendMail (env : Env) (mail : Mail) : M unit :=
  fun w =>
    let w' := mkWorld (db w) (log w ++ [EvMail mail (env_smtp env)]) in
    if env_smtp env then (Return tt, w') else (Throw (JsError "sendMail"), w').

Definition validateTableName (table : string) : M unit :=
  if negb (String.eqb table TABLE_NAME)
  then throw (ErrorWithStatus "Invalid Table Name" 400)
  else ret tt.

Definition databaseAddUser (env : Env) (table username email : string)
    (passwordHash provider : option string) : M string :=
  let newIdVal := env_uuid env in
  let set_opt (k : string) (v : option string) (m : gmap string string) :=
    match v with Some x => <[k := x]> m | None => m end in
  Dynamo.put table
    (mkItem newIdVal
       (<["email" := email]>
          (set_opt "provider" provider
             (set_opt "password_hash" passwordHash
                (<["username" := username]> ∅))))) ;;
  ret newIdVal.

Definition databaseEditUser (table userID : string)
    (infoValues : list (string * string)) : M unit :=
  try_catch (Dynamo.update table userID infoValues)
    (fun _ => throw (ErrorWithStatus "User Id does not exist" 400)).

Definition sendTokenEmail (env : Env) (email token : string) : M unit :=
  try_catch (sendMail env (TokenMail email token))
    (fun _ => throw (ErrorWithStatus "Email failed to send" 500)).

Definition sendPasswordResetEmail (env : Env) (email : string) : M unit :=
  try_catch (sendMail env (ResetConfirmation email))
    (fun _ => throw (ErrorWithStatus "Email failed to send" 500)).

(** *** registerUser *)

Fixpoint registerUser_scan (email : string) (items : list Item) : M unit :=
  match items with
  | [] => ret tt
  | item :: rest =>
      if Js.strict_eq (attr "email" item) email then
        let str :=
          if Js.truthy (attr "provider" item)
          then " Did you mean to sign in using "
                 +:+ Js.show (attr "provider" item) +:+ "?"
          else "" in
        throw (ErrorWithStatus ("Email has been taken." +:+ str) 409)
      else registerUser_scan email rest
  end.

Definition registerUser (env : Env) (table username password email : string)
    : M string :=
  validateTableName table ;;
  (if negb (email_validate email)
   then throw (ErrorWithStatus "Invalid Email" 400) else ret tt) ;;
  let* items := Dynamo.scan table in
  registerUser_scan email items ;;
  let hashedPassword := bcrypt_hash password (env_salt env) in
  databaseAddUser env table username email (Some hashedPassword) None.

(** *** authenticateUser *)

Definition authenticateUser_failure : Exn :=
  ErrorWithStatus "Authentication Error (Incorrect email or password)" 401.

Fixpoint authenticateUser_scan (email password : string) (items : list Item)
    : M string :=
  match items with
  | [] => throw authenticateUser_failure
  | item :: rest =>
      if Js.strict_eq (attr "email" item) email then
        if Js.truthy (attr "provider" item) then
          throw (ErrorWithStatus
                   ("You previously signed up using "
                      +:+ Js.show (attr "provider" item)
                      +:+ ". Please use that to sign in instead.") 403)
        else
          let* ok := bcrypt_compare password (attr "password_hash" item) in
          if ok then ret (user_id item)
          else authenticateUser_scan email password rest
      else authenticateUser_scan email password rest
  end.

Definition authenticateUser (table email password : string) : M string :=
  validateTableName table ;;
  let* items := Dynamo.scan table in
  authenticateUser_scan email password items.

(** *** authenticateOauthUser *)

Fixpoint authenticateOauthUser_scan (provider email : string)
    (items : list Item) : M (option string) :=
  match items with
  | [] => ret None
  | item :: rest =>
      if Js.strict_eq (attr "email" item) email then
        if Js.truthy (attr "password_hash" item) then
          throw (ErrorWithStatus
                   "You signed up with a password. Please sign in with your password instead."
                   403)
        else if Js.strict_eq (attr "provider" item) provider then
          ret (Some (user_id item))
        else
          throw (ErrorWithStatus
                   ("You first signed up via "
                      +:+ Js.show (attr "provider" item)
                      +:+ ". Please use that provider instead.") 403)
      else authenticateOauthUser_scan provider email rest
  end.

Definition authenticateOauthUser (env : Env)
    (table username provider email : string) : M string :=
  validateTableName table ;;
  let* items := Dynamo.scan table in
  let* found := authenticateOauthUser_scan provider email items in
  match found with
  | Some userId => ret userId
  | None => databaseAddUser env table username email None (Some provider)
  end.

(** *** setUserInfo and getUserInfo *)

(** The [forEach] of both functions: the first field whose lower-case form
    is not in the allow-list throws. *)
Fixpoint check_fields (allowed fields : list string) : M unit :=
  match fields with
  | [] => ret tt
  | field :: rest =>
      if negb (Js.includes allowed (Js.toLowerCase field))
      then throw (ErrorWithStatus ("User field '" +:+ field +:+ "' is invalid") 400)
      else check_fields allowed rest
  end.

Definition setUserInfo (table user_id : string) (info : list (string * string))
    : M unit :=
  validateTableName table ;;
  check_fields ADDITIONAL_USER_FIELDS (map fst info) ;;
  try_catch (databaseEditUser table user_id info)
    (fun _ => throw (ErrorWithStatus "User Id does not exist" 400)).

Definition getUserInfo (table user_id fields : string)
    : M (gmap string string) :=
  validateTableName table ;;
  let fieldsArray := map Js.trim (Js.split_comma fields) in
  check_fields RETRIEVABLE_USER_FIELDS fieldsArray ;;
  let* response := Dynamo.get table user_id fields in
  match response with
  | None => throw (ErrorWithStatus "Invalid User Id" 400)
  | Some item =>
      if bool_decide (item = ∅)
      then throw (ErrorWithStatus ("Uninitialised value/s: '" +:+ fields +:+ "'") 400)
      else ret item
  end.

(** *** changePassword *)

Definition changePassword (env : Env)
    (table email oldPassword newPassword : string) : M unit :=
  validateTableName table ;;
  (if String.eqb oldPassword newPassword
   then throw (ErrorWithStatus
                 "New password cannot be the same as your old password" 400)
   else ret tt) ;;
  let* userId :=
    try_catch (authenticateUser table email oldPassword)
      (fun err =>
         if bool_decide (statusCode_of err = Some 403)
         then throw (ErrorWithStatus
                       "You cannot change your password as you signed in with a third-party provider."
                       403)
         else throw err) in
  let hashedPassword := bcrypt_hash newPassword (env_salt env) in
  databaseEditUser table userId [("password_hash", hashedPassword)].

(** *** deleteUser *)

Definition deleteUser (table userId : string) : M unit :=
  validateTableName table ;;
  try_catch (Dynamo.delete table userId)
    (fun _ => throw (ErrorWithStatus "User Id does not exist" 400)).

(** *** sendPasswordResetToken *)

Definition no_password_to_reset (item : Item) : Exn :=
  ErrorWithStatus
    ("You previously signed up using " +:+ Js.show (attr "provider" item)
       +:+ ", so you do not have a password to reset.") 403.

(** The loop leaves [userId]: the key of the first item with the email, or
    [""] when there is none. *)
Fixpoint sendPasswordResetToken_scan (email : string) (items : list Item)
    : M string :=
  match items with
  | [] => ret ""
  | item :: rest =>
      if Js.strict_eq (attr "email" item) email then
        if Js.truthy (attr "provider" item)
        then throw (no_password_to_reset item)
        else ret (user_id item)
      else sendPasswordResetToken_scan email rest
  end.

(** One hour, in milliseconds: [now.setHours(now.getHours() + 1)]. *)
Definition one_hour : Z := 3600000.

Definition sendPasswordResetToken (env : Env) (table email : string)
    : M string :=
  validateTableName table ;;
  (if negb (email_validate email)
   then throw (ErrorWithStatus "Email does not exist" 400) else ret tt) ;;
  let* items := Dynamo.scan table in
  let* userId := sendPasswordResetToken_scan email items in
  (if String.eqb userId ""
   then throw (ErrorWithStatus "Email does not exist" 400) else ret tt) ;;
  let token := env_token env in
  let hashedToken := bcrypt_hash token (env_salt env) in
  let expiryStr := toISOString (env_now env + one_hour) in
  databaseEditUser table userId
    [("resetToken", hashedToken); ("tokenExpiry", expiryStr)] ;;
  sendTokenEmail env email token ;;
  ret token.

(** *** resetPassword *)

Definition invalid_token : Exn := ErrorWithStatus "Invalid Token" 400.

(** [item.x === undefined || item.x === ""] *)
Definition undefined_or_empty (v : option string) : bool :=
  match v with
  | None => true
  | Some s => String.eqb s ""
  end.

(** [now >= expiry] on two dates; an invalid date compares false. *)
Definition date_ge (now : Z) (expiry : option Z) : bool :=
  match expiry with
  | Some e => e <=? now
  | None => false
  end.

Fixpoint resetPassword_scan (env : Env) (table email token newPassword : string)
    (items : list Item) : M string :=
  match items with
  | [] => ret ""
  | item :: rest =>
      if Js.strict_eq (attr "email" item) email then
        (if Js.truthy (attr "provider" item)
         then throw (no_password_to_reset item) else ret tt) ;;
        let* same := bcrypt_compare newPassword (attr "password_hash" item) in
        (if same
         then throw (ErrorWithStatus
                       "New password cannot be the same as your old password" 400)
         else ret tt) ;;
        (if undefined_or_empty (attr "resetToken" item)
            || undefined_or_empty (attr "tokenExpiry" item)
         then throw invalid_token else ret tt) ;;
        let now := env_now env in
        let expiry := parse_date (Js.show (attr "tokenExpiry" item)) in
        (if date_ge now expiry
         then databaseEditUser table (user_id item)
                [("resetToken", ""); ("tokenExpiry", "")] ;;
              throw invalid_token
         else ret tt) ;;
        let* matches := bcrypt_compare token (attr "resetToken" item) in
        (if negb matches then throw invalid_token else ret tt) ;;
        ret (user_id item)
      else resetPassword_scan env table email token newPassword rest
  end.

Definition resetPassword (env : Env) (table email token newPassword : string)
    : M unit :=
  validateTableName table ;;
  (if negb (email_validate email)
   then throw (ErrorWithStatus "Email does not exist" 400) else ret tt) ;;
  let* items := Dynamo.scan table in
  let* userId := resetPassword_scan env table email token newPassword items in
  (if String.eqb userId ""
   then throw (ErrorWithStatus "Email does not exist" 400) else ret tt) ;;
  let hashedPassword := bcrypt_hash newPassword (env_salt env) in
  databaseEditUser table userId
    [("resetToken", ""); ("tokenExpiry", ""); ("password_hash", hashedPassword)] ;;
  sendPasswordResetEmail env email.

(** *** The calls of the engine *)

Inductive Call : Type :=
| Register (table username password email : string)
| Authenticate (table email password : string)
| AuthenticateOrRegisterOAuth (table username provider email : string)
| SetProfile (table user_id : string) (info : list (string * string))
| GetProfile (table user_id fields : string)
| ChangePassword (table email oldPassword newPassword : string)
| DeleteUser (table userId : string)
| IssueResetToken (table email : string)
| ResetPassword (table email token newPassword : string).

Inductive Reply : Type :=
| Id (userId : string)
| Fields (item : gmap string string)
| Token (token : string)
| Done.

Definition call (env : Env) (c : Call) : M Reply :=
  match c with
  | Register table username password email =>
      let* id := registerUser env table username password email in ret (Id id)
  | Authenticate table email password =>
      let* id := authenticateUser table email password in ret (Id id)
  | AuthenticateOrRegisterOAuth table username provider email =>
      let* id := authenticateOauthUser env table username provider email in
      ret (Id id)
  | SetProfile table user_id info =>
      setUserInfo table user_id info ;; ret Done
  | GetProfile table user_id fields =>
      let* item := getUserInfo table user_id fields in ret (Fields item)
  | ChangePassword table email oldPassword newPassword =>
      changePassword env table email oldPassword newPassword ;; ret Done
  | DeleteUser table userId =>
      deleteUser table userId ;; ret Done
  | IssueResetToken table email =>
      let* token := sendPasswordResetToken env table email in ret (Token token)
  | ResetPassword table email token newPassword =>
      resetPassword env table email token newPassword ;; ret Done
  end.

(** A session is a sequence of calls, each with its surroundings, run one
    after the other whatever each one answers. *)
Fixpoint session (calls : list (Env * Call)) (w : World) : World :=
  match calls with
  | [] => w
  | (env, c) :: rest => session rest (call env c w).2
  end.

End Engine.

(** ** The endpoints and the router: [endpoints.ts] and [index.ts]

    Conventions. A response body is the object handed to [JSON.stringify],
    not its text. [JSON.parse] followed by the destructuring of an endpoint
    is a decoder of the platform: it throws (an error without [statusCode])
    or gives the fields the endpoint reads, [None] for [undefined]; the
    fields are strings and [info] a map of strings, as the signatures of the
    engine ask. [tableName], which [endpoints.ts] imports from the
    constants, is a parameter. *)

Inductive Payload : Type :=
| UserBody (id : string) (username : option string) (email : string)
| OauthBody (id username email provider : string)
| FieldsBody (fields : gmap string string)
| MessageBody (message : string).

Record Response : Type := mkResponse {
  statusCode : Z;
  headers : bool;         (* is [headers] part of the response *)
  body : Payload;
}.

(** The two shapes of an event the router reads: an object with the keys
    [httpMethod] and [path] (an invoke through the SDK), and the event of a
    function URL, read at [requestContext.http]. *)
Inductive LambdaEvent : Type :=
| SdkEvent (httpMethod path body : option string)
| UrlEvent (method path body : option string).

Definition event_body (event : LambdaEvent) : option string :=
  match event with
  | SdkEvent _ _ body => body
  | UrlEvent _ _ body => body
  end.

Inductive Parsed (A : Type) : Type :=
| SyntaxError (message : string)
| Value (a : A).
Arguments SyntaxError {A} message.
Arguments Value {A} a.

Class Json : Type := {
  (** [JSON.parse(body)], read at string fields *)
  JSON_parse : string → Parsed (string → option string);
  (** [JSON.parse(body)], read at [userID] and [info] *)
  JSON_parse_info :
    string → Parsed (option string * option (list (string * string)));
}.

Section Endpoints.

Context {P : Platform} {J : Json}.

Variable tableName : string.

(** [try { ...; return {headers, statusCode: 200, body} } catch (error)
    { return {headers, statusCode: error.statusCode || 500, body: {message:
    error.message}} }] *)
Definition respond (m : M Payload) : World → Response * World :=
  fun w =>
    match m w with
    | (Return payload, w') => (mkResponse 200 true payload, w')
    | (Throw e, w') =>
        (mkResponse (http_status e) true (MessageBody (message_of e)), w')
    end.

(** [if (!event.body) throw ...; JSON.parse(event.body)] *)
Definition parsed_body {A} (parse : string → Parsed A) (event : LambdaEvent)
    : M A :=
  if negb (Js.truthy (event_body event))
  then throw (ErrorWithStatus "Body is not provided" 400)
  else match parse (Js.show (event_body event)) with
       | SyntaxError message => throw (JsError message)
       | Value a => ret a
       end.

Definition handleRegister (env : Env) (event : LambdaEvent)
    : World → Response * World :=
  respond
    (let* fields := parsed_body JSON_parse event in
     match fields "username", fields "password", fields "email" with
     | Some username, Some password, Some email =>
         let* id := registerUser env tableName username password email in
         ret (UserBody id (Some username) email)
     | _, _, _ =>
         throw (ErrorWithStatus
                  "username, password and email must be passed in body" 400)
     end).

Definition handleAuthenticate (event : LambdaEvent)
    : World → Response * World :=
  respond
    (let* fields := parsed_body JSON_parse event in
     match fields "email", fields "password" with
     | Some email, Some password =>
         let* id := authenticateUser tableName email password in
         let* info := getUserInfo tableName id "username" in
         ret (UserBody id (info !! "username") email)
     | _, _ =>
         throw (ErrorWithStatus "email and password must be passed in body" 400)
     end).

Definition handleOauth (env : Env) (event : LambdaEvent)
    : World → Response * World :=
  respond
    (let* fields := parsed_body JSON_parse event in
     match fields "username", fields "provider", fields "email" with
     | Some username, Some provider, Some email =>
         let* id :=
           authenticateOauthUser env tableName username provider email in
         ret (OauthBody id username email provider)
     | _, _, _ =>
         throw (ErrorWithStatus
                  "username, email and provider must be passed in body" 400)
     end).

Definition handleSetInfo (event : LambdaEvent) : World → Response * World :=
  respond
    (let* fields := parsed_body JSON_parse_info event in
     match fields with
     | (Some userID, Some info) =>
         setUserInfo tableName userID info ;;
         ret (MessageBody
                ("Provided information has been successfully set for user "
                   +:+ userID))
     | _ =>
         throw (ErrorWithStatus "userID and info must be passed in body" 400)
     end).

Definition handleGetInfo (event : LambdaEvent) : World → Response * World :=
  respond
    (let* fields := parsed_body JSON_parse event in
     match fields "userID", fields "fields" with
     | Some userID, Some requested =>
         let* value := getUserInfo tableName userID requested in
         ret (FieldsBody value)
     | _, _ =>
         throw (ErrorWithStatus "userID and field must be passed in body" 400)
     end).

Definition handleChangePW (env : Env) (event : LambdaEvent)
    : World → Response * World :=
  respond
    (let* fields := parsed_body JSON_parse event in
     match fields "email", fields "oldPassword", fields "newPassword" with
     | Some email, Some oldPassword, Some newPassword =>
         changePassword env tableName email oldPassword newPassword ;;
         ret (MessageBody
                ("User with email " +:+ email
                   +:+ " has successfully changed their password."))
     | _, _, _ =>
         throw (ErrorWithStatus
                  "email, oldPassword and newPassword must be passed in body"
                  400)
     end).

Definition handleDeleteUser (event : LambdaEvent) : World → Response * World :=
  respond
    (let* fields := parsed_body JSON_parse event in
     match fields "userID" with
     | Some userID =>
         deleteUser tableName userID ;;
         ret (MessageBody ("userID " +:+ userID +:+ " successfully deleted."))
     | None => throw (ErrorWithStatus "userID must be passed in body" 400)
     end).

Definition handleSendPasswordResetToken (env : Env) (event : LambdaEvent)
    : World → Response * World :=
  respond
    (let* fields := parsed_body JSON_parse event in
     match fields "email" with
     | Some email =>
         sendPasswordResetToken env tableName email ;;
         ret (MessageBody
                ("User with email " +:+ email
                   +:+ " has successfully been emailed a password reset token."))
     | None => throw (ErrorWithStatus "email must be passed in body" 400)
     end).

Definition handleResetPassword (env : Env) (event : LambdaEvent)
    : World → Response * World :=
  respond
    (let* fields := parsed_body JSON_parse event in
     match fields "email", fields "token", fields "newPassword" with
     | Some email, Some token, Some newPassword =>
         resetPassword env tableName email token newPassword ;;
         ret (MessageBody
                ("User with email " +:+ email
                   +:+ " has successfully reset their password"))
     | _, _, _ =>
         throw (ErrorWithStatus
                  "email, token, and newPassword must be passed in body" 400)
     end).

(** *** The router *)

(** The stage prefixes of [^(/(dev|staging|prod))?/user-data/...$]. *)
Definition stages : list string := [""; "/dev"; "/staging"; "/prod"].

(** [new RegExp(`^(/(dev|staging|prod))?/user-data/${correctPath}$`)
    .test(path)], for a [correctPath] without special characters: the whole
    path is a stage prefix, or none, then [/user-data/], then the name. *)
Definition isCorrectPath (path correctPath : string) : bool :=
  List.existsb
    (fun stage => String.eqb path (stage +:+ "/user-data/" +:+ correctPath))
    stages.

Definition event_method (event : LambdaEvent) : option string :=
  match event with
  | SdkEvent httpMethod _ _ => httpMethod
  | UrlEvent method _ _ => method
  end.

Definition event_path (event : LambdaEvent) : option string :=
  match event with
  | SdkEvent _ path _ => path
  | UrlEvent _ path _ => path
  end.

Definition handler (env : Env) (event : LambdaEvent)
    : World → Response * World :=
  let httpMethod := event_method event in
  let path := event_path event in
  let routed (method name : string) :=
    Js.strict_eq httpMethod method && isCorrectPath (Js.show path) name in
  if negb (Js.truthy path) then
    fun w => (mkResponse 400 true (MessageBody "No path provided"), w)
  else if negb (Js.truthy httpMethod) then
    fun w => (mkResponse 405 true (MessageBody "No httpMethod provided"), w)
  else if routed "POST" "register" then handleRegister env event
  else if routed "POST" "authenticate" then handleAuthenticate event
  else if routed "POST" "handle-oauth" then handleOauth env event
  else if routed "PATCH" "set" then handleSetInfo event
  else if routed "GET" "get" then handleGetInfo event
  else if routed "PATCH" "change-pw" then handleChangePW env event
  else if routed "DELETE" "delete" then handleDeleteUser event
  else if routed "POST" "pw-reset-token" then handleSendPasswordResetToken env event
  else if routed "PATCH" "pw-reset" then handleResetPassword env event
  else
    fun w =>
      (mkResponse 404 false
         (MessageBody "Unrecognised path and method combination"), w).

(** The nine routes, as the router lists them. *)
Inductive Route : Type :=
| RRegister | RAuthenticate | ROauth | RSet | RGet | RChangePW | RDelete
| RResetToken | RResetPassword.

Definition route_method (r : Route) : string :=
  match r with
  | RRegister | RAuthenticate | ROauth | RResetToken => "POST"
  | RSet | RChangePW | RResetPassword => "PATCH"
  | RGet => "GET"
  | RDelete => "DELETE"
  end.

Definition route_name (r : Route) : string :=
  match r with
  | RRegister => "register"
  | RAuthenticate => "authenticate"
  | ROauth => "handle-oauth"
  | RSet => "set"
  | RGet => "get"
  | RChangePW => "change-pw"
  | RDelete => "delete"
  | RResetToken => "pw-reset-token"
  | RResetPassword => "pw-reset"
  end.

Definition route_handler (r : Route) (env : Env) (event : LambdaEvent)
    : World → Response * World :=
  match r with
  | RRegister => handleRegister env event
  | RAuthenticate => handleAuthenticate event
  | ROauth => handleOauth env event
  | RSet => handleSetInfo event
  | RGet => handleGetInfo event
  | RChangePW => handleChangePW env event
  | RDelete => handleDeleteUser event
  | RResetToken => handleSendPasswordResetToken env event
  | RResetPassword => handleResetPassword env event
  end.

(** The event reaches the route: its method is the route's, and its path is
    the route's name under [/user-data/], behind a stage or none. *)
Definition routes_to (r : Route) (event : LambdaEvent) : Prop :=
  event_method event = Some (route_method r)
  ∧ ∃ path, event_path event = Some path
            ∧ isCorrectPath path (route_name r) = true.

(** The fields an endpoint asks of the body. *)
Definition route_fields (r : Route) : list string :=
  match r with
  | RRegister => ["username"; "password"; "email"]
  | RAuthenticate => ["email"; "password"]
  | ROauth => ["username"; "email"; "provider"]
  | RSet => ["userID"; "info"]
  | RGet => ["userID"; "fields"]
  | RChangePW => ["email"; "oldPassword"; "newPassword"]
  | RDelete => ["userID"]
  | RResetToken => ["email"]
  | RResetPassword => ["email"; "token"; "newPassword"]
  end.

(** [JSON.parse] throws on the body, as the endpoint of the route reads it. *)
Definition unparsable (r : Route) (body message : string) : Prop :=
  match r with
  | RSet => JSON_parse_info body = SyntaxError message
  | _ => JSON_parse body = SyntaxError message
  end.

(** The body parses and one of the fields the endpoint asks for is
    [undefined]. *)
Definition incomplete (r : Route) (body : string) : Prop :=
  match r with
  | RSet =>
      ∃ userID info, JSON_parse_info body = Value (userID, info)
                     ∧ (userID = None ∨ info = None)
  | _ =>
      ∃ fields name, JSON_parse body = Value fields
                     ∧ name ∈ route_fields r ∧ fields name = None
  end.

(** The statuses an endpoint can answer with. *)
Definition route_statuses (r : Route) : list Z :=
  match r with
  | RRegister => [200; 400; 409; 500]
  | RAuthenticate => [200; 400; 401; 403; 500]
  | ROauth => [200; 400; 403; 500]
  | RSet | RGet | RDelete => [200; 400; 500]
  | RChangePW => [200; 400; 401; 403; 500]
  | RResetToken | RResetPassword => [200; 400; 403; 500]
  end.

End Endpoints.

(** ** A sample platform

    A concrete platform to run the engine on: digests that keep the secret
    behind the salt, a validator that asks for an [@] between two non-empty
    parts, and dates printed as decimal milliseconds. *)

Module Sample.

Definition hash (secret salt : string) : string :=
  "$" +:+ salt +:+ "$" +:+ secret.

(** The part of a digest behind its second [$]. *)
Fixpoint after_dollar (n : nat) (digest : string) : option string :=
  match digest with
  | EmptyString => None
  | String c r =>
      if Ascii.eqb c "$"%char then
        match n with
        | O => Some r
        | S n' => after_dollar n' r
        end
      else after_dollar n r
  end.

Definition verify (secret digest : string) : bool :=
  match after_dollar 1 digest with
  | Some s => String.eqb s secret
  | None => false
  end.

Fixpoint validate_from (seen : bool) (s : string) : bool :=
  match s with
  | EmptyString => false
  | String c r =>
      if Ascii.eqb c "@"%char
      then seen && negb (String.eqb r "")
      else validate_from true r
  end.

Definition validate (email : string) : bool := validate_from false email.

Definition print_date (ms : Z) : string :=
  NilZero.string_of_int (Z.to_int ms).

Definition read_date (s : string) : option Z :=
  Z.of_int <$> NilZero.int_of_string s.

Definition plain_distinct (expression : string)
    (H : plain_projection expression = true)
    : NoDup (map Js.trim (Js.split_comma expression)) :=
  bool_decide_eq_true_1 _ (proj2 (andb_prop _ _ H)).

(** A page of a hundred items, and the plain projections accepted alone. *)
Definition platform : Platform := {|
  bcrypt_hash := hash;
  bcrypt_verify := verify;
  email_validate := validate;
  toISOString := print_date;
  parse_date := read_date;
  scan_page := 100;
  projection_accepted := plain_projection;
  projection_plain := fun _ H => H;
  projection_distinct := plain_distinct;
|}.

(** The same platform with a page of one item. *)
Definition cramped : Platform := {|
  bcrypt_hash := hash;
  bcrypt_verify := verify;
  email_validate := validate;
  toISOString := print_date;
  parse_date := read_date;
  scan_page := 1;
  projection_accepted := plain_projection;
  projection_plain := fun _ H => H;
  projection_distinct := plain_distinct;
|}.

Definition env : Env := {|
  env_uuid := "id-1";
  env_salt := "salt";
  env_token := "c0ffee";
  env_now := 1000;
  env_smtp := true;
|}.

Definition empty : World := mkWorld [] [].

(** Sample bodies: [name=value] pairs separated by [;]; a pair without [=]
    does not parse. The body of [/set] gives [userID] and, as [info], the
    other pairs when there are some. *)
Fixpoint split_on (sep : ascii) (s : string) : list string :=
  match s with
  | EmptyString => [EmptyString]
  | String c r =>
      if Ascii.eqb c sep then EmptyString :: split_on sep r
      else match split_on sep r with
           | h :: t => String c h :: t
           | [] => [String c EmptyString]
           end
  end.

Fixpoint pair_of (s : string) : option (string * string) :=
  match s with
  | EmptyString => None
  | String c r =>
      if Ascii.eqb c "="%char then Some (EmptyString, r)
      else match pair_of r with
           | Some (k, v) => Some (String c k, v)
           | None => None
           end
  end.

Fixpoint pairs_of (l : list string) : option (list (string * string)) :=
  match l with
  | [] => Some []
  | s :: rest =>
      match pair_of s, pairs_of rest with
      | Some kv, Some kvs => Some (kv :: kvs)
      | _, _ => None
      end
  end.

Definition field_of (l : list (string * string)) (name : string)
    : option string :=
  snd <$> List.find (fun kv => String.eqb (fst kv) name) l.

Definition parse (body : string) : Parsed (string → option string) :=
  match pairs_of (split_on ";"%char body) with
  | Some l => Value (field_of l)
  | None => SyntaxError "Unexpected token in JSON"
  end.

Definition parse_info (body : string)
    : Parsed (option string * option (list (string * string))) :=
  match pairs_of (split_on ";"%char body) with
  | Some l =>
      let info :=
        List.filter (fun kv => negb (String.eqb (fst kv) "userID")) l in
      Value (field_of l "userID",
             match info with [] => None | _ => Some info end)
  | None => SyntaxError "Unexpected token in JSON"
  end.

Definition json : Json := {|
  JSON_parse := parse;
  JSON_parse_info := parse_info;
|}.

End Sample.

(** ** Accounts, modes and well-formed tables *)

Definition has_email (email : string) (item : Item) : Prop :=
  attr "email" item = Some email.

(** A password account holds a [password_hash] and no [provider]; an OAuth
    account holds a [provider] and no [password_hash]. *)
Definition password_account (item : Item) : Prop :=
  is_Some (attr "password_hash" item) ∧ attr "provider" item = None.

Definition oauth_account (item : Item) : Prop :=
  is_Some (attr "provider" item) ∧ attr "password_hash" item = None.

Definition one_mode (item : Item) : Prop :=
  password_account item ∨ oauth_account item.

(** The mode of an item, as the presence of its two credentials. *)
Definition mode (item : Item) : bool * bool :=
  (bool_decide (is_Some (attr "password_hash" item)),
   bool_decide (is_Some (attr "provider" item))).

Definition keys (tbl : list Item) : list string := map user_id tbl.

Definition emails (tbl : list Item) : list string := omap (attr "email") tbl.

(** The primary key is unique in a table. *)
Definition unique_keys (tbl : list Item) : Prop := NoDup (keys tbl).

(** No two items of the table hold the same email. *)
Definition unique_emails (tbl : list Item) : Prop := NoDup (emails tbl).

(** The first of the items that holds the email. *)
Definition first_with_email (email : string) (items : list Item)
    : option Item :=
  List.find (fun item => Js.strict_eq (attr "email" item) email) items.

Section Predicates.

Context {P : Platform}.

(** The item a scan of the table finds for the email: the first item of the
    scan's page that holds it. *)
Definition find_by_email (email : string) (tbl : list Item) : option Item :=
  first_with_email email (Dynamo.page tbl).

(** The table fits in the page of a scan. *)
Definition one_page (tbl : list Item) : Prop := (length tbl <= scan_page)%nat.

(** The password does not verify against the digest the item holds. *)
Definition password_fails (password : string) (item : Item) : Prop :=
  ∃ h, attr "password_hash" item = Some h ∧ bcrypt_verify password h = false.

(** No item holds the email. *)
Definition unknown_email (email : string) (tbl : list Item) : Prop :=
  ∀ item, item ∈ tbl → ¬ has_email email item.

(** A password account holds the email and the password does not verify
    against its digest. *)
Definition wrong_password (email password : string) (tbl : list Item) : Prop :=
  ∃ item, item ∈ tbl ∧ has_email email item ∧ password_account item
          ∧ password_fails password item.

End Predicates.

(** ** Calls, field names and messages *)

(** The collection name a call is addressed with. *)
Definition table_of (c : Call) : string :=
  match c with
  | Register table _ _ _ => table
  | Authenticate table _ _ => table
  | AuthenticateOrRegisterOAuth table _ _ _ => table
  | SetProfile table _ _ => table
  | GetProfile table _ _ => table
  | ChangePassword table _ _ _ => table
  | DeleteUser table _ => table
  | IssueResetToken table _ => table
  | ResetPassword table _ _ _ => table
  end.

(** The field is in the mutable allow-list, whatever its case. *)
Definition mutable_field (field : string) : bool :=
  Js.includes ADDITIONAL_USER_FIELDS (Js.toLowerCase field).

(** A field name in the retrievable allow-list, whatever its case. *)
Definition retrievable_field (field : string) : bool :=
  Js.includes RETRIEVABLE_USER_FIELDS (Js.toLowerCase field).

(** A string with no comma and no white space: [split] and [trim] leave it
    whole. *)
Fixpoint plain (s : string) : bool :=
  match s with
  | EmptyString => true
  | String c r => negb (Js.is_space c) && negb (Ascii.eqb c ","%char) && plain r
  end.


(** The two refusals of [authenticateOauthUser]. *)
Definition wrong_method : Exn :=
  ErrorWithStatus
    "You signed up with a password. Please sign in with your password instead."
    403.

Definition wrong_provider (existing : option string) : Exn :=
  ErrorWithStatus
    ("You first signed up via " +:+ Js.show existing
       +:+ ". Please use that provider instead.") 403.

(** The refusal of [registerUser] on an email that is taken. *)
Definition email_taken (existing : Item) : Exn :=
  ErrorWithStatus
    ("Email has been taken."
       +:+ (if Js.truthy (attr "provider" existing)
            then " Did you mean to sign in using "
                   +:+ Js.show (attr "provider" existing) +:+ "?"
            else ""))
    409.

Definition email_failed : Exn := ErrorWithStatus "Email failed to send" 500.

Definition same_password : Exn :=
  ErrorWithStatus "New password cannot be the same as your old password" 400.

(** ** Items and worlds the engine builds *)

(** The item [databaseAddUser] puts for a first OAuth sign-in. *)
Definition oauth_item (id username provider email : string) : Item :=
  mkItem id
    (<["email" := email]>
       (<["provider" := provider]> (<["username" := username]> ∅))).

(** The item [databaseAddUser] puts for a registration. *)
Definition password_item (id username passwordHash email : string) : Item :=
  mkItem id
    (<["email" := email]>
       (<["password_hash" := passwordHash]> (<["username" := username]> ∅))).

(** The world after [databaseAddUser] has put the item. *)
Definition added (item : Item) (w : World) : World :=
  mkWorld (Dynamo.put_item item (db w)) (log w ++ [EvPut item]).

(** The world after the table accepted an update, and after a mail was handed
    to the transport. *)
Definition updated (uid : string) (fields : list (string * string)) (w : World)
    : World :=
  mkWorld (Dynamo.update_item uid fields (db w)) (log w ++ [EvUpdate uid fields]).

Definition mailed (mail : Mail) (delivered : bool) (w : World) : World :=
  mkWorld (db w) (log w ++ [EvMail mail delivered]).

(** ** What a call may write

    An update keeps the credentials of the items it reaches when it assigns
    neither [provider] nor [email], and assigns [password_hash] only where one
    is held already. *)
Definition keeps_credentials (tbl : list Item) (uid : string)
    (fields : list (string * string)) : Prop :=
  ∀ name, name ∈ map fst fields →
    name ≠ "provider" ∧ name ≠ "email"
    ∧ (name = "password_hash" →
       ∀ item, item ∈ tbl → user_id item = uid →
               is_Some (attr "password_hash" item)).

(** The writes of the engine: none; the put of a new account of one mode,
    under the id drawn for the call and with an email the scan finds no item
    for; an update that keeps credentials; a delete. *)
Inductive write {P : Platform} (uuid : string) (tbl : list Item)
    : list Item → Prop :=
| write_nothing : write uuid tbl tbl
| write_put (item : Item) (email : string) :
    user_id item = uuid → one_mode item → has_email email item →
    find_by_email email tbl = None →
    write uuid tbl (Dynamo.put_item item tbl)
| write_update (uid : string) (fields : list (string * string)) :
    keeps_credentials tbl uid fields →
    write uuid tbl (Dynamo.update_item uid fields tbl)
| write_delete (uid : string) :
    write uuid tbl (Dynamo.delete_item uid tbl).

(** ** The reset flow *)

(** A reset is pending on the item: it holds a token digest and an expiry,
    neither empty. *)
Definition pending_reset (item : Item) (tokenHash expiry : string) : Prop :=
  attr "resetToken" item = Some tokenHash ∧ tokenHash ≠ ""
  ∧ attr "tokenExpiry" item = Some expiry ∧ expiry ≠ "".

(** The three updates of the reset flow. *)
Definition reset_issued (tokenHash expiry : string) : list (string * string) :=
  [("resetToken", tokenHash); ("tokenExpiry", expiry)].

Definition reset_cleared : list (string * string) :=
  [("resetToken", ""); ("tokenExpiry", "")].

Definition password_reset (passwordHash : string) : list (string * string) :=
  [("resetToken", ""); ("tokenExpiry", ""); ("password_hash", passwordHash)].

(** ** Sample worlds *)

(** Sample worlds: alice has registered with a password. *)
Definition alice_world : World :=
  (registerUser (P := Sample.platform) Sample.env TABLE_NAME
     "alice" "pw1" "a@x.com" Sample.empty).2.

(** Sample worlds: bob has signed in through a provider after alice
    registered. *)
Definition bob_env : Env :=
  mkEnv "id-2" "pepper" "decaf0" 2000 true.

Definition bob_world : World :=
  (authenticateOauthUser (P := Sample.platform) bob_env TABLE_NAME
     "bob" "google" "b@x.com" alice_world).2.

(** Sample worlds: mallory has signed in through a provider with an email
    that is no email address. *)
Definition mallory_env : Env :=
  mkEnv "id-3" "brine" "facade" 3000 true.

Definition mallory_world : World :=
  (authenticateOauthUser (P := Sample.platform) mallory_env TABLE_NAME
     "mallory" "google" "not-an-email" Sample.empty).2.

(** A sample session on bob's world: alice changes her password, bob tries to
    register and to reset a password, carol signs in through a provider,
    alice asks for a reset token and is deleted. *)
Definition sample_session : list (Env * Call) :=
  [ (Sample.env, ChangePassword TABLE_NAME "a@x.com" "pw1" "pw2");
    (Sample.env, Register TABLE_NAME "bob" "secret" "b@x.com");
    (Sample.env, IssueResetToken TABLE_NAME "b@x.com");
    (mallory_env, AuthenticateOrRegisterOAuth TABLE_NAME "carol" "github" "c@x.com");
    (Sample.env, SetProfile TABLE_NAME "id-2" [("Username", "bobby")]);
    (Sample.env, IssueResetToken TABLE_NAME "a@x.com");
    (Sample.env, DeleteUser TABLE_NAME "id-1") ].

(** Sample worlds: carol has registered with a password after alice, where
    a page of a scan holds one item. *)
Definition carol_world : World :=
  (registerUser (P := Sample.cramped) mallory_env TABLE_NAME
     "carol" "pw3" "c@x.com" alice_world).2.

(** Sample worlds: alice has asked for a reset token at time 1000; it expires
    at 3601000. *)
Definition pending_world : World :=
  (sendPasswordResetToken (P := Sample.platform) Sample.env TABLE_NAME
     "a@x.com" alice_world).2.

Definition alice_pending : Item :=
  Dynamo.set_attrs (reset_issued "$salt$c0ffee" "3601000")
    (password_item "id-1" "alice" "$salt$pw1" "a@x.com").

(** Surroundings of a later call: in time with the transport up, in time with
    the transport down, and too late. *)
Definition soon_env : Env := mkEnv "id-8" "sugar" "0ddba11" 5000 true.
Definition down_env : Env := mkEnv "id-8" "sugar" "0ddba11" 5000 false.
Definition late_env : Env := mkEnv "id-9" "grain" "beef00" 4000000 true.

(** ** Statuses and steps *)

(** The statuses a call can throw with, read off the throws of [dynamo.ts];
    500 stands for an error without [statusCode]: one that bcrypt throws, or
    one DynamoDB rejects a [GetCommand] with. *)
Definition statuses_of (c : Call) : list Z :=
  match c with
  | Register _ _ _ _ => [400; 409]
  | Authenticate _ _ _ => [400; 401; 403; 500]
  | AuthenticateOrRegisterOAuth _ _ _ _ => [400; 403]
  | SetProfile _ _ _ => [400]
  | GetProfile _ _ _ => [400; 500]
  | ChangePassword _ _ _ _ => [400; 401; 403; 500]
  | DeleteUser _ _ => [400]
  | IssueResetToken _ _ => [400; 403; 500]
  | ResetPassword _ _ _ _ => [400; 403; 500]
  end.

(** The items [databaseAddUser] is asked to put, under a given id. *)
Definition new_item (uuid : string) (item : Item) : Prop :=
  (∃ username passwordHash email,
     item = password_item uuid username passwordHash email)
  ∨ (∃ username provider email, item = oauth_item uuid username provider email).

(** The field maps [databaseEditUser] is asked to assign. *)
Definition edit_fields (fields : list (string * string)) : Prop :=
  (∀ f, f ∈ map fst fields → mutable_field f = true)
  ∨ (∃ passwordHash, fields = [("password_hash", passwordHash)])
  ∨ (∃ tokenHash expiry, fields = reset_issued tokenHash expiry)
  ∨ fields = reset_cleared
  ∨ (∃ passwordHash, fields = password_reset passwordHash).

(** What one call does to the table: nothing, one put of a new item under the
    id drawn for the call, one update of the engine's, or one delete. *)
Inductive step (uuid : string) (tbl : list Item) : list Item → Prop :=
| step_nothing : step uuid tbl tbl
| step_put (item : Item) :
    new_item uuid item → step uuid tbl (Dynamo.put_item item tbl)
| step_update (uid : string) (fields : list (string * string)) :
    edit_fields fields → step uuid tbl (Dynamo.update_item uid fields tbl)
| step_delete (uid : string) :
    step uuid tbl (Dynamo.delete_item uid tbl).

(** The item holds a token digest exactly when it holds an expiry. *)
Definition reset_paired (item : Item) : Prop :=
  is_Some (attr "resetToken" item) ↔ is_Some (attr "tokenExpiry" item).

(** The item holds an email and a username. *)
Definition identified (item : Item) : Prop :=
  is_Some (attr "email" item) ∧ is_Some (attr "username" item).

(** * Properties *)

(** ** Basic facts *)

Lemma strict_eq_true (v : option string) (s : string) :
  Js.strict_eq v s = true ↔ v = Some s.
Proof.
  destruct v as [x|]; simpl.
  - rewrite String.eqb_eq. split; congruence.
  - split; discriminate.
Qed.

Lemma strict_eq_false (v : option string) (s : string) :
  Js.strict_eq v s = false ↔ v ≠ Some s.
Proof.
  rewrite <- strict_eq_true. destruct (Js.strict_eq v s); split; congruence.
Qed.

Lemma truthy_None : Js.truthy None = false.
Proof. reflexivity. Qed.

Lemma truthy_Some (s : string) : Js.truthy (Some s) = true ↔ s ≠ "".
Proof.
  simpl. destruct (String.eqb_spec s ""); simpl; split; congruence.
Qed.

Lemma has_key_true (k : string) (item : Item) :
  Dynamo.has_key k item = true ↔ user_id item = k.
Proof. unfold Dynamo.has_key. apply String.eqb_eq. Qed.

Lemma has_key_false (k : string) (item : Item) :
  Dynamo.has_key k item = false ↔ user_id item ≠ k.
Proof. unfold Dynamo.has_key. apply String.eqb_neq. Qed.

Lemma validateTableName_ok : validateTableName TABLE_NAME = ret tt.
Proof. reflexivity. Qed.

Lemma on_table_ok {A} (m : M A) : Dynamo.on_table TABLE_NAME m = m.
Proof. reflexivity. Qed.

Lemma validateTableName_wrong (table : string) (w : World) :
  table ≠ TABLE_NAME →
  validateTableName table w = (Throw (ErrorWithStatus "Invalid Table Name" 400), w).
Proof.
  intros Hne. unfold validateTableName.
  apply String.eqb_neq in Hne. rewrite Hne. reflexivity.
Qed.

(** Two items of a table with unique emails that hold the same email are the
    same item. *)
Lemma unique_emails_same (tbl : list Item) (x y : Item) (e : string) :
  unique_emails tbl → x ∈ tbl → y ∈ tbl → has_email e x → has_email e y → x = y.
Proof.
  unfold unique_emails, emails, has_email.
  induction tbl as [|z tbl IH]; intros Hnd Hx Hy Ex Ey.
  - inversion Hx.
  - simpl in Hnd. apply elem_of_cons in Hx, Hy.
    destruct (attr "email" z) as [ez|] eqn:Ez.
    + apply NoDup_cons in Hnd as [Hnotin Hnd].
      assert (Hin : ∀ u, u ∈ tbl → attr "email" u = Some ez → False).
      { intros u Hu Eu. apply Hnotin. apply list_elem_of_omap. eauto. }
      destruct Hx as [->|Hx], Hy as [->|Hy]; trivial.
      * rewrite Ex in Ez. inversion Ez; subst. exfalso; eauto.
      * rewrite Ey in Ez. inversion Ez; subst. exfalso; eauto.
      * eauto.
    + destruct Hx as [->|Hx]; [congruence|].
      destruct Hy as [->|Hy]; [congruence|]. eauto.
Qed.

(** ** The page of a scan *)

Section Pages.

Context {P : Platform}.

Lemma page_sublist (tbl : list Item) : sublist (Dynamo.page tbl) tbl.
Proof. apply sublist_take. Qed.

Lemma page_elem (item : Item) (tbl : list Item) :
  item ∈ Dynamo.page tbl → item ∈ tbl.
Proof. intros H. eapply elem_of_sublist; [exact H|apply page_sublist]. Qed.

Lemma page_one_page (tbl : list Item) : one_page tbl → Dynamo.page tbl = tbl.
Proof. intros H. now apply take_ge. Qed.

Lemma page_update_item (uid : string) (fields : list (string * string))
    (tbl : list Item) :
  Dynamo.page (Dynamo.update_item uid fields tbl)
  = Dynamo.update_item uid fields (Dynamo.page tbl).
Proof. unfold Dynamo.page, Dynamo.update_item. symmetry. apply fmap_take. Qed.

Lemma emails_sublist (l1 l2 : list Item) :
  sublist l1 l2 → sublist (emails l1) (emails l2).
Proof.
  unfold emails. induction 1 as [|x l1 l2 _ IH|x l1 l2 _ IH]; simpl.
  - constructor.
  - destruct (attr "email" x); [now constructor|assumption].
  - destruct (attr "email" x); [now constructor|assumption].
Qed.

Lemma unique_emails_page (tbl : list Item) :
  unique_emails tbl → unique_emails (Dynamo.page tbl).
Proof.
  unfold unique_emails. intros H.
  eapply sublist_NoDup; [exact H|]. apply emails_sublist, page_sublist.
Qed.

End Pages.

(** ** Authenticate *)

Section Authenticate.

Context {P : Platform}.

Lemma authenticateUser_scan_miss (email password : string) (items : list Item)
    (w : World) :
  (∀ item, item ∈ items → has_email email item →
     attr "provider" item = None ∧ password_fails password item) →
  authenticateUser_scan email password items w = (Throw authenticateUser_failure, w).
Proof.
  induction items as [|item rest IH]; intros Hall; simpl; [reflexivity|].
  destruct (Js.strict_eq (attr "email" item) email) eqn:Heq.
  - apply strict_eq_true in Heq.
    destruct (Hall item) as [Hprov (h & Hh & Hv)]; [left|exact Heq|].
    rewrite Hprov, Hh. simpl. unfold bind, ret. simpl. rewrite Hv.
    apply IH. intros i Hi. apply Hall. now right.
  - apply IH. intros i Hi. apply Hall. now right.
Qed.

Lemma authenticateUser_miss (email password : string) (w : World) :
  (∀ item, item ∈ db w → has_email email item →
     attr "provider" item = None ∧ password_fails password item) →
  authenticateUser TABLE_NAME email password w
  = (Throw authenticateUser_failure, w).
Proof.
  intros Hall. unfold authenticateUser. rewrite validateTableName_ok.
  unfold bind, ret, Dynamo.scan. simpl.
  apply authenticateUser_scan_miss.
  intros item Hin. apply Hall. now apply page_elem.
Qed.

(** C2. Authenticate hides whether an email exists. When no item holds the
    email, and when (in a table with unique emails) a password account holds
    it but the password does not verify against its digest, the call throws
    the same error: status 401 with the message "Authentication Error
    (Incorrect email or password)"; the world is left as it was. There is
    one failure for both cases, thrown when the scan has ended. *)
Theorem authenticate_hides_existence (w : World) (email password : string) :
  unknown_email email (db w)
  ∨ (unique_emails (db w) ∧ wrong_password email password (db w)) →
  authenticateUser TABLE_NAME email password w
  = (Throw (ErrorWithStatus
              "Authentication Error (Incorrect email or password)" 401), w).
Proof.
  intros [Hnone | [Huniq (item & Hin & Hmail & [_ Hprov] & Hfail)]];
    apply authenticateUser_miss.
  - intros i Hi Hm. exfalso. exact (Hnone i Hi Hm).
  - intros i Hi Hm.
    assert (i = item) as -> by eauto using unique_emails_same.
    split; assumption.
Qed.

End Authenticate.

(** Membership in a table given by its items. *)
Ltac in_table :=
  repeat first [ apply list_elem_of_here | apply list_elem_of_further ].

Ltac no_other_item H :=
  vm_compute in H;
  repeat (apply elem_of_cons in H as [H|H]; [subst|]);
  try (apply elem_of_nil in H; destruct H).

Lemma authenticate_hides_existence_witness :
  authenticateUser (P := Sample.platform) TABLE_NAME "nobody@x.com" "pw1" alice_world
  = (Throw (ErrorWithStatus
              "Authentication Error (Incorrect email or password)" 401),
     alice_world)
  ∧ authenticateUser (P := Sample.platform) TABLE_NAME "a@x.com" "wrong" alice_world
    = (Throw (ErrorWithStatus
                "Authentication Error (Incorrect email or password)" 401),
       alice_world).
Proof.
  split; apply authenticate_hides_existence.
  - left. intros item Hin Hmail. no_other_item Hin.
    vm_compute in Hmail. discriminate.
  - right. split.
    + vm_compute. apply NoDup_singleton.
    + eexists. split; [in_table|].
      split; [reflexivity|]. split.
      * split; [eexists|]; reflexivity.
      * eexists. split; reflexivity.
Defined.

(** ** The collection name *)

(** C9, as the code has it. Every call carries the collection name it is
    addressed with and the engine compares it with the configured
    [TABLE_NAME] first: a call addressed with another name throws status 400,
    "Invalid Table Name", and leaves the world as it was; the configured name
    passes the check. *)
Theorem table_name_checked_per_call {P : Platform} (env : Env) (c : Call)
    (w : World) :
  table_of c ≠ TABLE_NAME →
  call env c w = (Throw (ErrorWithStatus "Invalid Table Name" 400), w)
  ∧ validateTableName TABLE_NAME w = (Return tt, w).
Proof.
  intros Hne. split; [|reflexivity].
  destruct c; simpl in Hne; simpl; unfold bind;
    unfold registerUser, authenticateUser, authenticateOauthUser, setUserInfo,
      getUserInfo, changePassword, deleteUser, sendPasswordResetToken,
      resetPassword, bind;
    rewrite (validateTableName_wrong _ w Hne); reflexivity.
Qed.

Lemma table_name_checked_per_call_witness :
  call (P := Sample.platform) Sample.env
    (Authenticate "Users" "a@x.com" "pw1") alice_world
  = (Throw (ErrorWithStatus "Invalid Table Name" 400), alice_world)
  ∧ validateTableName TABLE_NAME alice_world = (Return tt, alice_world).
Proof.
  apply (table_name_checked_per_call (P := Sample.platform)).
  simpl. unfold TABLE_NAME. discriminate.
Defined.

(** The claim fails on the code: the same call answers alice's id when it is
    addressed with the configured name, and a failure of its own, on account
    of the name, when it is addressed with another one. *)
Lemma table_name_counterexample :
  (call (P := Sample.platform) Sample.env
     (Authenticate "User Data Table" "a@x.com" "pw1") alice_world).1
  = Return (Id "id-1")
  ∧ (call (P := Sample.platform) Sample.env
       (Authenticate "Users" "a@x.com" "pw1") alice_world).1
    = Throw (ErrorWithStatus "Invalid Table Name" 400).
Proof. split; vm_compute; reflexivity. Qed.

(** ** SetProfile *)

Lemma check_fields_invalid (allowed fields : list string) (w : World) :
  (∃ field, field ∈ fields ∧ Js.includes allowed (Js.toLowerCase field) = false) →
  ∃ field, field ∈ fields
    ∧ Js.includes allowed (Js.toLowerCase field) = false
    ∧ check_fields allowed fields w
      = (Throw (ErrorWithStatus ("User field '" +:+ field +:+ "' is invalid") 400), w).
Proof.
  induction fields as [|f rest IH]; intros (field & Hin & Hbad).
  - inversion Hin.
  - simpl. destruct (Js.includes allowed (Js.toLowerCase f)) eqn:Hf; simpl.
    + apply elem_of_cons in Hin as [->|Hin]; [congruence|].
      destruct IH as (g & Hg & Hgbad & Heq); [eauto|].
      exists g. split; [now right|]. split; assumption.
    + exists f. split; [left|]. split; [assumption|reflexivity].
Qed.

(** C7. SetProfile validates the whole field map before it writes. When some
    key of the map is outside the mutable allow-list (compared in lower case),
    the call throws status 400 naming an offending field, and the world, so
    every item of the table, is left as it was. *)
Theorem setUserInfo_all_or_nothing (user_id : string)
    (info : list (string * string)) (w : World) :
  (∃ field, field ∈ map fst info ∧ mutable_field field = false) →
  ∃ field, field ∈ map fst info ∧ mutable_field field = false
    ∧ setUserInfo TABLE_NAME user_id info w
      = (Throw (ErrorWithStatus ("User field '" +:+ field +:+ "' is invalid") 400), w).
Proof.
  intros Hbad.
  destruct (check_fields_invalid ADDITIONAL_USER_FIELDS (map fst info) w Hbad)
    as (field & Hin & Hf & Heq).
  exists field. split; [assumption|]. split; [assumption|].
  unfold setUserInfo. rewrite validateTableName_ok.
  unfold bind, ret. simpl. rewrite Heq. reflexivity.
Qed.

Lemma setUserInfo_all_or_nothing_witness :
  ∃ field, field ∈ ["username"; "password_hash"]
    ∧ mutable_field field = false
    ∧ setUserInfo TABLE_NAME "id-1"
        [("username", "al"); ("password_hash", "$salt$mine")] alice_world
      = (Throw (ErrorWithStatus ("User field '" +:+ field +:+ "' is invalid") 400),
         alice_world).
Proof.
  apply (setUserInfo_all_or_nothing "id-1"
           [("username", "al"); ("password_hash", "$salt$mine")] alice_world).
  exists "password_hash". split; [simpl; in_table|reflexivity].
Defined.

(** ** Scans stop at the first item that holds the email *)

Lemma first_with_email_Some (email : string) (items : list Item) (item : Item) :
  first_with_email email items = Some item →
  item ∈ items ∧ has_email email item.
Proof.
  intros H. apply List.find_some in H as [Hin Heq].
  split; [now apply list_elem_of_In | now apply strict_eq_true].
Qed.

Lemma first_with_email_None (email : string) (items : list Item) :
  first_with_email email items = None ↔ unknown_email email items.
Proof.
  unfold first_with_email, unknown_email, has_email. split.
  - intros H item Hin Hmail.
    apply list_elem_of_In in Hin.
    pose proof (List.find_none _ _ H item Hin) as Hf.
    apply strict_eq_false in Hf. contradiction.
  - induction items as [|x tbl IH]; intros H; simpl; [reflexivity|].
    destruct (Js.strict_eq (attr "email" x) email) eqn:Hx.
    + apply strict_eq_true in Hx. exfalso. apply (H x); [left|assumption].
    + apply IH. intros item Hin. apply H. now right.
Qed.

Section Found.

Context {P : Platform}.

Lemma find_by_email_page (email : string) (tbl : list Item) (item : Item) :
  find_by_email email tbl = Some item →
  item ∈ Dynamo.page tbl ∧ has_email email item.
Proof. apply first_with_email_Some. Qed.

Lemma find_by_email_Some (email : string) (tbl : list Item) (item : Item) :
  find_by_email email tbl = Some item → item ∈ tbl ∧ has_email email item.
Proof.
  intros H. apply find_by_email_page in H as [Hin Hmail].
  split; [now apply page_elem|assumption].
Qed.

(** The scan finds no item for an email that no item of the table holds;
    it may find none for an email that an item beyond its page holds. *)
Lemma find_by_email_None (email : string) (tbl : list Item) :
  unknown_email email tbl → find_by_email email tbl = None.
Proof.
  intros H. apply first_with_email_None.
  intros item Hin. apply H. now apply page_elem.
Qed.

Lemma find_by_email_one_page (email : string) (tbl : list Item) :
  one_page tbl → find_by_email email tbl = first_with_email email tbl.
Proof. intros H. unfold find_by_email. now rewrite page_one_page. Qed.

Lemma find_by_email_None_one_page (email : string) (tbl : list Item) :
  one_page tbl → find_by_email email tbl = None → unknown_email email tbl.
Proof.
  intros H Hf. rewrite find_by_email_one_page in Hf by assumption.
  now apply first_with_email_None.
Qed.

(** With unique emails the scan finds the item that holds the email or
    none. *)
Lemma find_by_email_unique (email : string) (tbl : list Item)
    (item found : Item) :
  unique_emails tbl → item ∈ tbl → has_email email item →
  find_by_email email tbl = Some found → found = item.
Proof.
  intros Hu Hin Hmail Hf.
  apply find_by_email_Some in Hf as [Hin' Hmail'].
  eauto using unique_emails_same.
Qed.

Lemma find_by_email_in_page (email : string) (tbl : list Item) (item : Item) :
  unique_emails tbl → item ∈ Dynamo.page tbl → has_email email item →
  find_by_email email tbl = Some item.
Proof.
  intros Hu Hin Hmail.
  destruct (find_by_email email tbl) as [found|] eqn:Hf.
  - f_equal. eapply find_by_email_unique; eauto using page_elem.
  - apply first_with_email_None in Hf. exfalso. exact (Hf item Hin Hmail).
Qed.

End Found.

(** A scan that stops at the first item holding the email behaves on the
    items as on that item alone. *)
Lemma scan_first {A} (body : Item → M A → M A) (nothing : M A)
    (scan : list Item → M A) (email : string) :
  (∀ item rest, scan (item :: rest)
                = if Js.strict_eq (attr "email" item) email
                  then body item nothing else scan rest) →
  ∀ items item, first_with_email email items = Some item →
                scan items = body item nothing.
Proof.
  intros Hstep items. induction items as [|x rest IH]; intros item Hf.
  - discriminate.
  - rewrite Hstep. simpl in Hf.
    destruct (Js.strict_eq (attr "email" x) email).
    + now inversion Hf.
    + now apply IH.
Qed.

Lemma scan_none {A} (found : Item → M A) (nothing : M A)
    (scan : list Item → M A) (email : string) :
  scan [] = nothing →
  (∀ item rest, scan (item :: rest)
                = if Js.strict_eq (attr "email" item) email
                  then found item else scan rest) →
  ∀ items, first_with_email email items = None → scan items = nothing.
Proof.
  intros Hnil Hstep items. induction items as [|x rest IH]; intros Hf.
  - assumption.
  - rewrite Hstep. simpl in Hf.
    destruct (Js.strict_eq (attr "email" x) email); [discriminate|].
    now apply IH.
Qed.

(** ** Puts *)

Lemma put_item_elem (item : Item) (tbl : list Item) :
  item ∈ Dynamo.put_item item tbl.
Proof.
  induction tbl as [|x tbl IH]; simpl; [left|].
  destruct (Dynamo.has_key (user_id item) x); [left|now right].
Qed.

Lemma put_item_fresh (item : Item) (tbl : list Item) :
  user_id item ∉ keys tbl → Dynamo.put_item item tbl = (tbl ++ [item])%list.
Proof.
  induction tbl as [|x tbl IH]; intros Hfresh; simpl; [reflexivity|].
  simpl in Hfresh. apply not_elem_of_cons in Hfresh as [Hne Hrest].
  destruct (Dynamo.has_key (user_id item) x) eqn:Hk.
  - apply has_key_true in Hk. congruence.
  - f_equal. now apply IH.
Qed.

(** ** AuthenticateOrRegisterOAuth *)

Lemma authenticateOauthUser_found {P : Platform}
    (env : Env) (username provider email : string)
    (w : World) (item : Item) :
  find_by_email email (db w) = Some item →
  authenticateOauthUser env TABLE_NAME username provider email w
  = if Js.truthy (attr "password_hash" item) then (Throw wrong_method, w)
    else if Js.strict_eq (attr "provider" item) provider
         then (Return (user_id item), w)
         else (Throw (wrong_provider (attr "provider" item)), w).
Proof.
  intros Hf. unfold authenticateOauthUser. rewrite validateTableName_ok.
  unfold bind at 1 2 3. simpl.
  rewrite (scan_first
             (fun item _ =>
                authenticateOauthUser_scan provider email [item])
             (ret None) (authenticateOauthUser_scan provider email) email)
    with (item := item); [| |assumption].
  - simpl. apply find_by_email_Some in Hf as [_ Hmail].
    apply strict_eq_true in Hmail. rewrite Hmail.
    destruct (Js.truthy (attr "password_hash" item)); [reflexivity|].
    destruct (Js.strict_eq (attr "provider" item) provider); reflexivity.
  - intros x rest. simpl.
    destruct (Js.strict_eq (attr "email" x) email); reflexivity.
Qed.

Lemma authenticateOauthUser_new {P : Platform}
    (env : Env) (username provider email : string)
    (w : World) :
  find_by_email email (db w) = None →
  authenticateOauthUser env TABLE_NAME username provider email w
  = (Return (env_uuid env),
     added (oauth_item (env_uuid env) username provider email) w).
Proof.
  intros Hf. unfold authenticateOauthUser. rewrite validateTableName_ok.
  unfold bind at 1 2 3. simpl.
  rewrite (scan_none
             (fun item => authenticateOauthUser_scan provider email [item])
             (ret None) (authenticateOauthUser_scan provider email) email);
    [reflexivity|reflexivity| |assumption].
  intros x rest. simpl.
  destruct (Js.strict_eq (attr "email" x) email); reflexivity.
Qed.

(** X30. The cases of AuthenticateOrRegisterOAuth, on the item the scan
    finds for the email: the first item of the one page it reads that holds
    it. A password account: the call throws status 403,
    with the WrongMethod message whenever the account's digest is not the
    empty string. An OAuth account of another provider: the call throws
    status 403 with the WrongProvider message naming the first provider. An
    OAuth account of the same provider: the call answers its [user_id]. In
    these three cases the world is left as it was. The scan finds no item
    for the email: the call puts a new OAuth account under the fresh id and
    answers that id. The scan finds none when no item of the table holds the
    email; on a table that fits in the page it finds none in that case
    only. *)
Theorem authenticateOauthUser_cases {P : Platform} (env : Env)
    (username provider email : string) (w : World) :
  (∀ item, find_by_email email (db w) = Some item → password_account item →
     ∃ message,
       authenticateOauthUser env TABLE_NAME username provider email w
       = (Throw (ErrorWithStatus message 403), w)
       ∧ (attr "password_hash" item ≠ Some "" →
          ErrorWithStatus message 403 = wrong_method))
  ∧ (∀ item first, find_by_email email (db w) = Some item → oauth_account item →
       attr "provider" item = Some first → first ≠ provider →
       authenticateOauthUser env TABLE_NAME username provider email w
       = (Throw (ErrorWithStatus
                   ("You first signed up via " +:+ first
                      +:+ ". Please use that provider instead.") 403), w))
  ∧ (∀ item, find_by_email email (db w) = Some item → oauth_account item →
       attr "provider" item = Some provider →
       authenticateOauthUser env TABLE_NAME username provider email w
       = (Return (user_id item), w))
  ∧ (find_by_email email (db w) = None →
       let item := oauth_item (env_uuid env) username provider email in
       authenticateOauthUser env TABLE_NAME username provider email w
       = (Return (env_uuid env), added item w)
       ∧ oauth_account item ∧ has_email email item
       ∧ attr "provider" item = Some provider
       ∧ item ∈ db (added item w)
       ∧ (env_uuid env ∉ keys (db w) → db (added item w) = (db w ++ [item])%list))
  ∧ (unknown_email email (db w) → find_by_email email (db w) = None)
  ∧ (one_page (db w) → find_by_email email (db w) = None →
     unknown_email email (db w)).
Proof.
  split; [|split; [|split; [|split; [|split]]]].
  - intros item Hf [[h Hh] Hprov].
    rewrite (authenticateOauthUser_found _ _ _ _ _ _ Hf), Hh, Hprov.
    destruct (Js.truthy (Some h)) eqn:Ht.
    + eexists. split; [reflexivity|]. intros _. reflexivity.
    + eexists. split; [reflexivity|]. intros Hne.
      simpl in Ht. apply negb_false_iff, String.eqb_eq in Ht. congruence.
  - intros item first Hf [_ Hnone] Hprov Hne.
    rewrite (authenticateOauthUser_found _ _ _ _ _ _ Hf), Hnone, Hprov. simpl.
    apply String.eqb_neq in Hne. rewrite Hne. reflexivity.
  - intros item Hf [_ Hnone] Hprov.
    rewrite (authenticateOauthUser_found _ _ _ _ _ _ Hf), Hnone, Hprov. simpl.
    rewrite String.eqb_refl. reflexivity.
  - intros Hnone item.
    split; [now apply authenticateOauthUser_new|].
    split; [split; [eexists|]; reflexivity|].
    split; [reflexivity|]. split; [reflexivity|]. split.
    + apply put_item_elem.
    + intros Hfresh. now apply put_item_fresh.
  - apply find_by_email_None.
  - apply find_by_email_None_one_page.
Qed.

(** ** Attributes under an update *)

Lemma fold_insert_notin (name : string) (fields : list (string * string))
    (m : gmap string string) :
  name ∉ map fst fields →
  fold_left (fun m kv => <[kv.1 := kv.2]> m) fields m !! name = m !! name.
Proof.
  revert m. induction fields as [|[k v] fields IH]; intros m Hnot; simpl.
  - reflexivity.
  - simpl in Hnot. apply not_elem_of_cons in Hnot as [Hne Hnot].
    rewrite IH by assumption. simpl. now apply lookup_insert_ne.
Qed.

Lemma fold_insert_is_Some (name : string) (fields : list (string * string))
    (m : gmap string string) :
  is_Some (m !! name) ∨ name ∈ map fst fields →
  is_Some (fold_left (fun m kv => <[kv.1 := kv.2]> m) fields m !! name).
Proof.
  revert m. induction fields as [|[k v] fields IH]; intros m H; simpl.
  - destruct H as [H|H]; [assumption|inversion H].
  - apply IH. simpl in H.
    destruct (decide (k = name)) as [->|Hne].
    + left. simpl. rewrite lookup_insert_eq. eauto.
    + destruct H as [H|H].
      * left. simpl. now rewrite lookup_insert_ne.
      * apply elem_of_cons in H as [H|H]; [congruence|now right].
Qed.

Lemma attr_set_attrs_notin (name : string) (fields : list (string * string))
    (item : Item) :
  name ∉ map fst fields →
  attr name (Dynamo.set_attrs fields item) = attr name item.
Proof. intros H. unfold attr. simpl. now apply fold_insert_notin. Qed.

Lemma user_id_set_attrs (fields : list (string * string)) (item : Item) :
  user_id (Dynamo.set_attrs fields item) = user_id item.
Proof. reflexivity. Qed.

(** A field the engine may assign for a caller lower-cases into the mutable
    allow-list; it is none of the credentials. *)
Lemma mutable_field_not_credential (name : string) :
  mutable_field name = true →
  name ≠ "provider" ∧ name ≠ "email" ∧ name ≠ "password_hash".
Proof.
  intros H. repeat split; intros ->; vm_compute in H; discriminate.
Qed.

(** ** Modes *)

Lemma mode_one_mode (x y : Item) : mode x = mode y → one_mode x → one_mode y.
Proof.
  unfold mode, one_mode, password_account, oauth_account.
  intros Hm. inversion Hm as [[Hh Hp]]. clear Hm.
  assert (Hh' : is_Some (attr "password_hash" x) ↔ is_Some (attr "password_hash" y)).
  { rewrite <- (bool_decide_eq_true (is_Some (attr "password_hash" x))).
    rewrite <- (bool_decide_eq_true (is_Some (attr "password_hash" y))).
    now rewrite Hh. }
  assert (Hp' : is_Some (attr "provider" x) ↔ is_Some (attr "provider" y)).
  { rewrite <- (bool_decide_eq_true (is_Some (attr "provider" x))).
    rewrite <- (bool_decide_eq_true (is_Some (attr "provider" y))).
    now rewrite Hp. }
  rewrite !eq_None_not_Some. tauto.
Qed.

Lemma mode_set_attrs (tbl : list Item) (uid : string)
    (fields : list (string * string)) (item : Item) :
  keeps_credentials tbl uid fields → item ∈ tbl → user_id item = uid →
  mode (Dynamo.set_attrs fields item) = mode item.
Proof.
  intros Hk Hin Hid. unfold mode. f_equal.
  - destruct (decide ("password_hash" ∈ map fst fields)) as [Hm|Hm].
    + destruct (Hk _ Hm) as (_ & _ & Hhas).
      rewrite !bool_decide_eq_true_2; [reflexivity|now apply Hhas|].
      unfold attr. simpl. apply fold_insert_is_Some. now right.
    + now rewrite attr_set_attrs_notin.
  - rewrite attr_set_attrs_notin; [reflexivity|].
    intros Hm. destruct (Hk _ Hm) as (Hne & _). congruence.
Qed.


(** ** Keys *)

Lemma unique_keys_same (tbl : list Item) (x y : Item) :
  unique_keys tbl → x ∈ tbl → y ∈ tbl → user_id x = user_id y → x = y.
Proof.
  unfold unique_keys, keys.
  induction tbl as [|z tbl IH]; intros Hnd Hx Hy Hid.
  - inversion Hx.
  - simpl in Hnd. apply NoDup_cons in Hnd as [Hnotin Hnd].
    assert (Hk : ∀ u, u ∈ tbl → user_id u = user_id z → False).
    { intros u Hu Eu. apply Hnotin. rewrite <- Eu. now apply list_elem_of_fmap_2. }
    apply elem_of_cons in Hx, Hy.
    destruct Hx as [->|Hx], Hy as [->|Hy]; trivial.
    + exfalso; eauto.
    + exfalso; eauto.
    + eauto.
Qed.

Lemma keys_update_item (uid : string) (fields : list (string * string))
    (tbl : list Item) :
  keys (Dynamo.update_item uid fields tbl) = keys tbl.
Proof.
  unfold keys, Dynamo.update_item. rewrite <- list_fmap_compose.
  apply list_fmap_ext. intros i x _. simpl.
  destruct (Dynamo.has_key uid x); reflexivity.
Qed.

Lemma keys_put_item (item : Item) (tbl : list Item) :
  keys (Dynamo.put_item item tbl)
  = if bool_decide (user_id item ∈ keys tbl) then keys tbl
    else (keys tbl ++ [user_id item])%list.
Proof.
  induction tbl as [|x tbl IH]; simpl; [reflexivity|].
  destruct (Dynamo.has_key (user_id item) x) eqn:Hk.
  - apply has_key_true in Hk. simpl.
    rewrite bool_decide_eq_true_2; [now rewrite Hk|rewrite Hk; left].
  - apply has_key_false in Hk. simpl. rewrite IH.
    destruct (bool_decide (user_id item ∈ keys tbl)) eqn:Hb.
    + apply bool_decide_eq_true_1 in Hb.
      rewrite bool_decide_eq_true_2; [reflexivity|now right].
    + apply bool_decide_eq_false_1 in Hb.
      rewrite bool_decide_eq_false_2; [reflexivity|].
      intros Hin. apply elem_of_cons in Hin as [Heq|Hin]; congruence.
Qed.

Lemma unique_keys_put_item (item : Item) (tbl : list Item) :
  unique_keys tbl → unique_keys (Dynamo.put_item item tbl).
Proof.
  unfold unique_keys. intros Hnd. rewrite keys_put_item.
  destruct (bool_decide (user_id item ∈ keys tbl)) eqn:Hb; [assumption|].
  apply bool_decide_eq_false_1 in Hb.
  apply NoDup_app. split; [assumption|]. split.
  - intros k Hk Hk'. apply list_elem_of_singleton in Hk'. congruence.
  - apply NoDup_singleton.
Qed.

Lemma delete_item_sublist (uid : string) (tbl : list Item) :
  sublist (Dynamo.delete_item uid tbl) tbl.
Proof.
  induction tbl as [|x tbl IH]; simpl; [constructor|].
  destruct (negb (Dynamo.has_key uid x)); now constructor.
Qed.

Lemma unique_keys_delete_item (uid : string) (tbl : list Item) :
  unique_keys tbl → unique_keys (Dynamo.delete_item uid tbl).
Proof.
  unfold unique_keys, keys. intros Hnd.
  eapply sublist_NoDup; [exact Hnd|apply fmap_sublist, delete_item_sublist].
Qed.
(** ** Emails *)

Lemma emails_map (g : Item → Item) (tbl : list Item) :
  (∀ x, x ∈ tbl → attr "email" (g x) = attr "email" x) →
  emails (map g tbl) = emails tbl.
Proof.
  unfold emails. induction tbl as [|x rest IH]; intros Hg; [reflexivity|].
  cbn [map omap list_omap]. rewrite Hg by left.
  rewrite IH; [reflexivity|]. intros y Hy. apply Hg. now right.
Qed.





(** ** Every write preserves the invariants of the table *)

Lemma write_unique_keys {P : Platform} (uuid : string) (tbl tbl' : list Item) :
  write uuid tbl tbl' → unique_keys tbl → unique_keys tbl'.
Proof.
  intros Hw Hu. destruct Hw.
  - assumption.
  - now apply unique_keys_put_item.
  - unfold unique_keys. now rewrite keys_update_item.
  - now apply unique_keys_delete_item.
Qed.


Lemma put_item_length (item : Item) (tbl : list Item) :
  (length (Dynamo.put_item item tbl) <= S (length tbl))%nat.
Proof.
  induction tbl as [|x tbl IH]; simpl; [lia|].
  destruct (Dynamo.has_key (user_id item) x); simpl; lia.
Qed.



Lemma write_one_mode {P : Platform} (uuid : string) (tbl tbl' : list Item) :
  write uuid tbl tbl' → Forall one_mode tbl → Forall one_mode tbl'.
Proof.
  intros Hw Hall. destruct Hw as [|item email _ Hone _ _|uid fields Hk|uid].
  - assumption.
  - clear -Hall Hone. induction Hall as [|x tbl Hx Hall IH]; simpl.
    + now constructor.
    + destruct (Dynamo.has_key (user_id item) x); now constructor.
  - unfold Dynamo.update_item. apply Forall_fmap.
    apply Forall_forall. intros x Hin. simpl.
    rewrite Forall_forall in Hall.
    destruct (Dynamo.has_key uid x) eqn:Hkey; [|now apply Hall].
    apply has_key_true in Hkey.
    eapply mode_one_mode; [|apply (Hall x Hin)].
    symmetry. eapply mode_set_attrs; eassumption.
  - rewrite Forall_forall in *. intros x Hx. apply Hall.
    eapply elem_of_sublist; [exact Hx|apply delete_item_sublist].
Qed.

(** A write under a fresh id leaves the mode of every item it keeps. *)
Lemma write_mode_fixed {P : Platform} (uuid : string) (tbl tbl' : list Item) :
  write uuid tbl tbl' → unique_keys tbl → uuid ∉ keys tbl →
  ∀ item item', item ∈ tbl → item' ∈ tbl' → user_id item' = user_id item →
                mode item' = mode item.
Proof.
  intros Hw Hu Hfresh item item' Hin Hin' Hid.
  destruct Hw as [|new email Hnew _ _ _|uid fields Hk|uid].
  - f_equal. eauto using unique_keys_same.
  - rewrite put_item_fresh in Hin' by (now rewrite Hnew).
    apply elem_of_app in Hin' as [Hin'|Hin'].
    + f_equal. eauto using unique_keys_same.
    + apply list_elem_of_singleton in Hin'. subst item'.
      exfalso. apply Hfresh. rewrite <- Hnew, Hid.
      now apply list_elem_of_fmap_2.
  - apply list_elem_of_fmap in Hin' as (x & -> & Hx).
    destruct (Dynamo.has_key uid x) eqn:Hkey.
    + apply has_key_true in Hkey.
      rewrite user_id_set_attrs in Hid.
      assert (x = item) as -> by eauto using unique_keys_same.
      eapply mode_set_attrs; eassumption.
    + f_equal. eauto using unique_keys_same.
  - f_equal. apply (unique_keys_same tbl); try assumption.
    eapply elem_of_sublist; [exact Hin'|apply delete_item_sublist].
Qed.
(** ** What each helper does to the world *)

(** One step of the monad: binds of returns and throws, and [try]/[catch]. *)
Ltac mstep :=
  unfold bind, ret, throw, try_catch, bcrypt_compare; cbn [negb];
  cbv beta iota.

Lemma call_world {A B} (m : M A) (f : A → B) (w : World) :
  (bind m (fun a => ret (f a)) w).2 = (m w).2.
Proof. unfold bind, ret. destruct (m w) as [[a|e] w']; reflexivity. Qed.

Lemma databaseEditUser_effect (table uid : string)
    (fields : list (string * string)) (w : World) :
  (∃ e, databaseEditUser table uid fields w = (Throw e, w))
  ∨ databaseEditUser table uid fields w
    = (Return tt,
       mkWorld (Dynamo.update_item uid fields (db w))
               (log w ++ [EvUpdate uid fields])).
Proof.
  unfold databaseEditUser, try_catch, Dynamo.update, Dynamo.on_table,
    Dynamo.resource_not_found, throw.
  destruct (String.eqb table TABLE_NAME); [|left; eauto].
  destruct fields as [|f fields]; [left; eauto|].
  destruct (Dynamo.exists_key uid (db w)); [right; reflexivity|left; eauto].
Qed.

Lemma databaseEditUser_done (uid : string) (fields : list (string * string))
    (w : World) (item : Item) :
  item ∈ db w → user_id item = uid → fields ≠ [] →
  databaseEditUser TABLE_NAME uid fields w
  = (Return tt,
     mkWorld (Dynamo.update_item uid fields (db w))
             (log w ++ [EvUpdate uid fields])).
Proof.
  intros Hin Hid Hne.
  unfold databaseEditUser, try_catch, Dynamo.update. rewrite on_table_ok.
  destruct fields as [|f fields]; [congruence|].
  assert (Hex : Dynamo.exists_key uid (db w) = true).
  { unfold Dynamo.exists_key. apply List.existsb_exists. exists item.
    split; [now apply list_elem_of_In|now apply has_key_true]. }
  now rewrite Hex.
Qed.

Lemma registerUser_scan_effect (email : string) (items : list Item) (w : World) :
  (∃ e, registerUser_scan email items w = (Throw e, w))
  ∨ (registerUser_scan email items w = (Return tt, w) ∧ unknown_email email items).
Proof.
  induction items as [|item rest IH]; simpl.
  - right. split; [reflexivity|]. intros x Hx. inversion Hx.
  - destruct (Js.strict_eq (attr "email" item) email) eqn:Heq.
    + left. eauto.
    + destruct IH as [IH|[IH Hu]]; [now left|right].
      split; [assumption|]. intros x Hx.
      apply elem_of_cons in Hx as [->|Hx]; [|now apply Hu].
      now apply strict_eq_false in Heq.
Qed.

Lemma check_fields_effect (allowed fields : list string) (w : World) :
  (∃ e, check_fields allowed fields w = (Throw e, w))
  ∨ (check_fields allowed fields w = (Return tt, w)
     ∧ ∀ f, f ∈ fields → Js.includes allowed (Js.toLowerCase f) = true).
Proof.
  induction fields as [|f rest IH]; simpl.
  - right. split; [reflexivity|]. intros x Hx. inversion Hx.
  - destruct (Js.includes allowed (Js.toLowerCase f)) eqn:Hf; simpl.
    + destruct IH as [IH|[IH Hall]]; [now left|right].
      split; [assumption|]. intros x Hx.
      apply elem_of_cons in Hx as [->|Hx]; [assumption|now apply Hall].
    + left. eauto.
Qed.

Section Effects.

Context {P : Platform}.

(** A [GetCommand] answers or is rejected; it writes nothing. *)
Lemma get_answer (table userID expression : string) (w : World) :
  ∃ r, Dynamo.get table userID expression w = (r, w).
Proof.
  unfold Dynamo.get, Dynamo.on_table, Dynamo.resource_not_found, throw.
  destruct (String.eqb table TABLE_NAME); [|eauto].
  destruct (projection_accepted expression); cbn [negb]; [|eauto].
  destruct (Dynamo.get_item userID (db w)); [eauto|].
  destruct (String.eqb userID ""); eauto.
Qed.

Lemma authenticateUser_scan_effect (email password : string)
    (items : list Item) (w : World) :
  (∃ e, authenticateUser_scan email password items w = (Throw e, w))
  ∨ (∃ item, item ∈ items ∧ has_email email item
             ∧ is_Some (attr "password_hash" item)
             ∧ Js.truthy (attr "provider" item) = false
             ∧ authenticateUser_scan email password items w
               = (Return (user_id item), w)).
Proof.
  induction items as [|item rest IH]; simpl; [left; eauto|].
  assert (Hrest :
    (∃ e, authenticateUser_scan email password rest w = (Throw e, w))
    ∨ (∃ item0, item0 ∈ item :: rest ∧ has_email email item0
                ∧ is_Some (attr "password_hash" item0)
                ∧ Js.truthy (attr "provider" item0) = false
                ∧ authenticateUser_scan email password rest w
                  = (Return (user_id item0), w))).
  { destruct IH as [IH|(x & Hx & IH)]; [now left|right].
    exists x. split; [now right|assumption]. }
  destruct (Js.strict_eq (attr "email" item) email) eqn:Heq; [|assumption].
  destruct (Js.truthy (attr "provider" item)) eqn:Hprov; [left; eauto|].
  destruct (attr "password_hash" item) as [h|] eqn:Hh; simpl; [|left; eauto].
  unfold bind, ret. simpl.
  destruct (bcrypt_verify password h); [|assumption].
  right. exists item. apply strict_eq_true in Heq.
  split; [left|]. split; [assumption|]. split; [rewrite Hh; eauto|].
  split; [assumption|reflexivity].
Qed.

Lemma authenticateUser_effect (table email password : string) (w : World) :
  (∃ e, authenticateUser table email password w = (Throw e, w))
  ∨ (∃ item, item ∈ db w ∧ has_email email item
             ∧ is_Some (attr "password_hash" item)
             ∧ Js.truthy (attr "provider" item) = false
             ∧ table = TABLE_NAME
             ∧ authenticateUser table email password w
               = (Return (user_id item), w)).
Proof.
  unfold authenticateUser, validateTableName.
  destruct (String.eqb_spec table TABLE_NAME) as [->|Hne]; simpl;
    [|left; eauto].
  unfold bind, ret. simpl.
  destruct (authenticateUser_scan_effect email password
              (Dynamo.page (db w)) w)
    as [H|(item & H1 & H2 & H3 & H4 & H5)]; [now left|right].
  exists item. repeat split; try assumption. now apply page_elem.
Qed.

Lemma sendPasswordResetToken_scan_effect (email : string) (items : list Item)
    (w : World) :
  ∃ r, sendPasswordResetToken_scan email items w = (r, w).
Proof.
  induction items as [|item rest IH]; simpl; [eexists; reflexivity|].
  destruct (Js.strict_eq (attr "email" item) email); [|assumption].
  destruct (Js.truthy (attr "provider" item)); eexists; reflexivity.
Qed.

Lemma sendMail_db (env : Env) (mail : Mail) (w : World) :
  db (sendMail env mail w).2 = db w.
Proof. unfold sendMail. destruct (env_smtp env); reflexivity. Qed.

Lemma sendTokenEmail_db (env : Env) (email token : string) (w : World) :
  db (sendTokenEmail env email token w).2 = db w.
Proof.
  unfold sendTokenEmail, try_catch, sendMail.
  destruct (env_smtp env); reflexivity.
Qed.

Lemma sendPasswordResetEmail_db (env : Env) (email : string) (w : World) :
  db (sendPasswordResetEmail env email w).2 = db w.
Proof.
  unfold sendPasswordResetEmail, try_catch, sendMail.
  destruct (env_smtp env); reflexivity.
Qed.

(** The scan of [resetPassword] leaves the world as it was, or clears the
    reset fields of an item and throws, or answers the key of an item that
    holds a digest. *)
Lemma resetPassword_scan_effect (env : Env)
    (table email token newPassword : string) (items : list Item) (w : World) :
  (∃ e, resetPassword_scan env table email token newPassword items w
        = (Throw e, w))
  ∨ (∃ e uid,
       resetPassword_scan env table email token newPassword items w
       = (Throw e,
          mkWorld (Dynamo.update_item uid
                     [("resetToken", ""); ("tokenExpiry", "")] (db w))
                  (log w ++ [EvUpdate uid
                               [("resetToken", ""); ("tokenExpiry", "")]])))
  ∨ resetPassword_scan env table email token newPassword items w
    = (Return "", w)
  ∨ (∃ item, item ∈ items ∧ is_Some (attr "password_hash" item)
             ∧ resetPassword_scan env table email token newPassword items w
               = (Return (user_id item), w)).
Proof.
  induction items as [|item rest IH]; [right; right; left; reflexivity|].
  cbn [resetPassword_scan].
  destruct (Js.strict_eq (attr "email" item) email) eqn:Heq.
  - mstep.
    destruct (Js.truthy (attr "provider" item)); mstep; [left; eauto|].
    destruct (attr "password_hash" item) as [h|] eqn:Hh; mstep; [|left; eauto].
    destruct (bcrypt_verify newPassword h); mstep; [left; eauto|].
    destruct (undefined_or_empty (attr "resetToken" item)
              || undefined_or_empty (attr "tokenExpiry" item));
      mstep; [left; eauto|].
    destruct (date_ge (env_now env)
                (parse_date (Js.show (attr "tokenExpiry" item)))); mstep.
    + destruct (databaseEditUser_effect table (user_id item)
                  [("resetToken", ""); ("tokenExpiry", "")] w) as [[e He]|He];
        rewrite He; mstep.
      * left. eauto.
      * right. left. eauto.
    + destruct (attr "resetToken" item) as [t|]; mstep; [|left; eauto].
      destruct (bcrypt_verify token t); mstep; [|left; eauto].
      right. right. right. exists item.
      split; [left|]. split; [rewrite Hh; eauto|reflexivity].
  - destruct IH as [IH|[IH|[IH|(x & Hx & Hh & IH)]]]; eauto.
    right. right. right. exists x. split; [now right|]. split; assumption.
Qed.

End Effects.
(** ** Every call writes as [write] allows *)

Lemma databaseAddUser_password (env : Env) (username email hash : string)
    (w : World) :
  databaseAddUser env TABLE_NAME username email (Some hash) None w
  = (Return (env_uuid env),
     added (password_item (env_uuid env) username hash email) w).
Proof. reflexivity. Qed.

Lemma databaseAddUser_oauth (env : Env) (username email provider : string)
    (w : World) :
  databaseAddUser env TABLE_NAME username email None (Some provider) w
  = (Return (env_uuid env),
     added (oauth_item (env_uuid env) username provider email) w).
Proof. reflexivity. Qed.

Lemma password_item_account (id username hash email : string) :
  password_account (password_item id username hash email)
  ∧ has_email email (password_item id username hash email)
  ∧ attr "password_hash" (password_item id username hash email) = Some hash.
Proof.
  unfold password_account, has_email, attr, password_item. simpl.
  split; [split; [exists hash|]|split]; by simplify_map_eq.
Qed.

Lemma oauth_item_account (id username provider email : string) :
  oauth_account (oauth_item id username provider email)
  ∧ has_email email (oauth_item id username provider email)
  ∧ attr "provider" (oauth_item id username provider email) = Some provider.
Proof.
  unfold oauth_account, has_email, attr, oauth_item. simpl.
  split; [split; [exists provider|]|split]; by simplify_map_eq.
Qed.

Lemma keeps_credentials_reset (tbl : list Item) (uid : string) (a b : string) :
  keeps_credentials tbl uid [("resetToken", a); ("tokenExpiry", b)].
Proof.
  intros name Hn. simpl in Hn.
  repeat (apply elem_of_cons in Hn as [->|Hn]);
    [| |inversion Hn]; repeat split; discriminate.
Qed.

Lemma keeps_credentials_password (tbl : list Item) (item : Item)
    (fields : list (string * string)) :
  unique_keys tbl → item ∈ tbl → is_Some (attr "password_hash" item) →
  (∀ name, name ∈ map fst fields → name ≠ "provider" ∧ name ≠ "email") →
  keeps_credentials tbl (user_id item) fields.
Proof.
  intros Hu Hin Hh Hnames name Hn.
  destruct (Hnames name Hn) as [H1 H2]. repeat split; try assumption.
  intros _ x Hx Hid.
  assert (x = item) as -> by eauto using unique_keys_same.
  assumption.
Qed.

Lemma keeps_credentials_mutable (tbl : list Item) (uid : string)
    (info : list (string * string)) :
  (∀ f, f ∈ map fst info → mutable_field f = true) →
  keeps_credentials tbl uid info.
Proof.
  intros Hall name Hn.
  destruct (mutable_field_not_credential name (Hall name Hn)) as (H1 & H2 & H3).
  repeat split; try assumption. intros ->. congruence.
Qed.

Section Writes.

Context {P : Platform}.

Lemma registerUser_write (env : Env) (table username password email : string)
    (w : World) :
  write (env_uuid env) (db w)
    (db (registerUser env table username password email w).2).
Proof.
  unfold registerUser, validateTableName.
  destruct (String.eqb_spec table TABLE_NAME) as [->|Hne]; mstep;
    [|apply write_nothing].
  destruct (email_validate email); mstep; [|apply write_nothing].
  unfold Dynamo.scan. rewrite on_table_ok.
  destruct (registerUser_scan_effect email (Dynamo.page (db w)) w)
    as [[e He]|[He Hu]]; rewrite He; [apply write_nothing|].
  rewrite databaseAddUser_password. simpl.
  destruct (password_item_account (env_uuid env) username
              (bcrypt_hash password (env_salt env)) email) as (Hacc & Hmail & _).
  eapply write_put; [reflexivity|now left|exact Hmail|].
  now apply first_with_email_None.
Qed.

Lemma authenticateOauthUser_write (env : Env)
    (table username provider email : string) (w : World) :
  write (env_uuid env) (db w)
    (db (authenticateOauthUser env table username provider email w).2).
Proof.
  destruct (String.eqb_spec table TABLE_NAME) as [->|Hne].
  - destruct (find_by_email email (db w)) as [item|] eqn:Hf.
    + rewrite (authenticateOauthUser_found env username provider email w item Hf).
      destruct (Js.truthy (attr "password_hash" item)); [apply write_nothing|].
      destruct (Js.strict_eq (attr "provider" item) provider);
        apply write_nothing.
    + rewrite (authenticateOauthUser_new env username provider email w Hf).
      simpl.
      destruct (oauth_item_account (env_uuid env) username provider email)
        as (Hacc & Hmail & _).
      eapply write_put; [reflexivity|now right|exact Hmail|exact Hf].
  - unfold authenticateOauthUser. mstep.
    rewrite (validateTableName_wrong table w Hne). apply write_nothing.
Qed.

Lemma setUserInfo_write (uuid table user_id : string)
    (info : list (string * string)) (w : World) :
  write uuid (db w) (db (setUserInfo table user_id info w).2).
Proof.
  unfold setUserInfo, validateTableName.
  destruct (String.eqb_spec table TABLE_NAME) as [->|Hne]; mstep;
    [|apply write_nothing].
  destruct (check_fields_effect ADDITIONAL_USER_FIELDS (map fst info) w)
    as [[e He]|[He Hall]]; rewrite He; [apply write_nothing|].
  destruct (databaseEditUser_effect TABLE_NAME user_id info w) as [[e He']|He'];
    rewrite He'; [apply write_nothing|].
  simpl. apply write_update. now apply keeps_credentials_mutable.
Qed.

Lemma getUserInfo_write (uuid table user_id fields : string) (w : World) :
  write uuid (db w) (db (getUserInfo table user_id fields w).2).
Proof.
  unfold getUserInfo, validateTableName.
  destruct (String.eqb_spec table TABLE_NAME) as [->|Hne]; mstep;
    [|apply write_nothing].
  destruct (check_fields_effect RETRIEVABLE_USER_FIELDS
              (map Js.trim (Js.split_comma fields)) w)
    as [[e He]|[He Hall]]; rewrite He; [apply write_nothing|].
  destruct (get_answer TABLE_NAME user_id fields w) as [r Hr]. rewrite Hr.
  destruct r as [[item|]|e]; try apply write_nothing.
  destruct (bool_decide (item = ∅)); apply write_nothing.
Qed.

Lemma changePassword_write (env : Env)
    (table email oldPassword newPassword : string) (w : World) :
  unique_keys (db w) →
  write (env_uuid env) (db w)
    (db (changePassword env table email oldPassword newPassword w).2).
Proof.
  intros Hu. unfold changePassword, validateTableName.
  destruct (String.eqb_spec table TABLE_NAME) as [->|Hne]; mstep;
    [|apply write_nothing].
  destruct (String.eqb oldPassword newPassword); mstep; [apply write_nothing|].
  destruct (authenticateUser_effect TABLE_NAME email oldPassword w)
    as [[e He]|(item & Hin & Hmail & Hh & Hprov & _ & He)]; rewrite He.
  - destruct (bool_decide (statusCode_of e = Some 403)); apply write_nothing.
  - destruct (databaseEditUser_effect TABLE_NAME (user_id item)
                [("password_hash", bcrypt_hash newPassword (env_salt env))] w)
      as [[e He']|He']; rewrite He'; [apply write_nothing|].
    simpl. apply write_update.
    apply keeps_credentials_password; try assumption.
    intros name Hn. simpl in Hn. apply list_elem_of_singleton in Hn as ->.
    split; discriminate.
Qed.

Lemma deleteUser_write (uuid table userId : string) (w : World) :
  write uuid (db w) (db (deleteUser table userId w).2).
Proof.
  unfold deleteUser, validateTableName.
  destruct (String.eqb_spec table TABLE_NAME) as [->|Hne]; mstep;
    [|apply write_nothing].
  unfold Dynamo.delete. rewrite on_table_ok.
  destruct (Dynamo.exists_key userId (db w)); [apply write_delete|apply write_nothing].
Qed.

Lemma sendPasswordResetToken_write (env : Env) (table email : string)
    (w : World) :
  write (env_uuid env) (db w)
    (db (sendPasswordResetToken env table email w).2).
Proof.
  unfold sendPasswordResetToken, validateTableName.
  destruct (String.eqb_spec table TABLE_NAME) as [->|Hne]; mstep;
    [|apply write_nothing].
  destruct (email_validate email); mstep; [|apply write_nothing].
  unfold Dynamo.scan. rewrite on_table_ok.
  destruct (sendPasswordResetToken_scan_effect email (Dynamo.page (db w)) w)
    as [r Hr].
  rewrite Hr. destruct r as [userId|e]; [|apply write_nothing].
  destruct (String.eqb userId ""); [apply write_nothing|].
  match goal with
  | |- context [databaseEditUser ?t ?u ?f ?w] =>
      destruct (databaseEditUser_effect t u f w) as [[e He]|He]; rewrite He
  end; [apply write_nothing|].
  match goal with
  | |- context [sendTokenEmail ?e ?m ?t ?w'] =>
      pose proof (sendTokenEmail_db e m t w') as Hdb;
      destruct (sendTokenEmail e m t w') as [[[]|e'] w'']
  end; simpl in Hdb |- *; rewrite Hdb;
    apply write_update, keeps_credentials_reset.
Qed.

Lemma resetPassword_write (env : Env)
    (table email token newPassword : string) (w : World) :
  unique_keys (db w) →
  write (env_uuid env) (db w)
    (db (resetPassword env table email token newPassword w).2).
Proof.
  intros Hu. unfold resetPassword, validateTableName.
  destruct (String.eqb_spec table TABLE_NAME) as [->|Hne]; mstep;
    [|apply write_nothing].
  destruct (email_validate email); mstep; [|apply write_nothing].
  unfold Dynamo.scan. rewrite on_table_ok.
  destruct (resetPassword_scan_effect env TABLE_NAME email token newPassword
              (Dynamo.page (db w)) w)
    as [[e He]|[(e & uid & He)|[He|(item & Hin & Hh & He)]]]; rewrite He.
  - apply write_nothing.
  - simpl. apply write_update, keeps_credentials_reset.
  - simpl. apply write_nothing.
  - apply page_elem in Hin.
    destruct (String.eqb (user_id item) ""); [apply write_nothing|].
    match goal with
    | |- context [databaseEditUser ?t ?u ?f ?w] =>
        destruct (databaseEditUser_effect t u f w) as [[e He']|He']; rewrite He'
    end; [apply write_nothing|].
    match goal with
    | |- context [sendPasswordResetEmail ?e ?m ?w'] =>
        pose proof (sendPasswordResetEmail_db e m w') as Hdb;
        destruct (sendPasswordResetEmail e m w') as [[[]|e'] w'']
    end; simpl in Hdb |- *; rewrite Hdb; apply write_update;
      (apply keeps_credentials_password; try assumption;
       intros name Hn; simpl in Hn;
       repeat (apply elem_of_cons in Hn as [->|Hn]);
       [| | |inversion Hn]; split; discriminate).
Qed.

(** Whatever the call, the table it leaves is a [write] away. *)
Lemma call_write (env : Env) (c : Call) (w : World) :
  unique_keys (db w) →
  write (env_uuid env) (db w) (db (call env c w).2).
Proof.
  intros Hu. destruct c; unfold call; rewrite call_world.
  - apply registerUser_write.
  - destruct (authenticateUser_effect table email password w)
      as [[e He]|(item & _ & _ & _ & _ & _ & He)]; rewrite He;
      apply write_nothing.
  - apply authenticateOauthUser_write.
  - apply setUserInfo_write.
  - apply getUserInfo_write.
  - now apply changePassword_write.
  - apply deleteUser_write.
  - apply sendPasswordResetToken_write.
  - now apply resetPassword_write.
Qed.

End Writes.

(** ** Sessions *)

Section Sessions.

Context {P : Platform}.

Lemma session_invariant (I : list Item → Prop) :
  (∀ uuid tbl tbl', write uuid tbl tbl' → I tbl → I tbl') →
  ∀ calls w, unique_keys (db w) → I (db w) →
             unique_keys (db (session calls w)) ∧ I (db (session calls w)).
Proof.
  intros Hstep calls. induction calls as [|[env c] calls IH]; intros w Hu HI.
  - split; assumption.
  - simpl. pose proof (call_write env c w Hu) as Hw.
    apply IH; [eapply write_unique_keys|eapply Hstep]; eassumption.
Qed.

(** C1. Exactly one authentication mode. From a table (with its primary key
    unique) whose items each have exactly one mode, whatever the session of
    engine calls, every item of the table has exactly one mode afterwards:
    a [password_hash] and no [provider], or a [provider] and no
    [password_hash]. And the next call, whatever it is, drawn a fresh id,
    leaves every item it keeps in the mode it had: no call gives an existing
    item the other credential. *)
Theorem one_mode_invariant (calls : list (Env * Call)) (w : World) :
  unique_keys (db w) → Forall one_mode (db w) →
  Forall one_mode (db (session calls w))
  ∧ ∀ env c item item',
      env_uuid env ∉ keys (db (session calls w)) →
      item ∈ db (session calls w) →
      item' ∈ db (call env c (session calls w)).2 →
      user_id item' = user_id item →
      mode item' = mode item ∧ one_mode item'.
Proof.
  intros Hu Hall.
  destruct (session_invariant (Forall one_mode) write_one_mode calls w Hu Hall)
    as [Hu' Hall'].
  split; [assumption|].
  intros env c item item' Hfresh Hin Hin' Hid.
  pose proof (call_write env c _ Hu') as Hw.
  assert (Hm : mode item' = mode item)
    by (eapply write_mode_fixed; eassumption).
  split; [assumption|].
  eapply mode_one_mode; [symmetry; exact Hm|].
  rewrite Forall_forall in Hall'. now apply Hall'.
Qed.

(** ** Register *)

Lemma registerUser_taken (env : Env) (username password email : string)
    (w : World) (existing : Item) :
  email_validate email = true →
  find_by_email email (db w) = Some existing →
  registerUser env TABLE_NAME username password email w
  = (Throw (email_taken existing), w).
Proof.
  intros Hvalid Hf. unfold registerUser. rewrite validateTableName_ok, Hvalid.
  mstep. unfold Dynamo.scan. rewrite on_table_ok.
  rewrite (scan_first (fun item _ => registerUser_scan email [item])
             (ret tt) (registerUser_scan email) email) with (item := existing);
    [| |assumption].
  - simpl. apply find_by_email_Some in Hf as [_ Hmail].
    apply strict_eq_true in Hmail. rewrite Hmail. reflexivity.
  - intros x rest. simpl.
    destruct (Js.strict_eq (attr "email" x) email); reflexivity.
Qed.





End Sessions.
(** ** The properties on the sample worlds *)

Lemma bob_world_keys : unique_keys (db bob_world).
Proof.
  vm_compute. apply NoDup_cons. split; [|apply NoDup_singleton].
  intros H. apply list_elem_of_singleton in H. discriminate.
Defined.

Lemma bob_world_emails : unique_emails (db bob_world).
Proof.
  vm_compute. apply NoDup_cons. split; [|apply NoDup_singleton].
  intros H. apply list_elem_of_singleton in H. discriminate.
Defined.

Lemma bob_world_modes : Forall one_mode (db bob_world).
Proof.
  vm_compute.
  constructor; [left; split; [eexists|]; reflexivity|].
  constructor; [right; split; [eexists|]; reflexivity|].
  constructor.
Defined.

Lemma one_mode_invariant_witness :
  Forall one_mode (db (session (P := Sample.platform) sample_session bob_world))
  ∧ ∀ env c item item',
      env_uuid env ∉ keys (db (session (P := Sample.platform) sample_session bob_world)) →
      item ∈ db (session (P := Sample.platform) sample_session bob_world) →
      item' ∈ db (call (P := Sample.platform) env c
                    (session (P := Sample.platform) sample_session bob_world)).2 →
      user_id item' = user_id item →
      mode item' = mode item ∧ one_mode item'.
Proof.
  apply (one_mode_invariant (P := Sample.platform) sample_session bob_world).
  - exact bob_world_keys.
  - exact bob_world_modes.
Defined.



Lemma authenticateOauthUser_cases_witness :
  (∃ message,
     authenticateOauthUser (P := Sample.platform) Sample.env TABLE_NAME
       "al" "google" "a@x.com" bob_world
     = (Throw (ErrorWithStatus message 403), bob_world)
     ∧ ErrorWithStatus message 403 = wrong_method)
  ∧ authenticateOauthUser (P := Sample.platform) Sample.env TABLE_NAME
      "bob" "github" "b@x.com" bob_world
    = (Throw (ErrorWithStatus
                "You first signed up via google. Please use that provider instead."
                403), bob_world)
  ∧ authenticateOauthUser (P := Sample.platform) Sample.env TABLE_NAME
      "bob" "google" "b@x.com" bob_world
    = (Return "id-2", bob_world)
  ∧ authenticateOauthUser (P := Sample.platform) mallory_env TABLE_NAME
      "carol" "github" "c@x.com" bob_world
    = (Return "id-3",
       added (oauth_item "id-3" "carol" "github" "c@x.com") bob_world).
Proof.
  split; [|split; [|split]].
  - destruct (authenticateOauthUser_cases (P := Sample.platform) Sample.env
                "al" "google" "a@x.com" bob_world) as (Hpassword & _).
    destruct (Hpassword (password_item "id-1" "alice" "$salt$pw1" "a@x.com"))
      as (message & Hcall & Hmessage).
    + vm_compute. reflexivity.
    + split; [eexists|]; reflexivity.
    + exists message. split; [exact Hcall|]. apply Hmessage. discriminate.
  - destruct (authenticateOauthUser_cases (P := Sample.platform) Sample.env
                "bob" "github" "b@x.com" bob_world) as (_ & Hother & _).
    apply (Hother (oauth_item "id-2" "bob" "google" "b@x.com") "google").
    + vm_compute. reflexivity.
    + split; [eexists|]; reflexivity.
    + reflexivity.
    + discriminate.
  - destruct (authenticateOauthUser_cases (P := Sample.platform) Sample.env
                "bob" "google" "b@x.com" bob_world) as (_ & _ & Hsame & _).
    apply (Hsame (oauth_item "id-2" "bob" "google" "b@x.com")).
    + vm_compute. reflexivity.
    + split; [eexists|]; reflexivity.
    + reflexivity.
  - destruct (authenticateOauthUser_cases (P := Sample.platform) mallory_env
                "carol" "github" "c@x.com" bob_world)
      as (_ & _ & _ & Hnew & _).
    apply Hnew. vm_compute. reflexivity.
Defined.

(** C6, at the input where the code fails it. The scan reads one page and
    the password account that holds the email lies beyond it: with a page of
    one item, carol's password account, put by [registerUser], comes second.
    AuthenticateOrRegisterOAuth with her email does not see the account: it
    throws no status 403 but answers a fresh id and puts an OAuth account
    with her email, which two items then hold. *)
Theorem authenticateOauthUser_beyond_the_page :
  password_item "id-3" "carol" "$brine$pw3" "c@x.com" ∈ db carol_world
  ∧ has_email "c@x.com" (password_item "id-3" "carol" "$brine$pw3" "c@x.com")
  ∧ password_account (password_item "id-3" "carol" "$brine$pw3" "c@x.com")
  ∧ authenticateOauthUser (P := Sample.cramped) soon_env TABLE_NAME
      "carol" "google" "c@x.com" carol_world
    = (Return "id-8",
       added (oauth_item "id-8" "carol" "google" "c@x.com") carol_world)
  ∧ (∀ message w',
       authenticateOauthUser (P := Sample.cramped) soon_env TABLE_NAME
         "carol" "google" "c@x.com" carol_world
       ≠ (Throw (ErrorWithStatus message 403), w'))
  ∧ emails (db (added (oauth_item "id-8" "carol" "google" "c@x.com")
                  carol_world))
    = ["a@x.com"; "c@x.com"; "c@x.com"].
Proof.
  assert (Hcall : authenticateOauthUser (P := Sample.cramped) soon_env
                    TABLE_NAME "carol" "google" "c@x.com" carol_world
                  = (Return "id-8",
                     added (oauth_item "id-8" "carol" "google" "c@x.com")
                       carol_world))
    by (vm_compute; reflexivity).
  split; [vm_compute; apply list_elem_of_further, list_elem_of_here|].
  split; [reflexivity|]. split; [split; [eexists|]; reflexivity|].
  split; [exact Hcall|]. split.
  - intros message w' H. rewrite Hcall in H. discriminate.
  - vm_compute. reflexivity.
Qed.

(** ** Field names *)

Lemma plain_lower_ascii (c : ascii) :
  negb (Js.is_space (Js.lower_ascii c)) && negb (Ascii.eqb (Js.lower_ascii c) ",")
  = true →
  negb (Js.is_space c) && negb (Ascii.eqb c ",") = true.
Proof.
  destruct c as [[] [] [] [] [] [] [] []]; vm_compute; intros H; exact H.
Qed.

Lemma plain_toLowerCase (s : string) :
  plain (Js.toLowerCase s) = true → plain s = true.
Proof.
  induction s as [|c r IH]; simpl; [reflexivity|].
  rewrite !andb_true_iff. intros [[H1 H2] H3].
  assert (Hc : negb (Js.is_space c) && negb (Ascii.eqb c ",") = true).
  { apply plain_lower_ascii. now rewrite H1, H2. }
  apply andb_true_iff in Hc as [Hc1 Hc2]. auto.
Qed.

Lemma split_comma_plain (s : string) : plain s = true → Js.split_comma s = [s].
Proof.
  induction s as [|c r IH]; simpl; [reflexivity|].
  rewrite !andb_true_iff. intros [[_ H2] H3].
  apply negb_true_iff in H2. rewrite H2, (IH H3). reflexivity.
Qed.

Lemma trimEnd_plain (s : string) : plain s = true → Js.trimEnd s = s.
Proof.
  induction s as [|c r IH]; simpl; [reflexivity|].
  rewrite !andb_true_iff. intros [[H1 _] H3].
  apply negb_true_iff in H1. rewrite (IH H3), H1.
  destruct r; reflexivity.
Qed.

Lemma trim_plain (s : string) : plain s = true → Js.trim s = s.
Proof.
  intros H. unfold Js.trim.
  assert (Hs : Js.trimStart s = s).
  { destruct s as [|c r]; [reflexivity|]. simpl in *.
    rewrite !andb_true_iff in H. destruct H as [[H1 _] _].
    apply negb_true_iff in H1. now rewrite H1. }
  rewrite Hs. now apply trimEnd_plain.
Qed.

Lemma includes_elem (l : list string) (x : string) :
  Js.includes l x = true → x ∈ l.
Proof.
  unfold Js.includes. intros H.
  apply List.existsb_exists in H as (y & Hin & Heq).
  apply String.eqb_eq in Heq. subst. now apply list_elem_of_In.
Qed.

Lemma retrievable_plain (field : string) :
  retrievable_field field = true → plain field = true.
Proof.
  intros H. apply plain_toLowerCase. apply includes_elem in H.
  unfold RETRIEVABLE_USER_FIELDS, ADDITIONAL_USER_FIELDS in H. simpl in H.
  repeat (apply elem_of_cons in H as [->|H]); try reflexivity.
  inversion H.
Qed.

(** A name that lower-cases into the retrievable allow-list is one whole
    projection expression, and not the key. *)
Lemma retrievable_field_plain (field : string) :
  retrievable_field field = true →
  map Js.trim (Js.split_comma field) = [field] ∧ field ≠ "user_id".
Proof.
  intros H. split.
  - pose proof (retrievable_plain field H) as Hp.
    rewrite (split_comma_plain _ Hp). simpl. now rewrite (trim_plain _ Hp).
  - intros ->. vm_compute in H. discriminate.
Qed.

Lemma letters_lower_ascii (c : ascii) :
  is_letter (Js.lower_ascii c) || Ascii.eqb (Js.lower_ascii c) " " = true →
  is_letter c || Ascii.eqb c " " = true.
Proof.
  destruct c as [[] [] [] [] [] [] [] []]; vm_compute; intros H; exact H.
Qed.

Lemma letters_toLowerCase (s : string) :
  letters_and_spaces (Js.toLowerCase s) = true → letters_and_spaces s = true.
Proof.
  induction s as [|c r IH]; simpl; [reflexivity|].
  rewrite !andb_true_iff. intros [H1 H2].
  split; [now apply letters_lower_ascii|now apply IH].
Qed.

Lemma retrievable_letters (field : string) :
  retrievable_field field = true → letters_and_spaces field = true.
Proof.
  intros H. apply letters_toLowerCase. apply includes_elem in H.
  unfold RETRIEVABLE_USER_FIELDS, ADDITIONAL_USER_FIELDS in H. simpl in H.
  repeat (apply elem_of_cons in H as [->|H]); try reflexivity.
  inversion H.
Qed.

(** A name that lower-cases into the retrievable allow-list is a plain
    projection: DynamoDB accepts it. *)
Lemma retrievable_plain_projection (field : string) :
  retrievable_field field = true → plain_projection field = true.
Proof.
  intros H. pose proof (retrievable_plain field H) as Hp.
  unfold plain_projection. rewrite (split_comma_plain _ Hp).
  cbn [forallb map]. unfold plain_part.
  rewrite (trim_plain _ Hp), (retrievable_letters _ H).
  fold (retrievable_field field). rewrite H. cbn [andb].
  apply bool_decide_eq_true_2, NoDup_singleton.
Qed.

Section Gets.

Context {P : Platform}.

Lemma retrievable_field_accepted (field : string) :
  retrievable_field field = true → projection_accepted field = true.
Proof. intros H. now apply projection_plain, retrievable_plain_projection. Qed.

Lemma get_found (userID expression : string) (w : World) (item : Item) :
  projection_accepted expression = true →
  Dynamo.get_item userID (db w) = Some item →
  Dynamo.get TABLE_NAME userID expression w
  = (Return (Some (Dynamo.project expression item)), w).
Proof.
  intros Ha Hget. unfold Dynamo.get. now rewrite on_table_ok, Ha, Hget.
Qed.

Lemma get_missing (userID expression : string) (w : World) :
  projection_accepted expression = true →
  Dynamo.get_item userID (db w) = None →
  Dynamo.get TABLE_NAME userID expression w
  = if String.eqb userID ""
    then (Throw (JsError "ValidationException"), w)
    else (Return None, w).
Proof.
  intros Ha Hget. unfold Dynamo.get. now rewrite on_table_ok, Ha, Hget.
Qed.

Lemma get_rejected (userID expression : string) (w : World) :
  projection_accepted expression = false →
  Dynamo.get TABLE_NAME userID expression w
  = (Throw (JsError "ValidationException"), w).
Proof.
  intros Ha. unfold Dynamo.get. now rewrite on_table_ok, Ha.
Qed.

End Gets.

Lemma mutable_field_retrievable (field : string) :
  mutable_field field = true → retrievable_field field = true.
Proof.
  unfold mutable_field, retrievable_field, RETRIEVABLE_USER_FIELDS,
    ADDITIONAL_USER_FIELDS, Js.includes. simpl.
  intros H. rewrite orb_false_r in H. now rewrite H.
Qed.

(** ** Reads and updates by key *)

Lemma get_item_Some (uid : string) (tbl : list Item) (item : Item) :
  Dynamo.get_item uid tbl = Some item → item ∈ tbl ∧ user_id item = uid.
Proof.
  intros H. apply List.find_some in H as [Hin Hk].
  split; [now apply list_elem_of_In|now apply has_key_true].
Qed.

Lemma get_item_update_item (uid : string) (fields : list (string * string))
    (tbl : list Item) :
  Dynamo.get_item uid (Dynamo.update_item uid fields tbl)
  = Dynamo.set_attrs fields <$> Dynamo.get_item uid tbl.
Proof.
  unfold Dynamo.get_item, Dynamo.update_item.
  induction tbl as [|x tbl IH]; simpl; [reflexivity|].
  destruct (Dynamo.has_key uid x) eqn:Hk.
  - unfold Dynamo.has_key in *. simpl. now rewrite Hk.
  - rewrite Hk. exact IH.
Qed.

Lemma attr_set_attrs_single (name value : string) (item : Item) :
  attr name (Dynamo.set_attrs [(name, value)] item) = Some value.
Proof. unfold attr. simpl. apply lookup_insert_eq. Qed.

(** ** Field names are checked in lower case and used as given *)

(** C10. A field name whose lower-case form is allowed but which is not in
    lower case itself passes validation and is then used as the caller wrote
    it. SetProfile succeeds and assigns the attribute of that very name,
    leaving the attribute of the lower-case name as it was. GetProfile
    projects the attribute of that very name: on an item that does not hold
    it the call throws status 400, "Uninitialised value/s", whatever the
    item holds under the lower-case name; on an item that holds it the call
    answers that attribute. *)
Theorem field_case_checked_not_used {P : Platform}
    (field value user_id : string) (w : World) (item : Item) :
  Js.toLowerCase field ≠ field →
  Dynamo.get_item user_id (db w) = Some item →
  (mutable_field field = true →
   setUserInfo TABLE_NAME user_id [(field, value)] w
   = (Return tt,
      mkWorld (Dynamo.update_item user_id [(field, value)] (db w))
              (log w ++ [EvUpdate user_id [(field, value)]]))
   ∧ Dynamo.get_item user_id (Dynamo.update_item user_id [(field, value)] (db w))
     = Some (Dynamo.set_attrs [(field, value)] item)
   ∧ attr field (Dynamo.set_attrs [(field, value)] item) = Some value
   ∧ attr (Js.toLowerCase field) (Dynamo.set_attrs [(field, value)] item)
     = attr (Js.toLowerCase field) item)
  ∧ (retrievable_field field = true →
     (attr field item = None →
      getUserInfo TABLE_NAME user_id field w
      = (Throw (ErrorWithStatus
                  ("Uninitialised value/s: '" +:+ field +:+ "'") 400), w))
     ∧ (∀ v, attr field item = Some v →
             getUserInfo TABLE_NAME user_id field w
             = (Return {[field := v]}, w))).
Proof.
  intros Hcase Hget.
  destruct (get_item_Some _ _ _ Hget) as [Hin Hid].
  split.
  - intros Hallowed. repeat split.
    + unfold setUserInfo. rewrite validateTableName_ok. mstep.
      cbn [map fst check_fields]. fold (mutable_field field).
      rewrite Hallowed. mstep.
      rewrite (databaseEditUser_done user_id [(field, value)] w item Hin Hid)
        by discriminate.
      reflexivity.
    + now rewrite get_item_update_item, Hget.
    + apply attr_set_attrs_single.
    + apply attr_set_attrs_notin. simpl. intros H.
      apply list_elem_of_singleton in H. congruence.
  - intros Hallowed.
    destruct (retrievable_field_plain field Hallowed) as [Hfields Hkey].
    assert (Hcall : getUserInfo TABLE_NAME user_id field w
                    = match attr field item with
                      | Some v => (Return {[field := v]}, w)
                      | None =>
                          (Throw (ErrorWithStatus
                                    ("Uninitialised value/s: '" +:+ field +:+ "'")
                                    400), w)
                      end).
    { unfold getUserInfo. rewrite validateTableName_ok, Hfields. mstep.
      cbn [check_fields]. fold (retrievable_field field).
      rewrite Hallowed. mstep.
      rewrite (get_found user_id field w item)
        by (assumption || now apply retrievable_field_accepted).
      unfold Dynamo.project. rewrite Hfields. cbn [fold_right].
      apply String.eqb_neq in Hkey. rewrite Hkey.
      unfold attr. destruct (attrs item !! field) as [v|].
      - rewrite bool_decide_eq_false_2; [reflexivity|].
        intros Hempty. apply (f_equal (lookup field)) in Hempty.
        rewrite lookup_insert_eq, lookup_empty in Hempty. discriminate.
      - rewrite bool_decide_eq_true_2; reflexivity. }
    split.
    + intros Hnone. now rewrite Hcall, Hnone.
    + intros v Hv. now rewrite Hcall, Hv.
Qed.

Lemma field_case_checked_not_used_witness :
  attr "username" (password_item "id-1" "alice" "$salt$pw1" "a@x.com")
  = Some "alice"
  ∧ (setUserInfo TABLE_NAME "id-1" [("Username", "al")] alice_world
     = (Return tt,
        mkWorld (Dynamo.update_item "id-1" [("Username", "al")] (db alice_world))
                (log alice_world ++ [EvUpdate "id-1" [("Username", "al")]]))
     ∧ Dynamo.get_item "id-1"
         (Dynamo.update_item "id-1" [("Username", "al")] (db alice_world))
       = Some (Dynamo.set_attrs [("Username", "al")]
                 (password_item "id-1" "alice" "$salt$pw1" "a@x.com"))
     ∧ attr "Username"
         (Dynamo.set_attrs [("Username", "al")]
            (password_item "id-1" "alice" "$salt$pw1" "a@x.com"))
       = Some "al"
     ∧ attr "username"
         (Dynamo.set_attrs [("Username", "al")]
            (password_item "id-1" "alice" "$salt$pw1" "a@x.com"))
       = attr "username" (password_item "id-1" "alice" "$salt$pw1" "a@x.com"))
  ∧ getUserInfo (P := Sample.platform) TABLE_NAME "id-1" "Username" alice_world
    = (Throw (ErrorWithStatus "Uninitialised value/s: 'Username'" 400),
       alice_world).
Proof.
  destruct (field_case_checked_not_used (P := Sample.platform)
              "Username" "al" "id-1" alice_world
              (password_item "id-1" "alice" "$salt$pw1" "a@x.com"))
    as [Hset Hget].
  - discriminate.
  - vm_compute. reflexivity.
  - split; [reflexivity|]. split.
    + apply Hset. reflexivity.
    + apply Hget; reflexivity.
Defined.

(** ** ResetPassword *)

Lemma update_item_elem (uid : string) (fields : list (string * string))
    (tbl : list Item) (item' : Item) :
  item' ∈ Dynamo.update_item uid fields tbl → user_id item' = uid →
  ∃ x, x ∈ tbl ∧ user_id x = uid ∧ item' = Dynamo.set_attrs fields x.
Proof.
  intros Hin Hid. apply list_elem_of_fmap in Hin as (x & -> & Hx).
  destruct (Dynamo.has_key uid x) eqn:Hk.
  - apply has_key_true in Hk. eauto.
  - apply has_key_false in Hk. contradiction.
Qed.

Lemma attrs_reset_cleared (x : Item) :
  attr "resetToken" (Dynamo.set_attrs reset_cleared x) = Some ""
  ∧ attr "tokenExpiry" (Dynamo.set_attrs reset_cleared x) = Some "".
Proof. unfold attr. simpl. split; by simplify_map_eq. Qed.

Lemma attrs_password_reset (hash : string) (x : Item) :
  attr "password_hash" (Dynamo.set_attrs (password_reset hash) x) = Some hash
  ∧ attr "resetToken" (Dynamo.set_attrs (password_reset hash) x) = Some ""
  ∧ attr "tokenExpiry" (Dynamo.set_attrs (password_reset hash) x) = Some "".
Proof. unfold attr. simpl. repeat split; by simplify_map_eq. Qed.

Lemma attrs_reset_issued (tokenHash expiry : string) (x : Item) :
  attr "resetToken" (Dynamo.set_attrs (reset_issued tokenHash expiry) x)
  = Some tokenHash
  ∧ attr "tokenExpiry" (Dynamo.set_attrs (reset_issued tokenHash expiry) x)
    = Some expiry.
Proof. unfold attr. simpl. split; by simplify_map_eq. Qed.

Lemma undefined_or_empty_Some (s : string) :
  s ≠ "" → undefined_or_empty (Some s) = false.
Proof. intros H. simpl. now apply String.eqb_neq. Qed.

Section ResetFlow.

Context {P : Platform}.

(** [resetPassword] on the item its scan finds, once the checks that come
    before the token have passed. *)
Lemma resetPassword_found (env : Env) (email token newPassword : string)
    (w : World) (item : Item) (h t x : string) :
  email_validate email = true →
  find_by_email email (db w) = Some item →
  Js.truthy (attr "provider" item) = false →
  attr "password_hash" item = Some h →
  bcrypt_verify newPassword h = false →
  pending_reset item t x →
  resetPassword env TABLE_NAME email token newPassword w
  = if date_ge (env_now env) (parse_date x)
    then (Throw invalid_token, updated (user_id item) reset_cleared w)
    else if bcrypt_verify token t
         then if String.eqb (user_id item) ""
              then (Throw (ErrorWithStatus "Email does not exist" 400), w)
              else (if env_smtp env then Return tt else Throw email_failed,
                    mailed (ResetConfirmation email) (env_smtp env)
                      (updated (user_id item)
                         (password_reset
                            (bcrypt_hash newPassword (env_salt env))) w))
         else (Throw invalid_token, w).
Proof.
  intros Hvalid Hf Hprov Hh Hnew (Ht & Htne & Hx & Hxne).
  destruct (find_by_email_Some _ _ _ Hf) as [Hin Hmail].
  unfold resetPassword. rewrite validateTableName_ok, Hvalid.
  mstep. unfold Dynamo.scan. rewrite on_table_ok.
  rewrite (scan_first
             (fun item _ =>
                resetPassword_scan env TABLE_NAME email token newPassword [item])
             (ret "")
             (resetPassword_scan env TABLE_NAME email token newPassword) email)
    with (item := item); [| |assumption].
  - cbn [resetPassword_scan].
    apply strict_eq_true in Hmail. rewrite Hmail, Hprov, Hh, Ht, Hx.
    mstep. rewrite Hnew.
    rewrite (undefined_or_empty_Some t Htne), (undefined_or_empty_Some x Hxne).
    cbn [orb Js.show].
    destruct (date_ge (env_now env) (parse_date x)); mstep.
    + rewrite (databaseEditUser_done (user_id item) _ w item Hin eq_refl)
        by discriminate.
      reflexivity.
    + destruct (bcrypt_verify token t); mstep; [|reflexivity].
      destruct (String.eqb (user_id item) ""); mstep; [reflexivity|].
      rewrite (databaseEditUser_done (user_id item) _ w item Hin eq_refl)
        by discriminate.
      unfold sendPasswordResetEmail, sendMail, mailed, updated.
      destruct (env_smtp env); reflexivity.
  - intros y rest. cbn [resetPassword_scan].
    destruct (Js.strict_eq (attr "email" y) email); reflexivity.
Qed.

(** C4, as the code has it. Let the scan find, for an email that passes the
    syntax check, a password account with a reset pending, and let the new
    password not verify against the account's digest. If the expiry has been
    reached, ResetPassword clears both reset fields (one update assigns them
    the empty string) and throws status 400, "Invalid Token". If the expiry
    has not been reached and the token does not verify against the stored
    token digest, ResetPassword throws status 400, "Invalid Token", and
    leaves the world as it was: the pending-reset fields are not cleared. *)
Theorem resetPassword_token_checks (env : Env)
    (email token newPassword : string) (w : World) (item : Item)
    (h t x : string) :
  email_validate email = true →
  find_by_email email (db w) = Some item →
  password_account item →
  attr "password_hash" item = Some h →
  bcrypt_verify newPassword h = false →
  pending_reset item t x →
  (∀ expiry, parse_date x = Some expiry → expiry <= env_now env →
     resetPassword env TABLE_NAME email token newPassword w
     = (Throw (ErrorWithStatus "Invalid Token" 400),
        updated (user_id item) reset_cleared w)
     ∧ ∀ item', item' ∈ db (updated (user_id item) reset_cleared w) →
                user_id item' = user_id item →
                attr "resetToken" item' = Some ""
                ∧ attr "tokenExpiry" item' = Some "")
  ∧ ((∀ expiry, parse_date x = Some expiry → env_now env < expiry) →
     bcrypt_verify token t = false →
     resetPassword env TABLE_NAME email token newPassword w
     = (Throw (ErrorWithStatus "Invalid Token" 400), w)).
Proof.
  intros Hvalid Hf [_ Hprov] Hh Hnew Hpending.
  assert (Hfalsy : Js.truthy (attr "provider" item) = false)
    by now rewrite Hprov.
  rewrite (resetPassword_found env email token newPassword w item h t x)
    by assumption.
  split.
  - intros expiry Hparse Hle. rewrite Hparse. simpl date_ge.
    apply Z.leb_le in Hle. rewrite Hle. split; [reflexivity|].
    intros item' Hin' Hid. simpl in Hin'.
    apply update_item_elem in Hin' as (y & _ & _ & ->); [|assumption].
    apply attrs_reset_cleared.
  - intros Hfresh Hmismatch.
    assert (Hnot : date_ge (env_now env) (parse_date x) = false).
    { destruct (parse_date x) as [expiry|]; [|reflexivity]. simpl.
      apply Z.leb_gt. now apply Hfresh. }
    now rewrite Hnot, Hmismatch.
Qed.

(** C8. When every check of ResetPassword passes, the engine writes the new
    digest and clears both reset fields in one update and then hands the
    "password changed" mail to the transport. If the transport fails, the
    call throws status 500, "Email failed to send", and the update stays:
    the item holds the new digest and empty reset fields. *)
Theorem resetPassword_notification_coupling (env : Env)
    (email token newPassword : string) (w : World) (item : Item)
    (h t x : string) :
  email_validate email = true →
  find_by_email email (db w) = Some item →
  password_account item →
  attr "password_hash" item = Some h →
  bcrypt_verify newPassword h = false →
  pending_reset item t x →
  (∀ expiry, parse_date x = Some expiry → env_now env < expiry) →
  bcrypt_verify token t = true →
  user_id item ≠ "" →
  let fields := password_reset (bcrypt_hash newPassword (env_salt env)) in
  let w' := mailed (ResetConfirmation email) (env_smtp env)
              (updated (user_id item) fields w) in
  resetPassword env TABLE_NAME email token newPassword w
  = (if env_smtp env then Return tt
     else Throw (ErrorWithStatus "Email failed to send" 500), w')
  ∧ log w'
    = ((log w ++ [EvUpdate (user_id item) fields])
         ++ [EvMail (ResetConfirmation email) (env_smtp env)])%list
  ∧ (∀ item', item' ∈ db w' → user_id item' = user_id item →
       attr "password_hash" item'
       = Some (bcrypt_hash newPassword (env_salt env))
       ∧ attr "resetToken" item' = Some ""
       ∧ attr "tokenExpiry" item' = Some "")
  ∧ (env_smtp env = false →
     ∃ e, (resetPassword env TABLE_NAME email token newPassword w).1 = Throw e
          ∧ http_status e = 500
          ∧ (resetPassword env TABLE_NAME email token newPassword w).2 = w').
Proof.
  intros Hvalid Hf [_ Hprov] Hh Hnew Hpending Hfresh Hmatch Hid fields w'.
  assert (Hfalsy : Js.truthy (attr "provider" item) = false)
    by now rewrite Hprov.
  assert (Hnot : date_ge (env_now env) (parse_date x) = false).
  { destruct (parse_date x) as [expiry|]; [|reflexivity]. simpl.
    apply Z.leb_gt. now apply Hfresh. }
  apply String.eqb_neq in Hid.
  assert (Hcall : resetPassword env TABLE_NAME email token newPassword w
                  = (if env_smtp env then Return tt else Throw email_failed, w')).
  { rewrite (resetPassword_found env email token newPassword w item h t x)
      by assumption.
    now rewrite Hnot, Hmatch, Hid. }
  split; [exact Hcall|]. split; [reflexivity|]. split.
  - intros item' Hin' Hid'. simpl in Hin'.
    apply update_item_elem in Hin' as (y & _ & _ & ->); [|assumption].
    apply attrs_password_reset.
  - intros Hdown. rewrite Hcall, Hdown. exists email_failed.
    repeat split.
Qed.

End ResetFlow.
(** ** The reset round trip *)

Lemma find_by_email_update_item {P : Platform} (email uid : string)
    (fields : list (string * string)) (tbl : list Item) :
  "email" ∉ map fst fields →
  find_by_email email (Dynamo.update_item uid fields tbl)
  = (fun x => if Dynamo.has_key uid x then Dynamo.set_attrs fields x else x)
      <$> find_by_email email tbl.
Proof.
  intros Hnot. unfold find_by_email. rewrite page_update_item.
  unfold Dynamo.update_item.
  induction (Dynamo.page tbl) as [|x items IH]; simpl; [reflexivity|].
  assert (Hx : attr "email" (if Dynamo.has_key uid x
                            then Dynamo.set_attrs fields x else x)
               = attr "email" x).
  { destruct (Dynamo.has_key uid x); [|reflexivity].
    now apply attr_set_attrs_notin. }
  rewrite Hx.
  destruct (Js.strict_eq (attr "email" x) email); [reflexivity|exact IH].
Qed.

Lemma find_by_email_updated {P : Platform}
    (email : string) (fields : list (string * string))
    (tbl : list Item) (item : Item) :
  "email" ∉ map fst fields →
  find_by_email email tbl = Some item →
  find_by_email email (Dynamo.update_item (user_id item) fields tbl)
  = Some (Dynamo.set_attrs fields item).
Proof.
  intros Hnot Hf. rewrite find_by_email_update_item, Hf by assumption.
  simpl. unfold Dynamo.has_key. now rewrite String.eqb_refl.
Qed.

Lemma not_email_reset_issued (a b : string) :
  "email" ∉ map fst (reset_issued a b).
Proof.
  simpl. intros H. repeat (apply elem_of_cons in H as [H|H]; [discriminate|]).
  inversion H.
Qed.

Lemma not_email_password_reset (a : string) :
  "email" ∉ map fst (password_reset a).
Proof.
  simpl. intros H. repeat (apply elem_of_cons in H as [H|H]; [discriminate|]).
  inversion H.
Qed.

Lemma not_provider_reset_issued (a b : string) :
  "provider" ∉ map fst (reset_issued a b).
Proof.
  simpl. intros H. repeat (apply elem_of_cons in H as [H|H]; [discriminate|]).
  inversion H.
Qed.

Lemma not_provider_password_reset (a : string) :
  "provider" ∉ map fst (password_reset a).
Proof.
  simpl. intros H. repeat (apply elem_of_cons in H as [H|H]; [discriminate|]).
  inversion H.
Qed.

Lemma not_hash_reset_issued (a b : string) :
  "password_hash" ∉ map fst (reset_issued a b).
Proof.
  simpl. intros H. repeat (apply elem_of_cons in H as [H|H]; [discriminate|]).
  inversion H.
Qed.

Section RoundTrip.

Context {P : Platform}.

Lemma authenticateUser_hit (email password : string) (w : World) (item : Item)
    (h : string) :
  find_by_email email (db w) = Some item →
  Js.truthy (attr "provider" item) = false →
  attr "password_hash" item = Some h →
  bcrypt_verify password h = true →
  authenticateUser TABLE_NAME email password w = (Return (user_id item), w).
Proof.
  intros Hf Hprov Hh Hv. unfold authenticateUser.
  rewrite validateTableName_ok. mstep. unfold Dynamo.scan. rewrite on_table_ok.
  unfold find_by_email in Hf.
  induction (Dynamo.page (db w)) as [|x tbl IH]; [discriminate|].
  simpl in Hf. cbn [authenticateUser_scan].
  destruct (Js.strict_eq (attr "email" x) email).
  - inversion Hf; subst x. rewrite Hprov, Hh. mstep. now rewrite Hv.
  - now apply IH.
Qed.

Lemma sendPasswordResetToken_found (env : Env) (email : string) (w : World)
    (item : Item) :
  email_validate email = true →
  find_by_email email (db w) = Some item →
  Js.truthy (attr "provider" item) = false →
  user_id item ≠ "" →
  sendPasswordResetToken env TABLE_NAME email w
  = (if env_smtp env then Return (env_token env) else Throw email_failed,
     mailed (TokenMail email (env_token env)) (env_smtp env)
       (updated (user_id item)
          (reset_issued (bcrypt_hash (env_token env) (env_salt env))
             (toISOString (env_now env + one_hour))) w)).
Proof.
  intros Hvalid Hf Hprov Hid.
  destruct (find_by_email_Some _ _ _ Hf) as [Hin Hmail].
  unfold sendPasswordResetToken. rewrite validateTableName_ok, Hvalid.
  mstep. unfold Dynamo.scan. rewrite on_table_ok.
  rewrite (scan_first
             (fun item _ => sendPasswordResetToken_scan email [item])
             (ret "") (sendPasswordResetToken_scan email) email)
    with (item := item); [| |assumption].
  - cbn [sendPasswordResetToken_scan].
    apply strict_eq_true in Hmail. rewrite Hmail, Hprov. mstep.
    apply String.eqb_neq in Hid. rewrite Hid.
    rewrite (databaseEditUser_done (user_id item) _ w item Hin eq_refl)
      by discriminate.
    unfold sendTokenEmail, sendMail, mailed, updated. mstep.
    destruct (env_smtp env); reflexivity.
  - intros y rest. cbn [sendPasswordResetToken_scan].
    destruct (Js.strict_eq (attr "email" y) email); reflexivity.
Qed.

(** With no reset pending on the account, [resetPassword] throws status 400
    and writes nothing. *)
Lemma resetPassword_no_pending (env : Env) (email token newPassword : string)
    (w : World) (item : Item) (h : string) :
  email_validate email = true →
  find_by_email email (db w) = Some item →
  Js.truthy (attr "provider" item) = false →
  attr "password_hash" item = Some h →
  attr "resetToken" item = Some "" →
  ∃ message,
    resetPassword env TABLE_NAME email token newPassword w
    = (Throw (ErrorWithStatus message 400), w).
Proof.
  intros Hvalid Hf Hprov Hh Ht.
  destruct (find_by_email_Some _ _ _ Hf) as [Hin Hmail].
  unfold resetPassword. rewrite validateTableName_ok, Hvalid.
  mstep. unfold Dynamo.scan. rewrite on_table_ok.
  rewrite (scan_first
             (fun item _ =>
                resetPassword_scan env TABLE_NAME email token newPassword [item])
             (ret "")
             (resetPassword_scan env TABLE_NAME email token newPassword) email)
    with (item := item); [| |assumption].
  - cbn [resetPassword_scan].
    apply strict_eq_true in Hmail. rewrite Hmail, Hprov, Hh, Ht. mstep.
    destruct (bcrypt_verify newPassword h); mstep; eexists; reflexivity.
  - intros y rest. cbn [resetPassword_scan].
    destruct (Js.strict_eq (attr "email" y) email); reflexivity.
Qed.

(** X29. The reset round trip, for the account the scan finds. In a table
    with unique emails, take the password account the scan finds for the
    email (the first item of the one page it reads that holds it), the token
    IssueResetToken answers for it, and a new password that does not verify
    against the account's digest. With the transport up, the token
    verifying against its own digest, the expiry read back as it was printed,
    and the reset made before that expiry: IssueResetToken answers
    the token; ResetPassword with that token and the new password succeeds,
    clears both reset fields and replaces the digest by the digest of the new
    password; the old password, which authenticated before, then fails
    Authenticate with status 401 as long as it does not verify against the
    new digest; and every later ResetPassword with the same token throws
    status 400 and writes nothing. *)
Theorem reset_round_trip (issue reset : Env)
    (email oldPassword newPassword : string) (w : World) (item : Item)
    (h : string) :
  unique_emails (db w) →
  find_by_email email (db w) = Some item → password_account item →
  attr "password_hash" item = Some h →
  user_id item ≠ "" → email_validate email = true →
  bcrypt_verify oldPassword h = true →
  bcrypt_verify newPassword h = false →
  bcrypt_verify oldPassword (bcrypt_hash newPassword (env_salt reset)) = false →
  let token := env_token issue in
  let tokenHash := bcrypt_hash token (env_salt issue) in
  let expiry := toISOString (env_now issue + one_hour) in
  let newHash := bcrypt_hash newPassword (env_salt reset) in
  bcrypt_verify token tokenHash = true →
  tokenHash ≠ "" → expiry ≠ "" →
  parse_date expiry = Some (env_now issue + one_hour) →
  env_now reset < env_now issue + one_hour →
  env_smtp issue = true → env_smtp reset = true →
  let w1 := mailed (TokenMail email token) true
              (updated (user_id item) (reset_issued tokenHash expiry) w) in
  let w2 := mailed (ResetConfirmation email) true
              (updated (user_id item) (password_reset newHash) w1) in
  sendPasswordResetToken issue TABLE_NAME email w = (Return token, w1)
  ∧ resetPassword reset TABLE_NAME email token newPassword w1 = (Return tt, w2)
  ∧ (∀ item', item' ∈ db w2 → user_id item' = user_id item →
       attr "password_hash" item' = Some newHash
       ∧ attr "resetToken" item' = Some ""
       ∧ attr "tokenExpiry" item' = Some "")
  ∧ authenticateUser TABLE_NAME email oldPassword w = (Return (user_id item), w)
  ∧ authenticateUser TABLE_NAME email oldPassword w2
    = (Throw (ErrorWithStatus
                "Authentication Error (Incorrect email or password)" 401), w2)
  ∧ ∀ env password,
      ∃ message,
        resetPassword env TABLE_NAME email token password w2
        = (Throw (ErrorWithStatus message 400), w2).
Proof.
  intros Hu Hf [_ Hprov] Hh Hid Hvalid Hold Hnew Hold'
    token tokenHash expiry newHash Htoken Hthne Hexne Hparse Hsoon
    Hup1 Hup2 w1 w2.
  destruct (find_by_email_Some _ _ _ Hf) as [Hin Hmail].
  assert (Hfalsy : Js.truthy (attr "provider" item) = false)
    by now rewrite Hprov.
  set (item1 := Dynamo.set_attrs (reset_issued tokenHash expiry) item).
  set (item2 := Dynamo.set_attrs (password_reset newHash) item1).
  assert (Hf1 : find_by_email email (db w1) = Some item1).
  { apply find_by_email_updated; [apply not_email_reset_issued|assumption]. }
  assert (Hf2 : find_by_email email (db w2) = Some item2).
  { apply (find_by_email_updated email (password_reset newHash) (db w1) item1);
      [apply not_email_password_reset|assumption]. }
  assert (Hprov1 : attr "provider" item1 = None).
  { unfold item1. rewrite attr_set_attrs_notin; [assumption|].
    apply not_provider_reset_issued. }
  assert (Hprov2 : attr "provider" item2 = None).
  { unfold item2. rewrite attr_set_attrs_notin; [assumption|].
    apply not_provider_password_reset. }
  assert (Hh1 : attr "password_hash" item1 = Some h).
  { unfold item1. rewrite attr_set_attrs_notin; [assumption|].
    apply not_hash_reset_issued. }
  destruct (attrs_reset_issued tokenHash expiry item) as [Ht1 Hx1].
  destruct (attrs_password_reset newHash item1) as (Hh2 & Ht2 & Hx2).
  split; [|split; [|split; [|split; [|split]]]].
  - rewrite (sendPasswordResetToken_found issue email w item) by assumption.
    now rewrite Hup1.
  - rewrite (resetPassword_found reset email token newPassword w1 item1
               h tokenHash expiry);
      [|assumption|assumption|now rewrite Hprov1|assumption|assumption
       |repeat split; assumption].
    rewrite Hparse. simpl date_ge.
    apply Z.leb_gt in Hsoon. rewrite Hsoon, Htoken.
    change (user_id item1) with (user_id item).
    apply String.eqb_neq in Hid. now rewrite Hid, Hup2.
  - intros item' Hin' Hid'. simpl in Hin'.
    apply update_item_elem in Hin' as (y & _ & _ & ->); [|assumption].
    apply attrs_password_reset.
  - now apply (authenticateUser_hit email oldPassword w item h).
  - apply authenticateUser_miss. intros x Hx Hxmail.
    assert (x = item2) as ->.
    { apply (unique_emails_same (db w2) x item2 email); try assumption.
      - unfold unique_emails.
        change (db w2)
          with (Dynamo.update_item (user_id item) (password_reset newHash)
                  (Dynamo.update_item (user_id item)
                     (reset_issued tokenHash expiry) (db w))).
        unfold Dynamo.update_item.
        rewrite !emails_map; [exact Hu| |].
        + intros y _. destruct (Dynamo.has_key (user_id item) y); [|reflexivity].
          apply attr_set_attrs_notin, not_email_reset_issued.
        + intros y _. destruct (Dynamo.has_key (user_id item) y); [|reflexivity].
          apply attr_set_attrs_notin, not_email_password_reset.
      - now apply find_by_email_Some in Hf2 as [? _].
      - now apply find_by_email_Some in Hf2 as [_ ?]. }
    split; [assumption|]. exists newHash. split; assumption.
  - intros env password.
    apply (resetPassword_no_pending env email token password w2 item2 newHash);
      try assumption.
    now rewrite Hprov2.
Qed.

End RoundTrip.
(** ** The reset flow on the sample worlds *)

Ltac sample_fact :=
  first [ reflexivity
        | discriminate
        | (vm_compute; reflexivity)
        | (intros ?; vm_compute; intros ?; discriminate)
        | (split; [eexists|]; reflexivity) ].

Lemma pending_world_found :
  find_by_email (P := Sample.platform) "a@x.com" (db pending_world) = Some alice_pending.
Proof. vm_compute. reflexivity. Defined.

Lemma alice_pending_reset :
  pending_reset alice_pending "$salt$c0ffee" "3601000".
Proof. repeat split; sample_fact. Defined.

Lemma resetPassword_token_checks_witness :
  (resetPassword (P := Sample.platform) late_env TABLE_NAME
     "a@x.com" "c0ffee" "pw9" pending_world
   = (Throw (ErrorWithStatus "Invalid Token" 400),
      updated "id-1" reset_cleared pending_world)
   ∧ ∀ item', item' ∈ db (updated "id-1" reset_cleared pending_world) →
              user_id item' = "id-1" →
              attr "resetToken" item' = Some ""
              ∧ attr "tokenExpiry" item' = Some "")
  ∧ resetPassword (P := Sample.platform) soon_env TABLE_NAME
      "a@x.com" "wrong" "pw9" pending_world
    = (Throw (ErrorWithStatus "Invalid Token" 400), pending_world).
Proof.
  split.
  - destruct (resetPassword_token_checks (P := Sample.platform) late_env
                "a@x.com" "c0ffee" "pw9" pending_world alice_pending
                "$salt$pw1" "$salt$c0ffee" "3601000") as [Hexpired _];
      [sample_fact|exact pending_world_found|sample_fact|sample_fact
      |sample_fact|exact alice_pending_reset|].
    apply (Hexpired 3601000); sample_fact.
  - destruct (resetPassword_token_checks (P := Sample.platform) soon_env
                "a@x.com" "wrong" "pw9" pending_world alice_pending
                "$salt$pw1" "$salt$c0ffee" "3601000") as [_ Hmismatch];
      [sample_fact|exact pending_world_found|sample_fact|sample_fact
      |sample_fact|exact alice_pending_reset|].
    apply Hmismatch; [|sample_fact].
    intros expiry Hparse. vm_compute in Hparse. inversion Hparse. reflexivity.
Defined.

(** The claim fails on the code where the new password is the current one:
    alice's reset is pending and expired, yet ResetPassword throws "New
    password cannot be the same as your old password" and leaves the world
    as it was; the reset fields are not cleared. *)
Lemma resetPassword_token_checks_counterexample :
  find_by_email (P := Sample.platform) "a@x.com" (db pending_world) = Some alice_pending
  ∧ pending_reset alice_pending "$salt$c0ffee" "3601000"
  ∧ parse_date (Platform := Sample.platform) "3601000" = Some 3601000
  ∧ 3601000 <= env_now late_env
  ∧ resetPassword (P := Sample.platform) late_env TABLE_NAME
      "a@x.com" "c0ffee" "pw1" pending_world
    = (Throw (ErrorWithStatus
                "New password cannot be the same as your old password" 400),
       pending_world)
  ∧ (resetPassword (P := Sample.platform) late_env TABLE_NAME
       "a@x.com" "c0ffee" "pw1" pending_world).1
    ≠ Throw (ErrorWithStatus "Invalid Token" 400)
  ∧ find_by_email (P := Sample.platform) "a@x.com"
      (db (resetPassword (P := Sample.platform) late_env TABLE_NAME
             "a@x.com" "c0ffee" "pw1" pending_world).2)
    = Some alice_pending.
Proof.
  assert (Hcall : resetPassword (P := Sample.platform) late_env TABLE_NAME
                    "a@x.com" "c0ffee" "pw1" pending_world
                  = (Throw (ErrorWithStatus
                              "New password cannot be the same as your old password"
                              400), pending_world))
    by (vm_compute; reflexivity).
  split; [exact pending_world_found|].
  split; [exact alice_pending_reset|].
  split; [reflexivity|]. split; [discriminate|].
  split; [exact Hcall|]. rewrite Hcall. split; [discriminate|].
  exact pending_world_found.
Qed.

Lemma resetPassword_notification_coupling_witness :
  resetPassword (P := Sample.platform) down_env TABLE_NAME
    "a@x.com" "c0ffee" "pw9" pending_world
  = (Throw (ErrorWithStatus "Email failed to send" 500),
     mailed (ResetConfirmation "a@x.com") false
       (updated "id-1" (password_reset "$sugar$pw9") pending_world))
  ∧ ∀ item',
      item' ∈ db (mailed (ResetConfirmation "a@x.com") false
                    (updated "id-1" (password_reset "$sugar$pw9") pending_world)) →
      user_id item' = "id-1" →
      attr "password_hash" item' = Some "$sugar$pw9"
      ∧ attr "resetToken" item' = Some ""
      ∧ attr "tokenExpiry" item' = Some "".
Proof.
  destruct (resetPassword_notification_coupling (P := Sample.platform) down_env
              "a@x.com" "c0ffee" "pw9" pending_world alice_pending
              "$salt$pw1" "$salt$c0ffee" "3601000")
    as (Hcall & _ & Hitem & _);
    [sample_fact|exact pending_world_found|sample_fact|sample_fact
    |sample_fact|exact alice_pending_reset| |sample_fact|sample_fact|].
  - intros expiry Hparse. vm_compute in Hparse. inversion Hparse. reflexivity.
  - split; [exact Hcall|exact Hitem].
Defined.

Lemma reset_round_trip_witness :
  let item := password_item "id-1" "alice" "$salt$pw1" "a@x.com" in
  let w1 := mailed (TokenMail "a@x.com" "c0ffee") true
              (updated "id-1" (reset_issued "$salt$c0ffee" "3601000")
                 alice_world) in
  let w2 := mailed (ResetConfirmation "a@x.com") true
              (updated "id-1" (password_reset "$sugar$pw9") w1) in
  sendPasswordResetToken (P := Sample.platform) Sample.env TABLE_NAME
    "a@x.com" alice_world = (Return "c0ffee", w1)
  ∧ resetPassword (P := Sample.platform) soon_env TABLE_NAME
      "a@x.com" "c0ffee" "pw9" w1 = (Return tt, w2)
  ∧ (∀ item', item' ∈ db w2 → user_id item' = "id-1" →
       attr "password_hash" item' = Some "$sugar$pw9"
       ∧ attr "resetToken" item' = Some ""
       ∧ attr "tokenExpiry" item' = Some "")
  ∧ authenticateUser (P := Sample.platform) TABLE_NAME "a@x.com" "pw1" alice_world
    = (Return "id-1", alice_world)
  ∧ authenticateUser (P := Sample.platform) TABLE_NAME "a@x.com" "pw1" w2
    = (Throw (ErrorWithStatus
                "Authentication Error (Incorrect email or password)" 401), w2)
  ∧ ∀ env password,
      ∃ message,
        resetPassword (P := Sample.platform) env TABLE_NAME
          "a@x.com" "c0ffee" password w2
        = (Throw (ErrorWithStatus message 400), w2).
Proof.
  apply (reset_round_trip (P := Sample.platform) Sample.env soon_env
           "a@x.com" "pw1" "pw9" alice_world
           (password_item "id-1" "alice" "$salt$pw1" "a@x.com") "$salt$pw1");
    try sample_fact.
  vm_compute. apply NoDup_singleton.
Defined.

(** C5, at the input where the code fails it. The scan reads one page and
    the password account lies beyond it: with a page of one item, carol's
    password account, put by [registerUser], comes second in a table with
    unique emails. IssueResetToken for her email, which passes the syntax
    check, does not see the account and throws status 400, "Email does not
    exist"; no token is stored and no mail is sent, so the round trip of the
    claim does not start. *)
Theorem reset_round_trip_beyond_the_page :
  password_item "id-3" "carol" "$brine$pw3" "c@x.com" ∈ db carol_world
  ∧ has_email "c@x.com" (password_item "id-3" "carol" "$brine$pw3" "c@x.com")
  ∧ password_account (password_item "id-3" "carol" "$brine$pw3" "c@x.com")
  ∧ unique_emails (db carol_world)
  ∧ email_validate (Platform := Sample.cramped) "c@x.com" = true
  ∧ sendPasswordResetToken (P := Sample.cramped) Sample.env TABLE_NAME
      "c@x.com" carol_world
    = (Throw (ErrorWithStatus "Email does not exist" 400), carol_world).
Proof.
  split; [vm_compute; apply list_elem_of_further, list_elem_of_here|].
  split; [reflexivity|]. split; [split; [eexists|]; reflexivity|].
  split; [|split; vm_compute; reflexivity].
  vm_compute. apply NoDup_cons. split; [|apply NoDup_singleton].
  intros H. apply list_elem_of_singleton in H. discriminate.
Qed.
(** * Further properties of the engine *)

(** ** Registration, then authentication *)

Lemma put_item_elem_inv (item x : Item) (tbl : list Item) :
  x ∈ Dynamo.put_item item tbl → x = item ∨ x ∈ tbl.
Proof.
  induction tbl as [|y tbl IH]; simpl; intros H.
  - apply list_elem_of_singleton in H. now left.
  - destruct (Dynamo.has_key (user_id item) y).
    + apply elem_of_cons in H as [->|H]; [now left|right; now right].
    + apply elem_of_cons in H as [->|H]; [right; left|].
      destruct (IH H) as [->|H']; [now left|right; now right].
Qed.

Lemma first_with_email_put_item (email : string) (item : Item)
    (tbl : list Item) :
  unknown_email email tbl → has_email email item →
  first_with_email email (Dynamo.put_item item tbl) = Some item.
Proof.
  intros Hunknown Hmail. apply strict_eq_true in Hmail.
  induction tbl as [|y tbl IH]; simpl.
  - now rewrite Hmail.
  - destruct (Dynamo.has_key (user_id item) y); simpl.
    + now rewrite Hmail.
    + assert (Hy : Js.strict_eq (attr "email" y) email = false).
      { apply strict_eq_false. apply (Hunknown y). left. }
      rewrite Hy. apply IH. intros x Hx. apply Hunknown. now right.
Qed.

(** The scan finds the item just put when the table leaves room for it in
    the page. *)
Lemma find_by_email_put_item {P : Platform}
    (email : string) (item : Item) (tbl : list Item) :
  (length tbl < scan_page)%nat →
  unknown_email email tbl → has_email email item →
  find_by_email email (Dynamo.put_item item tbl) = Some item.
Proof.
  intros Hroom Hunknown Hmail. rewrite find_by_email_one_page.
  - now apply first_with_email_put_item.
  - unfold one_page. pose proof (put_item_length item tbl). lia.
Qed.

Section Registration.

Context {P : Platform}.

Lemma registerUser_new (env : Env) (username password email : string)
    (w : World) :
  email_validate email = true → unknown_email email (db w) →
  registerUser env TABLE_NAME username password email w
  = (Return (env_uuid env),
     added (password_item (env_uuid env) username
              (bcrypt_hash password (env_salt env)) email) w).
Proof.
  intros Hvalid Hunknown. apply find_by_email_None in Hunknown.
  unfold registerUser. rewrite validateTableName_ok, Hvalid. mstep.
  unfold Dynamo.scan. rewrite on_table_ok.
  rewrite (scan_none (fun item => registerUser_scan email [item])
             (ret tt) (registerUser_scan email) email);
    [reflexivity|reflexivity| |assumption].
  intros x rest. simpl.
  destruct (Js.strict_eq (attr "email" x) email); reflexivity.
Qed.

(** X1. Registration and authentication compose. With an email that passes
    the syntax check and that no item holds, [registerUser] answers the id
    drawn for the call and puts a password account under it. When the table
    left room for that item in the page of a scan, then, on the table the
    call leaves, [authenticateUser] with the same email answers that id for
    the registered password (when bcrypt verifies the password against the
    digest it made of it) and throws status 401 for every password that does
    not verify; and every further [registerUser] with that email throws
    status 409, "Email has been taken.", and puts nothing. *)
Theorem register_then_authenticate (env : Env)
    (username password email : string) (w : World) :
  email_validate email = true → unknown_email email (db w) →
  (length (db w) < scan_page)%nat →
  let hash := bcrypt_hash password (env_salt env) in
  let item := password_item (env_uuid env) username hash email in
  registerUser env TABLE_NAME username password email w
  = (Return (env_uuid env), added item w)
  ∧ (bcrypt_verify password hash = true →
     authenticateUser TABLE_NAME email password (added item w)
     = (Return (env_uuid env), added item w))
  ∧ (∀ other, bcrypt_verify other hash = false →
       authenticateUser TABLE_NAME email other (added item w)
       = (Throw (ErrorWithStatus
                   "Authentication Error (Incorrect email or password)" 401),
          added item w))
  ∧ ∀ env' username' password',
      registerUser env' TABLE_NAME username' password' email (added item w)
      = (Throw (ErrorWithStatus "Email has been taken." 409), added item w).
Proof.
  intros Hvalid Hunknown Hroom hash item.
  destruct (password_item_account (env_uuid env) username hash email)
    as ([_ Hprov] & Hmail & Hh).
  fold item in Hprov, Hmail, Hh.
  assert (Hf : find_by_email email (db (added item w)) = Some item)
    by now apply find_by_email_put_item.
  split; [now apply registerUser_new|]. split; [|split].
  - intros Hv.
    apply (authenticateUser_hit email password (added item w) item hash);
      try assumption.
    now rewrite Hprov.
  - intros other Hv. apply authenticateUser_miss.
    intros x Hx Hxmail. simpl in Hx.
    apply put_item_elem_inv in Hx as [->|Hx].
    + split; [assumption|]. exists hash. split; assumption.
    + exfalso. exact (Hunknown x Hx Hxmail).
  - intros env' username' password'.
    rewrite (registerUser_taken env' username' password' email
               (added item w) item Hvalid Hf).
    unfold email_taken. now rewrite Hprov.
Qed.

End Registration.

Lemma register_then_authenticate_witness :
  let item := password_item "id-3" "carol" "$brine$pw3" "c@x.com" in
  registerUser (P := Sample.platform) mallory_env TABLE_NAME
    "carol" "pw3" "c@x.com" bob_world
  = (Return "id-3", added item bob_world)
  ∧ authenticateUser (P := Sample.platform) TABLE_NAME "c@x.com" "pw3"
      (added item bob_world)
    = (Return "id-3", added item bob_world)
  ∧ authenticateUser (P := Sample.platform) TABLE_NAME "c@x.com" "pw4"
      (added item bob_world)
    = (Throw (ErrorWithStatus
                "Authentication Error (Incorrect email or password)" 401),
       added item bob_world)
  ∧ registerUser (P := Sample.platform) Sample.env TABLE_NAME
      "carol2" "pw5" "c@x.com" (added item bob_world)
    = (Throw (ErrorWithStatus "Email has been taken." 409),
       added item bob_world).
Proof.
  destruct (register_then_authenticate (P := Sample.platform) mallory_env
              "carol" "pw3" "c@x.com" bob_world) as (H1 & H2 & H3 & H4).
  - reflexivity.
  - intros x Hx Hmail. no_other_item Hx; vm_compute in Hmail; discriminate.
  - vm_compute. lia.
  - split; [exact H1|]. split; [apply H2; reflexivity|].
    split; [apply H3; reflexivity|apply H4].
Defined.

(** ** Reads do not write *)

Section Reads.

Context {P : Platform}.

Lemma getUserInfo_world (table user_id fields : string) (w : World) :
  (getUserInfo table user_id fields w).2 = w.
Proof.
  unfold getUserInfo, validateTableName.
  destruct (String.eqb_spec table TABLE_NAME) as [->|Hne]; mstep;
    [|reflexivity].
  destruct (check_fields_effect RETRIEVABLE_USER_FIELDS
              (map Js.trim (Js.split_comma fields)) w)
    as [[e He]|[He Hall]]; rewrite He; [reflexivity|].
  destruct (get_answer TABLE_NAME user_id fields w) as [r Hr]. rewrite Hr.
  destruct r as [[item|]|e]; try reflexivity.
  destruct (bool_decide (item = ∅)); reflexivity.
Qed.

(** X2. The two reads of the engine write nothing. Whatever the collection
    name, the email, the password, the id and the fields, and whether they
    answer or throw, [authenticateUser] and [getUserInfo] leave the table and
    the log as they were: authentication keeps no trace of an attempt. *)
Theorem reads_leave_the_world (table email password user_id fields : string)
    (w : World) :
  (authenticateUser table email password w).2 = w
  ∧ (getUserInfo table user_id fields w).2 = w.
Proof.
  split; [|apply getUserInfo_world].
  destruct (authenticateUser_effect table email password w)
    as [[e He]|(item & _ & _ & _ & _ & _ & He)]; now rewrite He.
Qed.

End Reads.

(** ** OAuth accounts and the password flows *)

Section OAuthLockout.

Context {P : Platform}.

Lemma authenticateUser_oauth (email password : string) (w : World) (item : Item) :
  find_by_email email (db w) = Some item →
  Js.truthy (attr "provider" item) = true →
  authenticateUser TABLE_NAME email password w
  = (Throw (ErrorWithStatus
              ("You previously signed up using "
                 +:+ Js.show (attr "provider" item)
                 +:+ ". Please use that to sign in instead.") 403), w).
Proof.
  intros Hf Hprov. unfold authenticateUser.
  rewrite validateTableName_ok. mstep. unfold Dynamo.scan. rewrite on_table_ok.
  unfold find_by_email in Hf.
  induction (Dynamo.page (db w)) as [|x tbl IH]; [discriminate|].
  simpl in Hf. cbn [authenticateUser_scan].
  destruct (Js.strict_eq (attr "email" x) email).
  - inversion Hf; subst x. now rewrite Hprov.
  - now apply IH.
Qed.

Lemma sendPasswordResetToken_oauth (env : Env) (email : string) (w : World)
    (item : Item) :
  email_validate email = true →
  find_by_email email (db w) = Some item →
  Js.truthy (attr "provider" item) = true →
  sendPasswordResetToken env TABLE_NAME email w
  = (Throw (no_password_to_reset item), w).
Proof.
  intros Hvalid Hf Hprov.
  destruct (find_by_email_Some _ _ _ Hf) as [Hin Hmail].
  unfold sendPasswordResetToken. rewrite validateTableName_ok, Hvalid.
  mstep. unfold Dynamo.scan. rewrite on_table_ok.
  rewrite (scan_first
             (fun item _ => sendPasswordResetToken_scan email [item])
             (ret "") (sendPasswordResetToken_scan email) email)
    with (item := item); [| |assumption].
  - cbn [sendPasswordResetToken_scan].
    apply strict_eq_true in Hmail. now rewrite Hmail, Hprov.
  - intros y rest. cbn [sendPasswordResetToken_scan].
    destruct (Js.strict_eq (attr "email" y) email); reflexivity.
Qed.

Lemma resetPassword_oauth (env : Env) (email token newPassword : string)
    (w : World) (item : Item) :
  email_validate email = true →
  find_by_email email (db w) = Some item →
  Js.truthy (attr "provider" item) = true →
  resetPassword env TABLE_NAME email token newPassword w
  = (Throw (no_password_to_reset item), w).
Proof.
  intros Hvalid Hf Hprov.
  destruct (find_by_email_Some _ _ _ Hf) as [Hin Hmail].
  unfold resetPassword. rewrite validateTableName_ok, Hvalid.
  mstep. unfold Dynamo.scan. rewrite on_table_ok.
  rewrite (scan_first
             (fun item _ =>
                resetPassword_scan env TABLE_NAME email token newPassword [item])
             (ret "")
             (resetPassword_scan env TABLE_NAME email token newPassword) email)
    with (item := item); [| |assumption].
  - cbn [resetPassword_scan].
    apply strict_eq_true in Hmail. rewrite Hmail, Hprov. reflexivity.
  - intros y rest. cbn [resetPassword_scan].
    destruct (Js.strict_eq (attr "email" y) email); reflexivity.
Qed.

(** X3. An account that signed up through a provider is shut out of every
    password flow. When the scan finds for the email an item with a non-empty
    [provider], then, whatever the passwords and the token: [authenticateUser]
    throws status 403 naming the provider; [changePassword] (with two
    different passwords) throws status 403 with its own message;
    [sendPasswordResetToken] and [resetPassword] (the email passing the
    syntax check) throw status 403 naming the provider. None of them writes
    or sends a mail. *)
Theorem oauth_account_has_no_password (env : Env)
    (email password oldPassword newPassword token provider : string)
    (w : World) (item : Item) :
  find_by_email email (db w) = Some item →
  attr "provider" item = Some provider → provider ≠ "" →
  authenticateUser TABLE_NAME email password w
  = (Throw (ErrorWithStatus
              ("You previously signed up using " +:+ provider
                 +:+ ". Please use that to sign in instead.") 403), w)
  ∧ (oldPassword ≠ newPassword →
     changePassword env TABLE_NAME email oldPassword newPassword w
     = (Throw (ErrorWithStatus
                 "You cannot change your password as you signed in with a third-party provider."
                 403), w))
  ∧ (email_validate email = true →
     sendPasswordResetToken env TABLE_NAME email w
     = (Throw (ErrorWithStatus
                 ("You previously signed up using " +:+ provider
                    +:+ ", so you do not have a password to reset.") 403), w)
     ∧ resetPassword env TABLE_NAME email token newPassword w
       = (Throw (ErrorWithStatus
                   ("You previously signed up using " +:+ provider
                      +:+ ", so you do not have a password to reset.") 403), w)).
Proof.
  intros Hf Hprov Hne.
  assert (Htruthy : Js.truthy (attr "provider" item) = true).
  { rewrite Hprov. now apply truthy_Some. }
  split; [|split].
  - rewrite (authenticateUser_oauth email password w item Hf Htruthy).
    now rewrite Hprov.
  - intros Hdiff. unfold changePassword. rewrite validateTableName_ok. mstep.
    apply String.eqb_neq in Hdiff. rewrite Hdiff.
    rewrite (authenticateUser_oauth email oldPassword w item Hf Htruthy).
    reflexivity.
  - intros Hvalid. split.
    + rewrite (sendPasswordResetToken_oauth env email w item Hvalid Hf Htruthy).
      unfold no_password_to_reset. now rewrite Hprov.
    + rewrite (resetPassword_oauth env email token newPassword w item
                 Hvalid Hf Htruthy).
      unfold no_password_to_reset. now rewrite Hprov.
Qed.

End OAuthLockout.

Lemma oauth_account_has_no_password_witness :
  authenticateUser (P := Sample.platform) TABLE_NAME "b@x.com" "guess" bob_world
  = (Throw (ErrorWithStatus
              "You previously signed up using google. Please use that to sign in instead."
              403), bob_world)
  ∧ changePassword (P := Sample.platform) Sample.env TABLE_NAME
      "b@x.com" "guess" "mine" bob_world
    = (Throw (ErrorWithStatus
                "You cannot change your password as you signed in with a third-party provider."
                403), bob_world)
  ∧ sendPasswordResetToken (P := Sample.platform) Sample.env TABLE_NAME
      "b@x.com" bob_world
    = (Throw (ErrorWithStatus
                "You previously signed up using google, so you do not have a password to reset."
                403), bob_world)
  ∧ resetPassword (P := Sample.platform) Sample.env TABLE_NAME
      "b@x.com" "c0ffee" "mine" bob_world
    = (Throw (ErrorWithStatus
                "You previously signed up using google, so you do not have a password to reset."
                403), bob_world).
Proof.
  destruct (oauth_account_has_no_password (P := Sample.platform) Sample.env
              "b@x.com" "guess" "guess" "mine" "c0ffee" "google" bob_world
              (oauth_item "id-2" "bob" "google" "b@x.com"))
    as (H1 & H2 & H3); [vm_compute; reflexivity|reflexivity|discriminate|].
  split; [exact H1|]. split; [apply H2; discriminate|].
  apply H3. reflexivity.
Defined.

(** ** ChangePassword *)

Lemma update_item_holder (email : string) (fields : list (string * string))
    (tbl : list Item) (item x : Item) :
  unique_emails tbl → item ∈ tbl → has_email email item →
  "email" ∉ map fst fields →
  x ∈ Dynamo.update_item (user_id item) fields tbl → has_email email x →
  x = Dynamo.set_attrs fields item.
Proof.
  intros Hu Hin Hmail Hnot Hx Hxmail.
  apply list_elem_of_fmap in Hx as (y & -> & Hy).
  assert (Hymail : has_email email y).
  { unfold has_email in *. rewrite <- Hxmail.
    destruct (Dynamo.has_key (user_id item) y); [|reflexivity].
    symmetry. now apply attr_set_attrs_notin. }
  assert (y = item) as -> by eauto using unique_emails_same.
  unfold Dynamo.has_key. now rewrite String.eqb_refl.
Qed.

Lemma update_item_others (uid : string) (fields : list (string * string))
    (tbl : list Item) (x : Item) :
  user_id x ≠ uid → (x ∈ Dynamo.update_item uid fields tbl ↔ x ∈ tbl).
Proof.
  intros Hne. unfold Dynamo.update_item. rewrite list_elem_of_fmap. split.
  - intros (y & -> & Hy).
    destruct (Dynamo.has_key uid y) eqn:Hk; [|assumption].
    apply has_key_true in Hk. rewrite user_id_set_attrs in Hne. contradiction.
  - intros Hx. exists x. split; [|assumption].
    apply has_key_false in Hne. now rewrite Hne.
Qed.

Section ChangePassword.

Context {P : Platform}.

(** X4. Changing a password. For the password account the scan finds for the
    email (the first item of the one page it reads that holds it) in a table
    with unique emails, the old password verifying against its digest and
    the new password being another string, [changePassword] succeeds with
    one update that assigns [password_hash] the digest of the new password,
    on that item alone. Afterwards [authenticateUser] answers the account's id for the new
    password (when bcrypt verifies it against its own digest) and throws
    status 401 for the old one (when it does not verify against the new
    digest); the other attributes of the item and the other items are as
    they were. *)
Theorem changePassword_round_trip (env : Env)
    (email oldPassword newPassword : string) (w : World) (item : Item)
    (h : string) :
  unique_emails (db w) →
  find_by_email email (db w) = Some item → password_account item →
  attr "password_hash" item = Some h →
  oldPassword ≠ newPassword →
  bcrypt_verify oldPassword h = true →
  let newHash := bcrypt_hash newPassword (env_salt env) in
  let w' := updated (user_id item) [("password_hash", newHash)] w in
  changePassword env TABLE_NAME email oldPassword newPassword w = (Return tt, w')
  ∧ (bcrypt_verify newPassword newHash = true →
     authenticateUser TABLE_NAME email newPassword w' = (Return (user_id item), w'))
  ∧ (bcrypt_verify oldPassword newHash = false →
     authenticateUser TABLE_NAME email oldPassword w'
     = (Throw (ErrorWithStatus
                 "Authentication Error (Incorrect email or password)" 401), w'))
  ∧ (∀ x, user_id x ≠ user_id item → (x ∈ db w' ↔ x ∈ db w))
  ∧ (∀ x name, x ∈ db w' → user_id x = user_id item →
       name ≠ "password_hash" →
       ∃ y, y ∈ db w ∧ user_id y = user_id item ∧ attr name x = attr name y).
Proof.
  intros Hu Hf [_ Hprov] Hh Hdiff Hold newHash w'.
  destruct (find_by_email_Some _ _ _ Hf) as [Hin Hmail].
  assert (Hfalsy : Js.truthy (attr "provider" item) = false)
    by now rewrite Hprov.
  assert (Hnot : "email" ∉ map fst [("password_hash", newHash)]).
  { simpl. intros H. apply list_elem_of_singleton in H. discriminate. }
  set (item' := Dynamo.set_attrs [("password_hash", newHash)] item).
  assert (Hf' : find_by_email email (db w') = Some item').
  { now apply (find_by_email_updated email [("password_hash", newHash)]). }
  assert (Hprov' : attr "provider" item' = None).
  { unfold item'. rewrite attr_set_attrs_notin; [assumption|].
    simpl. intros H. apply list_elem_of_singleton in H. discriminate. }
  assert (Hh' : attr "password_hash" item' = Some newHash)
    by apply attr_set_attrs_single.
  split; [|split; [|split; [|split]]].
  - unfold changePassword. rewrite validateTableName_ok. mstep.
    apply String.eqb_neq in Hdiff. rewrite Hdiff.
    rewrite (authenticateUser_hit email oldPassword w item h) by assumption.
    now rewrite (databaseEditUser_done (user_id item) _ w item Hin eq_refl)
      by discriminate.
  - intros Hv.
    apply (authenticateUser_hit email newPassword w' item' newHash);
      try assumption.
    now rewrite Hprov'.
  - intros Hv. apply authenticateUser_miss. intros x Hx Hxmail.
    assert (x = item') as ->
      by (eapply update_item_holder; eassumption).
    split; [assumption|]. exists newHash. split; assumption.
  - intros x Hne. now apply update_item_others.
  - intros x name Hx Hid Hname. simpl in Hx.
    apply update_item_elem in Hx as (y & Hy & Hyid & ->); [|assumption].
    exists y. split; [assumption|]. split; [assumption|].
    apply attr_set_attrs_notin. simpl. intros H.
    apply list_elem_of_singleton in H. congruence.
Qed.

(** X5. The refusals of ChangePassword. With the old password as the new one,
    [changePassword] throws status 400 before it looks at the table, whatever
    the email. With two different passwords, when every item that holds the
    email is a password account whose digest the old password does not verify
    against (no item holding the email is one such case), it throws the
    failure of [authenticateUser] unchanged: status 401, the same for an
    unknown email and a wrong password. In both cases nothing is written. *)
Theorem changePassword_refusals (env : Env)
    (email oldPassword newPassword : string) (w : World) :
  changePassword env TABLE_NAME email oldPassword oldPassword w
  = (Throw (ErrorWithStatus
              "New password cannot be the same as your old password" 400), w)
  ∧ (oldPassword ≠ newPassword →
     (∀ item, item ∈ db w → has_email email item →
        attr "provider" item = None ∧ password_fails oldPassword item) →
     changePassword env TABLE_NAME email oldPassword newPassword w
     = (Throw (ErrorWithStatus
                 "Authentication Error (Incorrect email or password)" 401), w)).
Proof.
  split.
  - unfold changePassword. rewrite validateTableName_ok. mstep.
    now rewrite String.eqb_refl.
  - intros Hdiff Hall. unfold changePassword.
    rewrite validateTableName_ok. mstep.
    apply String.eqb_neq in Hdiff. rewrite Hdiff.
    now rewrite (authenticateUser_miss email oldPassword w Hall).
Qed.

End ChangePassword.

Lemma changePassword_round_trip_witness :
  let w' := updated "id-1" [("password_hash", "$salt$pw2")] bob_world in
  changePassword (P := Sample.platform) Sample.env TABLE_NAME
    "a@x.com" "pw1" "pw2" bob_world = (Return tt, w')
  ∧ authenticateUser (P := Sample.platform) TABLE_NAME "a@x.com" "pw2" w'
    = (Return "id-1", w')
  ∧ authenticateUser (P := Sample.platform) TABLE_NAME "a@x.com" "pw1" w'
    = (Throw (ErrorWithStatus
                "Authentication Error (Incorrect email or password)" 401), w').
Proof.
  destruct (changePassword_round_trip (P := Sample.platform) Sample.env
              "a@x.com" "pw1" "pw2" bob_world
              (password_item "id-1" "alice" "$salt$pw1" "a@x.com") "$salt$pw1")
    as (H1 & H2 & H3 & _);
    [exact bob_world_emails|vm_compute; reflexivity
    |split; [eexists|]; reflexivity|reflexivity|discriminate|reflexivity|].
  split; [exact H1|]. split; [apply H2; reflexivity|apply H3; reflexivity].
Defined.

Lemma changePassword_refusals_witness :
  changePassword (P := Sample.platform) Sample.env TABLE_NAME
    "a@x.com" "pw1" "pw1" bob_world
  = (Throw (ErrorWithStatus
              "New password cannot be the same as your old password" 400),
     bob_world)
  ∧ changePassword (P := Sample.platform) Sample.env TABLE_NAME
      "a@x.com" "wrong" "pw2" bob_world
    = (Throw (ErrorWithStatus
                "Authentication Error (Incorrect email or password)" 401),
       bob_world).
Proof.
  destruct (changePassword_refusals (P := Sample.platform) Sample.env
              "a@x.com" "pw1" "pw2" bob_world) as [H1 _].
  destruct (changePassword_refusals (P := Sample.platform) Sample.env
              "a@x.com" "wrong" "pw2" bob_world) as [_ H2].
  split; [exact H1|]. apply H2; [discriminate|].
  intros item Hin Hmail. no_other_item Hin.
  - split; [reflexivity|]. eexists. split; reflexivity.
  - vm_compute in Hmail. discriminate.
Defined.

(** ** DeleteUser *)

Lemma exists_key_true (uid : string) (tbl : list Item) :
  Dynamo.exists_key uid tbl = true ↔ ∃ x, x ∈ tbl ∧ user_id x = uid.
Proof.
  unfold Dynamo.exists_key. rewrite List.existsb_exists. split.
  - intros (x & Hin & Hk). exists x.
    split; [now apply list_elem_of_In|now apply has_key_true].
  - intros (x & Hin & Hk). exists x.
    split; [now apply list_elem_of_In|now apply has_key_true].
Qed.

Lemma exists_key_false (uid : string) (tbl : list Item) :
  Dynamo.exists_key uid tbl = false ↔ ∀ x, x ∈ tbl → user_id x ≠ uid.
Proof.
  split.
  - intros H x Hx Hid.
    assert (Ht : Dynamo.exists_key uid tbl = true)
      by (apply exists_key_true; eauto).
    congruence.
  - intros H. destruct (Dynamo.exists_key uid tbl) eqn:E; [|reflexivity].
    apply exists_key_true in E as (x & Hx & Hid). exfalso. exact (H x Hx Hid).
Qed.

Lemma delete_item_elem (uid : string) (tbl : list Item) (x : Item) :
  x ∈ Dynamo.delete_item uid tbl ↔ x ∈ tbl ∧ user_id x ≠ uid.
Proof.
  unfold Dynamo.delete_item. rewrite !list_elem_of_In, List.filter_In.
  rewrite negb_true_iff, has_key_false. reflexivity.
Qed.

Lemma get_item_None (uid : string) (tbl : list Item) :
  (∀ x, x ∈ tbl → user_id x ≠ uid) → Dynamo.get_item uid tbl = None.
Proof.
  intros H. unfold Dynamo.get_item.
  destruct (List.find (Dynamo.has_key uid) tbl) as [x|] eqn:E; [|reflexivity].
  apply List.find_some in E as [Hin Hk].
  apply list_elem_of_In in Hin. apply has_key_true in Hk.
  exfalso. exact (H x Hin Hk).
Qed.

Lemma deleteUser_unfold (userId : string) (w : World) :
  deleteUser TABLE_NAME userId w
  = if Dynamo.exists_key userId (db w)
    then (Return tt,
          mkWorld (Dynamo.delete_item userId (db w)) (log w ++ [EvDelete userId]))
    else (Throw (ErrorWithStatus "User Id does not exist" 400), w).
Proof.
  unfold deleteUser. rewrite validateTableName_ok. mstep.
  unfold Dynamo.delete. rewrite on_table_ok.
  destruct (Dynamo.exists_key userId (db w)); reflexivity.
Qed.

Lemma check_fields_throws (allowed fields : list string) (w w' : World)
    (e : Exn) :
  check_fields allowed fields w = (Throw e, w') →
  ∃ f, f ∈ fields ∧ Js.includes allowed (Js.toLowerCase f) = false.
Proof.
  induction fields as [|f rest IH]; [discriminate|].
  cbn [check_fields].
  destruct (Js.includes allowed (Js.toLowerCase f)) eqn:Hf; cbn [negb].
  - intros He. destruct (IH He) as (g & Hg & Hbad).
    exists g. split; [now right|assumption].
  - intros _. exists f. split; [left|assumption].
Qed.

Lemma getUserInfo_no_user {P : Platform} (userId fields : string)
    (w : World) :
  (∀ x, x ∈ db w → user_id x ≠ userId) →
  ∃ e,
    getUserInfo TABLE_NAME userId fields w = (Throw e, w)
    ∧ http_status e ∈ [400; 500]
    ∧ ((∀ f, f ∈ map Js.trim (Js.split_comma fields) →
             retrievable_field f = true) →
       projection_accepted fields = true → userId ≠ "" →
       e = ErrorWithStatus "Invalid User Id" 400).
Proof.
  intros Hnone. unfold getUserInfo. rewrite validateTableName_ok. mstep.
  assert (Hcheck :
    (∃ f, f ∈ map Js.trim (Js.split_comma fields)
          ∧ Js.includes RETRIEVABLE_USER_FIELDS (Js.toLowerCase f) = false)
    ∨ check_fields RETRIEVABLE_USER_FIELDS
        (map Js.trim (Js.split_comma fields)) w = (Return tt, w)).
  { destruct (check_fields_effect RETRIEVABLE_USER_FIELDS
                (map Js.trim (Js.split_comma fields)) w) as [[e He]|[He _]];
      [|now right].
    left. eapply check_fields_throws. exact He. }
  destruct Hcheck as [Hbad|Hok].
  - destruct (check_fields_invalid RETRIEVABLE_USER_FIELDS _ w Hbad)
      as (f & Hin & Hf & Heq).
    rewrite Heq. eexists. split; [reflexivity|]. split; [in_table|].
    intros Hall. specialize (Hall f Hin). unfold retrievable_field in Hall.
    congruence.
  - rewrite Hok.
    destruct (projection_accepted fields) eqn:Ha.
    + rewrite (get_missing userId fields w Ha
                 (get_item_None userId (db w) Hnone)).
      destruct (String.eqb_spec userId "") as [->|Hne].
      * eexists. split; [reflexivity|]. split; [in_table|].
        intros _ _ Hne. congruence.
      * eexists. split; [reflexivity|]. split; [in_table|]. reflexivity.
    + rewrite (get_rejected userId fields w Ha).
      eexists. split; [reflexivity|]. split; [in_table|].
      intros _ Hacc. congruence.
Qed.

(** X6. DeleteUser is a hard delete by key. When no item has the id the call
    throws status 400, "User Id does not exist", and writes nothing. When an
    item has it the call succeeds with one delete: the table keeps exactly
    the items with another id, a second [deleteUser] of the id throws status
    400 and writes nothing, and [getUserInfo] on the id throws whatever the
    fields and writes nothing: with "Invalid User Id", status 400, when the
    fields are all retrievable, DynamoDB accepts them as a projection and
    the id is not the empty string; with status 400 or with an error that
    carries no status (the endpoint's 500) otherwise. *)
Theorem deleteUser_removes_the_item {P : Platform} (userId : string)
    (w : World) :
  ((∀ x, x ∈ db w → user_id x ≠ userId) →
   deleteUser TABLE_NAME userId w
   = (Throw (ErrorWithStatus "User Id does not exist" 400), w))
  ∧ ((∃ item, item ∈ db w ∧ user_id item = userId) →
     let w' := mkWorld (Dynamo.delete_item userId (db w))
                       (log w ++ [EvDelete userId]) in
     deleteUser TABLE_NAME userId w = (Return tt, w')
     ∧ (∀ x, x ∈ db w' ↔ x ∈ db w ∧ user_id x ≠ userId)
     ∧ deleteUser TABLE_NAME userId w'
       = (Throw (ErrorWithStatus "User Id does not exist" 400), w')
     ∧ ∀ fields,
         ∃ e,
           getUserInfo TABLE_NAME userId fields w' = (Throw e, w')
           ∧ http_status e ∈ [400; 500]
           ∧ ((∀ f, f ∈ map Js.trim (Js.split_comma fields) →
                    retrievable_field f = true) →
              projection_accepted fields = true → userId ≠ "" →
              e = ErrorWithStatus "Invalid User Id" 400)).
Proof.
  split.
  - intros Hnone. rewrite deleteUser_unfold.
    now rewrite (proj2 (exists_key_false userId (db w)) Hnone).
  - intros Hex w'.
    assert (Hgone : ∀ x, x ∈ db w' → user_id x ≠ userId).
    { intros x Hx. now apply delete_item_elem in Hx as [_ ?]. }
    split; [|split; [|split]].
    + rewrite deleteUser_unfold.
      now rewrite (proj2 (exists_key_true userId (db w)) Hex).
    + intros x. apply delete_item_elem.
    + rewrite deleteUser_unfold.
      now rewrite (proj2 (exists_key_false userId (db w')) Hgone).
    + intros fields. now apply getUserInfo_no_user.
Qed.

Lemma deleteUser_removes_the_item_witness :
  deleteUser TABLE_NAME "id-7" bob_world
  = (Throw (ErrorWithStatus "User Id does not exist" 400), bob_world)
  ∧ deleteUser TABLE_NAME "id-1" bob_world
    = (Return tt,
       mkWorld (Dynamo.delete_item "id-1" (db bob_world))
               (log bob_world ++ [EvDelete "id-1"]))
  ∧ db (mkWorld (Dynamo.delete_item "id-1" (db bob_world))
                (log bob_world ++ [EvDelete "id-1"]))
    = [oauth_item "id-2" "bob" "google" "b@x.com"]
  ∧ getUserInfo (P := Sample.platform) TABLE_NAME "id-1" "username"
      (mkWorld (Dynamo.delete_item "id-1" (db bob_world))
               (log bob_world ++ [EvDelete "id-1"]))
    = (Throw (ErrorWithStatus "Invalid User Id" 400),
       mkWorld (Dynamo.delete_item "id-1" (db bob_world))
               (log bob_world ++ [EvDelete "id-1"])).
Proof.
  destruct (deleteUser_removes_the_item (P := Sample.platform)
              "id-7" bob_world) as [Habsent _].
  destruct (deleteUser_removes_the_item (P := Sample.platform)
              "id-1" bob_world) as [_ Hpresent].
  split; [|split; [|split]].
  - apply Habsent. intros x Hx Hid. no_other_item Hx; discriminate.
  - apply Hpresent. eexists. split; [apply list_elem_of_here|reflexivity].
  - vm_compute. reflexivity.
  - destruct Hpresent as (_ & _ & _ & Hget);
      [eexists; split; [apply list_elem_of_here|reflexivity]|].
    destruct (Hget "username") as (e & Hcall & _ & He).
    rewrite Hcall. f_equal. f_equal. apply He; [|reflexivity|discriminate].
    intros f Hf. vm_compute in Hf.
    apply list_elem_of_singleton in Hf as ->. reflexivity.
Defined.

Section AfterDelete.

Context {P : Platform}.

(** X7. A deleted account leaves no tombstone. In a table with unique emails,
    once [deleteUser] has removed the item that held an email, no item holds
    that email: [authenticateUser] with it throws status 401 whatever the
    password, and [registerUser] with it (the email passing the syntax check)
    succeeds and puts a new password account. *)
Theorem deleted_email_is_free (env : Env)
    (email username password : string) (w : World) (item : Item) :
  unique_emails (db w) → item ∈ db w → has_email email item →
  let w' := mkWorld (Dynamo.delete_item (user_id item) (db w))
                    (log w ++ [EvDelete (user_id item)]) in
  deleteUser TABLE_NAME (user_id item) w = (Return tt, w')
  ∧ unknown_email email (db w')
  ∧ (∀ guess,
       authenticateUser TABLE_NAME email guess w'
       = (Throw (ErrorWithStatus
                   "Authentication Error (Incorrect email or password)" 401), w'))
  ∧ (email_validate email = true →
     registerUser env TABLE_NAME username password email w'
     = (Return (env_uuid env),
        added (password_item (env_uuid env) username
                 (bcrypt_hash password (env_salt env)) email) w')).
Proof.
  intros Hu Hin Hmail w'.
  assert (Hunknown : unknown_email email (db w')).
  { intros x Hx Hxmail. simpl in Hx.
    apply delete_item_elem in Hx as [Hx Hne].
    assert (x = item) as -> by eauto using unique_emails_same.
    contradiction. }
  split; [|split; [assumption|split]].
  - rewrite deleteUser_unfold.
    rewrite (proj2 (exists_key_true (user_id item) (db w))); [reflexivity|].
    eauto.
  - intros guess. apply authenticateUser_miss.
    intros x Hx Hxmail. exfalso. exact (Hunknown x Hx Hxmail).
  - intros Hvalid. now apply registerUser_new.
Qed.

End AfterDelete.

Lemma deleted_email_is_free_witness :
  let w' := mkWorld (Dynamo.delete_item "id-1" (db bob_world))
                    (log bob_world ++ [EvDelete "id-1"]) in
  deleteUser TABLE_NAME "id-1" bob_world = (Return tt, w')
  ∧ authenticateUser (P := Sample.platform) TABLE_NAME "a@x.com" "pw1" w'
    = (Throw (ErrorWithStatus
                "Authentication Error (Incorrect email or password)" 401), w')
  ∧ registerUser (P := Sample.platform) mallory_env TABLE_NAME
      "alice" "pw7" "a@x.com" w'
    = (Return "id-3",
       added (password_item "id-3" "alice" "$brine$pw7" "a@x.com") w').
Proof.
  destruct (deleted_email_is_free (P := Sample.platform) mallory_env
              "a@x.com" "alice" "pw7" bob_world
              (password_item "id-1" "alice" "$salt$pw1" "a@x.com"))
    as (H1 & _ & H3 & H4);
    [exact bob_world_emails|apply list_elem_of_here|reflexivity|].
  split; [exact H1|]. split; [apply H3|apply H4; reflexivity].
Defined.

(** ** GetProfile and SetProfile *)

Lemma project_lookup (expression name : string) (item : Item) :
  Dynamo.project expression item !! name
  = if bool_decide (name ∈ map Js.trim (Js.split_comma expression))
    then (if String.eqb name "user_id" then Some (user_id item)
          else attrs item !! name)
    else None.
Proof.
  unfold Dynamo.project.
  induction (map Js.trim (Js.split_comma expression)) as [|f l IH].
  - reflexivity.
  - cbn [fold_right].
    destruct (decide (name = f)) as [->|Hne].
    + rewrite bool_decide_eq_true_2 by left.
      destruct (if String.eqb f "user_id" then Some (user_id item)
                else attrs item !! f) as [v|] eqn:Hv.
      * apply lookup_insert_eq.
      * rewrite IH. now destruct (bool_decide (f ∈ l)).
    + assert (Hiff : bool_decide (name ∈ f :: l) = bool_decide (name ∈ l)).
      { apply bool_decide_ext. rewrite elem_of_cons. tauto. }
      rewrite Hiff, <- IH.
      destruct (if String.eqb f "user_id" then Some (user_id item)
                else attrs item !! f) as [v|]; [|reflexivity].
      now apply lookup_insert_ne.
Qed.

Lemma retrievable_not_key (name : string) :
  retrievable_field name = true → String.eqb name "user_id" = false.
Proof.
  intros H. apply String.eqb_neq. intros ->. vm_compute in H. discriminate.
Qed.

(** [getUserInfo] once its fields have passed the check: what the store
    rejects comes through as it is. *)
Lemma getUserInfo_passed {P : Platform} (userId fields : string) (w : World) :
  (∀ f, f ∈ map Js.trim (Js.split_comma fields) → retrievable_field f = true) →
  getUserInfo TABLE_NAME userId fields w
  = if negb (projection_accepted fields)
    then (Throw (JsError "ValidationException"), w)
    else match Dynamo.get_item userId (db w) with
         | None =>
             if String.eqb userId ""
             then (Throw (JsError "ValidationException"), w)
             else (Throw (ErrorWithStatus "Invalid User Id" 400), w)
         | Some item =>
             if bool_decide (Dynamo.project fields item = ∅)
             then (Throw (ErrorWithStatus
                            ("Uninitialised value/s: '" +:+ fields +:+ "'")
                            400), w)
             else (Return (Dynamo.project fields item), w)
         end.
Proof.
  intros Hall. unfold getUserInfo. rewrite validateTableName_ok. mstep.
  destruct (check_fields_effect RETRIEVABLE_USER_FIELDS
              (map Js.trim (Js.split_comma fields)) w) as [[e He]|[He _]].
  - destruct (check_fields_throws _ _ _ _ _ He) as (f & Hin & Hbad).
    specialize (Hall f Hin). unfold retrievable_field in Hall. congruence.
  - rewrite He. unfold Dynamo.get. rewrite on_table_ok.
    destruct (projection_accepted fields); cbn [negb]; [|reflexivity].
    destruct (Dynamo.get_item userId (db w)) as [item|].
    + destruct (bool_decide (Dynamo.project fields item = ∅)); reflexivity.
    + destruct (String.eqb userId ""); reflexivity.
Qed.

(** [getUserInfo] on fields that pass the check and that DynamoDB accepts,
    for an id that has an item. *)
Lemma getUserInfo_checked {P : Platform} (userId fields : string) (w : World)
    (item : Item) :
  (∀ f, f ∈ map Js.trim (Js.split_comma fields) → retrievable_field f = true) →
  projection_accepted fields = true →
  Dynamo.get_item userId (db w) = Some item →
  getUserInfo TABLE_NAME userId fields w
  = if bool_decide (Dynamo.project fields item = ∅)
    then (Throw (ErrorWithStatus
                   ("Uninitialised value/s: '" +:+ fields +:+ "'") 400), w)
    else (Return (Dynamo.project fields item), w).
Proof.
  intros Hall Ha Hget. now rewrite getUserInfo_passed, Ha, Hget.
Qed.

(** X8. GetProfile discloses retrievable attributes only. Whatever the
    collection name, the id and the fields asked for, when [getUserInfo]
    answers, every name in its answer lower-cases into
    [RETRIEVABLE_USER_FIELDS]; in particular the answer holds no
    [password_hash], no [resetToken], no [tokenExpiry] and no [user_id], and
    it is not empty. *)
Theorem getUserInfo_discloses_only_retrievable {P : Platform}
    (table userId fields : string) (w w' : World)
    (answer : gmap string string) :
  getUserInfo table userId fields w = (Return answer, w') →
  (∀ name, is_Some (answer !! name) → retrievable_field name = true)
  ∧ answer !! "password_hash" = None
  ∧ answer !! "resetToken" = None
  ∧ answer !! "tokenExpiry" = None
  ∧ answer !! "user_id" = None
  ∧ answer ≠ ∅.
Proof.
  intros Hcall.
  assert (Hnames : (∀ name, is_Some (answer !! name) →
                            retrievable_field name = true) ∧ answer ≠ ∅).
  { revert Hcall. unfold getUserInfo, validateTableName.
    destruct (String.eqb_spec table TABLE_NAME) as [->|Hne]; mstep;
      [|discriminate].
    destruct (check_fields_effect RETRIEVABLE_USER_FIELDS
                (map Js.trim (Js.split_comma fields)) w)
      as [[e He]|[He Hall]]; rewrite He; [discriminate|].
    unfold Dynamo.get. rewrite on_table_ok.
    destruct (projection_accepted fields); cbn [negb]; [|discriminate].
    destruct (Dynamo.get_item userId (db w)) as [item|];
      [|destruct (String.eqb userId ""); discriminate].
    destruct (bool_decide (Dynamo.project fields item = ∅)) eqn:Hempty;
      [discriminate|].
    intros Heq. inversion Heq; subst. clear Heq.
    apply bool_decide_eq_false_1 in Hempty. split; [|assumption].
    intros name Hsome. rewrite project_lookup in Hsome.
    destruct (bool_decide (name ∈ map Js.trim (Js.split_comma fields)))
      eqn:Hin; [|now destruct Hsome].
    apply bool_decide_eq_true_1 in Hin. now apply Hall. }
  destruct Hnames as [Hnames Hne].
  assert (Hnot : ∀ name, retrievable_field name = false → answer !! name = None).
  { intros name Hname. destruct (answer !! name) as [v|] eqn:Hv; [|reflexivity].
    rewrite Hnames in Hname; [discriminate|]. rewrite Hv. eauto. }
  split; [assumption|]. repeat split; try (apply Hnot; reflexivity).
  assumption.
Qed.

(** X9. GetProfile answers what is stored. When every field asked for is
    retrievable, DynamoDB accepts the fields as a projection (as it does
    distinct plain names separated by commas, and as it does not when a name
    comes twice) and an item has the id: if the item holds at least one of
    the fields, [getUserInfo] answers exactly the fields asked for that the
    item holds, each with its stored value, and nothing else; if it holds
    none of them, the call throws status 400, "Uninitialised value/s". The
    table is not written. *)
Theorem getUserInfo_answers_what_is_stored {P : Platform}
    (userId fields : string) (w : World) (item : Item) :
  (∀ f, f ∈ map Js.trim (Js.split_comma fields) → retrievable_field f = true) →
  projection_accepted fields = true →
  Dynamo.get_item userId (db w) = Some item →
  NoDup (map Js.trim (Js.split_comma fields))
  ∧ ((∃ f, f ∈ map Js.trim (Js.split_comma fields) ∧ is_Some (attr f item)) →
     ∃ answer,
       getUserInfo TABLE_NAME userId fields w = (Return answer, w)
       ∧ ∀ name,
           answer !! name
           = if bool_decide (name ∈ map Js.trim (Js.split_comma fields))
             then attr name item else None)
  ∧ ((∀ f, f ∈ map Js.trim (Js.split_comma fields) → attr f item = None) →
     getUserInfo TABLE_NAME userId fields w
     = (Throw (ErrorWithStatus
                 ("Uninitialised value/s: '" +:+ fields +:+ "'") 400), w)).
Proof.
  intros Hall Ha Hget.
  assert (Hlookup : ∀ name,
    Dynamo.project fields item !! name
    = if bool_decide (name ∈ map Js.trim (Js.split_comma fields))
      then attr name item else None).
  { intros name. rewrite project_lookup.
    destruct (bool_decide (name ∈ map Js.trim (Js.split_comma fields)))
      eqn:Hin; [|reflexivity].
    apply bool_decide_eq_true_1 in Hin.
    now rewrite (retrievable_not_key name (Hall name Hin)). }
  split; [now apply projection_distinct|].
  rewrite (getUserInfo_checked userId fields w item Hall Ha Hget). split.
  - intros (f & Hin & Hsome).
    rewrite bool_decide_eq_false_2.
    + eexists. split; [reflexivity|exact Hlookup].
    + intros Hempty. apply (f_equal (lookup f)) in Hempty.
      rewrite Hlookup, lookup_empty, bool_decide_eq_true_2 in Hempty
        by assumption.
      rewrite Hempty in Hsome. now destruct Hsome.
  - intros Hnone. rewrite bool_decide_eq_true_2; [reflexivity|].
    apply map_eq. intros name. rewrite Hlookup, lookup_empty.
    destruct (bool_decide (name ∈ map Js.trim (Js.split_comma fields)))
      eqn:Hin; [|reflexivity].
    apply bool_decide_eq_true_1 in Hin. now apply Hnone.
Qed.

(** X10. SetProfile, then GetProfile. For a field that lower-cases into the
    mutable allow-list and an id some item has, [setUserInfo] with that one
    field succeeds with one update, and [getUserInfo] of the same field name
    on the table it leaves answers that field alone, with the value just
    set. *)
Theorem setUserInfo_then_getUserInfo {P : Platform}
    (userId field value : string) (w : World) (item : Item) :
  mutable_field field = true →
  Dynamo.get_item userId (db w) = Some item →
  let w' := updated userId [(field, value)] w in
  setUserInfo TABLE_NAME userId [(field, value)] w = (Return tt, w')
  ∧ getUserInfo TABLE_NAME userId field w' = (Return {[field := value]}, w').
Proof.
  intros Hmutable Hget w'.
  destruct (get_item_Some _ _ _ Hget) as [Hin Hid].
  pose proof (mutable_field_retrievable field Hmutable) as Hretr.
  destruct (retrievable_field_plain field Hretr) as [Hfields Hkey].
  split.
  - unfold setUserInfo. rewrite validateTableName_ok. mstep.
    cbn [map fst check_fields]. fold (mutable_field field).
    rewrite Hmutable. mstep.
    now rewrite (databaseEditUser_done userId [(field, value)] w item Hin Hid)
      by discriminate.
  - rewrite (getUserInfo_checked userId field w'
               (Dynamo.set_attrs [(field, value)] item)).
    + assert (Hproj : Dynamo.project field
                        (Dynamo.set_attrs [(field, value)] item)
                      = {[field := value]}).
      { apply map_eq. intros name. rewrite project_lookup, Hfields.
        destruct (decide (name = field)) as [->|Hne].
        - rewrite bool_decide_eq_true_2 by left.
          apply String.eqb_neq in Hkey. rewrite Hkey. simpl.
          now rewrite lookup_insert_eq, lookup_singleton_eq.
        - rewrite bool_decide_eq_false_2.
          + now rewrite lookup_singleton_ne.
          + intros H. apply list_elem_of_singleton in H. contradiction. }
      rewrite Hproj. rewrite bool_decide_eq_false_2; [reflexivity|].
      intros Hempty. apply (f_equal (lookup field)) in Hempty.
      rewrite lookup_singleton_eq, lookup_empty in Hempty. discriminate.
    + rewrite Hfields. intros f Hf.
      apply list_elem_of_singleton in Hf as ->. assumption.
    + now apply retrievable_field_accepted.
    + change (db w') with (Dynamo.update_item userId [(field, value)] (db w)).
      now rewrite get_item_update_item, Hget.
Qed.

(** X11. SetProfile writes mutable fields of one item only. Whatever the
    collection name, the id and the field map, and whether the call answers
    or throws, the table [setUserInfo] leaves has the same ids in the same
    order; an item under another id is as it was; and no item has changed
    under a name that does not lower-case into the mutable allow-list, so
    [email], [password_hash], [provider] and the reset fields are out of
    reach of a profile update. *)
Theorem setUserInfo_writes_mutable_fields_only (table userId : string)
    (info : list (string * string)) (w : World) :
  keys (db (setUserInfo table userId info w).2) = keys (db w)
  ∧ ∀ x', x' ∈ db (setUserInfo table userId info w).2 →
      ∃ x, x ∈ db w ∧ user_id x' = user_id x
           ∧ (user_id x ≠ userId → x' = x)
           ∧ ∀ name, mutable_field name = false → attr name x' = attr name x.
Proof.
  assert (Hsame : ∀ tbl : list Item, ∀ x', x' ∈ tbl →
            ∃ x, x ∈ tbl ∧ user_id x' = user_id x
                 ∧ (user_id x ≠ userId → x' = x)
                 ∧ ∀ name, mutable_field name = false →
                           attr name x' = attr name x).
  { intros tbl x' Hx'. exists x'. repeat split; auto. }
  unfold setUserInfo, validateTableName.
  destruct (String.eqb_spec table TABLE_NAME) as [->|Hne]; mstep;
    [|split; [reflexivity|apply Hsame]].
  destruct (check_fields_effect ADDITIONAL_USER_FIELDS (map fst info) w)
    as [[e He]|[He Hall]]; rewrite He; [split; [reflexivity|apply Hsame]|].
  destruct (databaseEditUser_effect TABLE_NAME userId info w) as [[e He']|He'];
    rewrite He'; [split; [reflexivity|apply Hsame]|].
  cbn [snd db]. split; [apply keys_update_item|].
  intros x' Hx'. apply list_elem_of_fmap in Hx' as (x & -> & Hx).
  exists x. split; [assumption|].
  destruct (Dynamo.has_key userId x) eqn:Hk.
  - apply has_key_true in Hk. split; [reflexivity|].
    split; [intros Hne; contradiction|].
    intros name Hname. apply attr_set_attrs_notin.
    intros Hin. specialize (Hall name Hin).
    unfold mutable_field in Hname. congruence.
  - repeat split; auto.
Qed.

(** ** The reset flow, case by case *)

Section ResetCases.

Context {P : Platform}.

(** [sendPasswordResetToken] as a decision on the first item the scan finds
    with the email. *)
Lemma sendPasswordResetToken_cases (env : Env) (email : string) (w : World) :
  sendPasswordResetToken env TABLE_NAME email w
  = if negb (email_validate email)
    then (Throw (ErrorWithStatus "Email does not exist" 400), w)
    else match find_by_email email (db w) with
         | None => (Throw (ErrorWithStatus "Email does not exist" 400), w)
         | Some item =>
             if Js.truthy (attr "provider" item)
             then (Throw (no_password_to_reset item), w)
             else if String.eqb (user_id item) ""
                  then (Throw (ErrorWithStatus "Email does not exist" 400), w)
                  else (if env_smtp env then Return (env_token env)
                        else Throw email_failed,
                        mailed (TokenMail email (env_token env)) (env_smtp env)
                          (updated (user_id item)
                             (reset_issued
                                (bcrypt_hash (env_token env) (env_salt env))
                                (toISOString (env_now env + one_hour))) w))
         end.
Proof.
  destruct (email_validate email) eqn:Hvalid; cbn [negb].
  2:{ unfold sendPasswordResetToken. rewrite validateTableName_ok, Hvalid.
      reflexivity. }
  destruct (find_by_email email (db w)) as [item|] eqn:Hf.
  - destruct (Js.truthy (attr "provider" item)) eqn:Hprov.
    + now apply sendPasswordResetToken_oauth.
    + destruct (String.eqb_spec (user_id item) "") as [Hid|Hid].
      * destruct (find_by_email_Some _ _ _ Hf) as [Hin Hmail].
        unfold sendPasswordResetToken. rewrite validateTableName_ok, Hvalid.
        mstep. unfold Dynamo.scan. rewrite on_table_ok.
        rewrite (scan_first
                   (fun item _ => sendPasswordResetToken_scan email [item])
                   (ret "") (sendPasswordResetToken_scan email) email)
          with (item := item); [| |assumption].
        -- cbn [sendPasswordResetToken_scan].
           apply strict_eq_true in Hmail. rewrite Hmail, Hprov, Hid.
           reflexivity.
        -- intros y rest. cbn [sendPasswordResetToken_scan].
           destruct (Js.strict_eq (attr "email" y) email); reflexivity.
      * now apply sendPasswordResetToken_found.
  - unfold sendPasswordResetToken. rewrite validateTableName_ok, Hvalid.
    mstep. unfold Dynamo.scan. rewrite on_table_ok.
    rewrite (scan_none
               (fun item => sendPasswordResetToken_scan email [item])
               (ret "") (sendPasswordResetToken_scan email) email);
      [reflexivity|reflexivity| |assumption].
    intros y rest. cbn [sendPasswordResetToken_scan].
    destruct (Js.strict_eq (attr "email" y) email); reflexivity.
Qed.

(** [resetPassword] as a decision on the first item the scan finds with the
    email. *)
Lemma resetPassword_cases (env : Env) (email token newPassword : string)
    (w : World) :
  resetPassword env TABLE_NAME email token newPassword w
  = if negb (email_validate email)
    then (Throw (ErrorWithStatus "Email does not exist" 400), w)
    else
      match find_by_email email (db w) with
      | None => (Throw (ErrorWithStatus "Email does not exist" 400), w)
      | Some item =>
          if Js.truthy (attr "provider" item)
          then (Throw (no_password_to_reset item), w)
          else
            match attr "password_hash" item with
            | None => (Throw (JsError "Illegal arguments: string, undefined"), w)
            | Some h =>
                if bcrypt_verify newPassword h then (Throw same_password, w)
                else
                  match attr "resetToken" item, attr "tokenExpiry" item with
                  | Some t, Some x =>
                      if String.eqb t "" || String.eqb x ""
                      then (Throw invalid_token, w)
                      else if date_ge (env_now env) (parse_date x)
                      then (Throw invalid_token,
                            updated (user_id item) reset_cleared w)
                      else if bcrypt_verify token t
                      then if String.eqb (user_id item) ""
                           then (Throw (ErrorWithStatus
                                          "Email does not exist" 400), w)
                           else (if env_smtp env then Return tt
                                 else Throw email_failed,
                                 mailed (ResetConfirmation email) (env_smtp env)
                                   (updated (user_id item)
                                      (password_reset
                                         (bcrypt_hash newPassword
                                            (env_salt env))) w))
                      else (Throw invalid_token, w)
                  | _, _ => (Throw invalid_token, w)
                  end
            end
      end.
Proof.
  destruct (email_validate email) eqn:Hvalid; cbn [negb].
  2:{ unfold resetPassword. rewrite validateTableName_ok, Hvalid.
      reflexivity. }
  destruct (find_by_email email (db w)) as [item|] eqn:Hf.
  - destruct (Js.truthy (attr "provider" item)) eqn:Hprov;
      [now apply resetPassword_oauth|].
    destruct (find_by_email_Some _ _ _ Hf) as [Hin Hmail].
    assert (Hscan :
      resetPassword env TABLE_NAME email token newPassword w
      = bind (resetPassword_scan env TABLE_NAME email token newPassword [item])
          (fun userId =>
             bind (if String.eqb userId ""
                   then throw (ErrorWithStatus "Email does not exist" 400)
                   else ret tt)
               (fun _ =>
                  bind (databaseEditUser TABLE_NAME userId
                          (password_reset
                             (bcrypt_hash newPassword (env_salt env))))
                    (fun _ => sendPasswordResetEmail env email))) w).
    { unfold resetPassword. rewrite validateTableName_ok, Hvalid.
      mstep. unfold Dynamo.scan. rewrite on_table_ok.
      rewrite (scan_first
                 (fun item _ =>
                    resetPassword_scan env TABLE_NAME email token newPassword
                      [item])
                 (ret "")
                 (resetPassword_scan env TABLE_NAME email token newPassword)
                 email) with (item := item); [reflexivity| |assumption].
      intros y rest. cbn [resetPassword_scan].
      destruct (Js.strict_eq (attr "email" y) email); reflexivity. }
    rewrite Hscan. clear Hscan. cbn [resetPassword_scan].
    apply strict_eq_true in Hmail. rewrite Hmail, Hprov. mstep.
    destruct (attr "password_hash" item) as [h|]; mstep; [|reflexivity].
    destruct (bcrypt_verify newPassword h); mstep; [reflexivity|].
    destruct (attr "resetToken" item) as [t|]; cbn [undefined_or_empty orb];
      mstep; [|reflexivity].
    destruct (attr "tokenExpiry" item) as [x|]; cbn [undefined_or_empty];
      [|rewrite orb_true_r; reflexivity].
    destruct (String.eqb t "" || String.eqb x ""); mstep; [reflexivity|].
    cbn [Js.show].
    destruct (date_ge (env_now env) (parse_date x)); mstep.
    + now rewrite (databaseEditUser_done (user_id item) _ w item Hin eq_refl)
        by discriminate.
    + destruct (bcrypt_verify token t); mstep; [|reflexivity].
      destruct (String.eqb (user_id item) ""); mstep; [reflexivity|].
      rewrite (databaseEditUser_done (user_id item) _ w item Hin eq_refl)
        by discriminate.
      unfold sendPasswordResetEmail, sendMail, mailed, updated. mstep.
      destruct (env_smtp env); reflexivity.
  - unfold resetPassword. rewrite validateTableName_ok, Hvalid.
    mstep. unfold Dynamo.scan. rewrite on_table_ok.
    rewrite (scan_none
               (fun item =>
                  resetPassword_scan env TABLE_NAME email token newPassword
                    [item])
               (ret "")
               (resetPassword_scan env TABLE_NAME email token newPassword)
               email);
      [reflexivity|reflexivity| |assumption].
    intros y rest. cbn [resetPassword_scan].
    destruct (Js.strict_eq (attr "email" y) email); reflexivity.
Qed.

End ResetCases.

(** ** What a success proves *)

Section Soundness.

Context {P : Platform}.

Lemma authenticateUser_scan_sound (email password : string) (items : list Item)
    (w w' : World) (userId : string) :
  authenticateUser_scan email password items w = (Return userId, w') →
  w' = w
  ∧ ∃ item h, item ∈ items ∧ user_id item = userId ∧ has_email email item
              ∧ Js.truthy (attr "provider" item) = false
              ∧ attr "password_hash" item = Some h
              ∧ bcrypt_verify password h = true.
Proof.
  induction items as [|item rest IH]; cbn [authenticateUser_scan];
    [discriminate|].
  assert (Hrest : authenticateUser_scan email password rest w
                  = (Return userId, w') →
                  w' = w
                  ∧ ∃ item0 h, item0 ∈ item :: rest ∧ user_id item0 = userId
                      ∧ has_email email item0
                      ∧ Js.truthy (attr "provider" item0) = false
                      ∧ attr "password_hash" item0 = Some h
                      ∧ bcrypt_verify password h = true).
  { intros H. destruct (IH H) as (Hw & x & h & Hx & Hrest).
    split; [assumption|]. exists x, h. split; [now right|assumption]. }
  destruct (Js.strict_eq (attr "email" item) email) eqn:Heq; [|assumption].
  destruct (Js.truthy (attr "provider" item)) eqn:Hprov; [discriminate|].
  destruct (attr "password_hash" item) as [h|] eqn:Hh; mstep; [|discriminate].
  destruct (bcrypt_verify password h) eqn:Hv; [|assumption].
  intros H. inversion H; subst. split; [reflexivity|].
  exists item, h. apply strict_eq_true in Heq.
  split; [left|]. repeat split; assumption.
Qed.

Lemma authenticateUser_sound (table email password : string) (w w' : World)
    (userId : string) :
  authenticateUser table email password w = (Return userId, w') →
  table = TABLE_NAME ∧ w' = w
  ∧ ∃ item h, item ∈ db w ∧ user_id item = userId ∧ has_email email item
              ∧ Js.truthy (attr "provider" item) = false
              ∧ attr "password_hash" item = Some h
              ∧ bcrypt_verify password h = true.
Proof.
  unfold authenticateUser, validateTableName.
  destruct (String.eqb_spec table TABLE_NAME) as [->|Hne]; mstep;
    [|discriminate].
  unfold Dynamo.scan. rewrite on_table_ok. intros H.
  split; [reflexivity|].
  apply authenticateUser_scan_sound in H as (Hw & item & h & Hin & Hrest).
  split; [assumption|]. exists item, h.
  split; [now apply page_elem|assumption].
Qed.

(** X12. Authenticate is sound. Whatever the table, when [authenticateUser]
    answers an id, the collection name is the configured one, nothing was
    written, and the table has an item under that id which holds the email,
    holds no (non-empty) provider, and holds a digest that bcrypt verifies
    the password against: no id is answered for a password that verifies
    against no digest stored with the email. *)
Theorem authenticateUser_answers_only_verified (table email password : string)
    (w w' : World) (userId : string) :
  authenticateUser table email password w = (Return userId, w') →
  table = TABLE_NAME ∧ w' = w
  ∧ ∃ item h, item ∈ db w ∧ user_id item = userId ∧ has_email email item
              ∧ Js.truthy (attr "provider" item) = false
              ∧ attr "password_hash" item = Some h
              ∧ bcrypt_verify password h = true.
Proof. apply authenticateUser_sound. Qed.

(** X13. ChangePassword demands the old password. Whatever the table, when
    [changePassword] succeeds, the two passwords differ, the table had an
    item holding the email, no provider, and a digest that bcrypt verifies
    the old password against, and the one write is the update of that item's
    [password_hash] to the digest of the new password. *)
Theorem changePassword_demands_old_password (env : Env)
    (table email oldPassword newPassword : string) (w w' : World) :
  changePassword env table email oldPassword newPassword w = (Return tt, w') →
  oldPassword ≠ newPassword
  ∧ ∃ item h, item ∈ db w ∧ has_email email item
              ∧ Js.truthy (attr "provider" item) = false
              ∧ attr "password_hash" item = Some h
              ∧ bcrypt_verify oldPassword h = true
              ∧ w' = updated (user_id item)
                       [("password_hash",
                         bcrypt_hash newPassword (env_salt env))] w.
Proof.
  unfold changePassword, validateTableName.
  destruct (String.eqb_spec table TABLE_NAME) as [->|Hne]; mstep;
    [|discriminate].
  destruct (String.eqb_spec oldPassword newPassword) as [Heq|Hdiff]; mstep;
    [discriminate|].
  destruct (authenticateUser TABLE_NAME email oldPassword w)
    as [[userId|e] w0] eqn:Hauth.
  - apply authenticateUser_sound in Hauth
      as (_ & -> & item & h & Hin & Hid & Hmail & Hprov & Hh & Hv).
    subst userId.
    rewrite (databaseEditUser_done (user_id item) _ w item Hin eq_refl)
      by discriminate.
    intros H. inversion H; subst. split; [assumption|].
    exists item, h. repeat split; assumption.
  - destruct (bool_decide (statusCode_of e = Some 403)); discriminate.
Qed.

Lemma resetPassword_success (env : Env)
    (email token newPassword : string) (w w' : World) :
  resetPassword env TABLE_NAME email token newPassword w = (Return tt, w') →
  email_validate email = true
  ∧ ∃ item h t x,
      find_by_email email (db w) = Some item
      ∧ Js.truthy (attr "provider" item) = false
      ∧ attr "password_hash" item = Some h
      ∧ bcrypt_verify newPassword h = false
      ∧ pending_reset item t x
      ∧ bcrypt_verify token t = true
      ∧ date_ge (env_now env) (parse_date x) = false
      ∧ env_smtp env = true
      ∧ w' = mailed (ResetConfirmation email) true
               (updated (user_id item)
                  (password_reset (bcrypt_hash newPassword (env_salt env))) w).
Proof.
  rewrite resetPassword_cases.
  destruct (email_validate email); cbn [negb]; [|discriminate].
  destruct (find_by_email email (db w)) as [item|]; [|discriminate].
  destruct (Js.truthy (attr "provider" item)) eqn:Hprov; [discriminate|].
  destruct (attr "password_hash" item) as [h|] eqn:Hh; [|discriminate].
  destruct (bcrypt_verify newPassword h) eqn:Hnew; [discriminate|].
  destruct (attr "resetToken" item) as [t|] eqn:Ht; [|discriminate].
  destruct (attr "tokenExpiry" item) as [x|] eqn:Hx; [|discriminate].
  destruct (String.eqb_spec t "") as [->|Htne]; [discriminate|].
  destruct (String.eqb_spec x "") as [->|Hxne]; [discriminate|].
  cbn [orb].
  destruct (date_ge (env_now env) (parse_date x)) eqn:Hdate; [discriminate|].
  destruct (bcrypt_verify token t) eqn:Htok; [|discriminate].
  destruct (String.eqb (user_id item) ""); [discriminate|].
  destruct (env_smtp env) eqn:Hsmtp; [|discriminate].
  intros H. inversion H; subst. split; [reflexivity|].
  exists item, h, t, x. repeat split; assumption.
Qed.

(** X14. ResetPassword demands a live token. When [resetPassword] succeeds on
    the configured collection, the email passed the syntax check and the scan
    found for it an item with no (non-empty) provider, a digest the new
    password does not verify against, a non-empty token digest that bcrypt
    verifies the token against, and a non-empty expiry that is not reached
    (or is no date); the confirmation mail was delivered; and the one write
    is the update that clears both reset fields and assigns the digest of the
    new password. *)
Theorem resetPassword_demands_live_token (env : Env)
    (email token newPassword : string) (w w' : World) :
  resetPassword env TABLE_NAME email token newPassword w = (Return tt, w') →
  email_validate email = true
  ∧ ∃ item h t x,
      find_by_email email (db w) = Some item
      ∧ Js.truthy (attr "provider" item) = false
      ∧ attr "password_hash" item = Some h
      ∧ bcrypt_verify newPassword h = false
      ∧ pending_reset item t x
      ∧ bcrypt_verify token t = true
      ∧ date_ge (env_now env) (parse_date x) = false
      ∧ env_smtp env = true
      ∧ w' = mailed (ResetConfirmation email) true
               (updated (user_id item)
                  (password_reset (bcrypt_hash newPassword (env_salt env))) w).
Proof. apply resetPassword_success. Qed.

End Soundness.

Lemma authenticateUser_answers_only_verified_witness :
  TABLE_NAME = TABLE_NAME ∧ bob_world = bob_world
  ∧ ∃ item h, item ∈ db bob_world ∧ user_id item = "id-1"
              ∧ has_email "a@x.com" item
              ∧ Js.truthy (attr "provider" item) = false
              ∧ attr "password_hash" item = Some h
              ∧ bcrypt_verify (Platform := Sample.platform) "pw1" h = true.
Proof.
  apply (authenticateUser_answers_only_verified (P := Sample.platform)
           TABLE_NAME "a@x.com" "pw1" bob_world bob_world "id-1").
  vm_compute. reflexivity.
Defined.

Lemma changePassword_demands_old_password_witness :
  "pw1" ≠ "pw2"
  ∧ ∃ item h, item ∈ db bob_world ∧ has_email "a@x.com" item
              ∧ Js.truthy (attr "provider" item) = false
              ∧ attr "password_hash" item = Some h
              ∧ bcrypt_verify (Platform := Sample.platform) "pw1" h = true
              ∧ updated "id-1" [("password_hash", "$salt$pw2")] bob_world
                = updated (user_id item)
                    [("password_hash",
                      bcrypt_hash (Platform := Sample.platform) "pw2"
                        (env_salt Sample.env))] bob_world.
Proof.
  apply (changePassword_demands_old_password (P := Sample.platform) Sample.env
           TABLE_NAME "a@x.com" "pw1" "pw2" bob_world
           (updated "id-1" [("password_hash", "$salt$pw2")] bob_world)).
  vm_compute. reflexivity.
Defined.

Lemma resetPassword_demands_live_token_witness :
  email_validate (Platform := Sample.platform) "a@x.com" = true
  ∧ ∃ item h t x,
      find_by_email (P := Sample.platform) "a@x.com" (db pending_world) = Some item
      ∧ Js.truthy (attr "provider" item) = false
      ∧ attr "password_hash" item = Some h
      ∧ bcrypt_verify (Platform := Sample.platform) "pw9" h = false
      ∧ pending_reset item t x
      ∧ bcrypt_verify (Platform := Sample.platform) "c0ffee" t = true
      ∧ date_ge (env_now soon_env)
          (parse_date (Platform := Sample.platform) x) = false
      ∧ env_smtp soon_env = true
      ∧ mailed (ResetConfirmation "a@x.com") true
          (updated "id-1" (password_reset "$sugar$pw9") pending_world)
        = mailed (ResetConfirmation "a@x.com") true
            (updated (user_id item)
               (password_reset
                  (bcrypt_hash (Platform := Sample.platform) "pw9"
                     (env_salt soon_env))) pending_world).
Proof.
  apply (resetPassword_demands_live_token (P := Sample.platform) soon_env
           "a@x.com" "c0ffee" "pw9" pending_world
           (mailed (ResetConfirmation "a@x.com") true
              (updated "id-1" (password_reset "$sugar$pw9") pending_world))).
  vm_compute. reflexivity.
Defined.

(** ** The reset flow: refusals and the life of a token *)

Section TokenLife.

Context {P : Platform}.

(** X15. An unknown email and a malformed one look alike in the reset flow.
    When the email fails the syntax check, and when it passes but no item
    holds it, [sendPasswordResetToken] and [resetPassword] both throw the
    same error, status 400, "Email does not exist", write nothing and send
    no mail. *)
Theorem reset_flow_unknown_email (env : Env) (email token newPassword : string)
    (w : World) :
  email_validate email = false ∨ unknown_email email (db w) →
  sendPasswordResetToken env TABLE_NAME email w
  = (Throw (ErrorWithStatus "Email does not exist" 400), w)
  ∧ resetPassword env TABLE_NAME email token newPassword w
    = (Throw (ErrorWithStatus "Email does not exist" 400), w).
Proof.
  intros H. rewrite sendPasswordResetToken_cases, resetPassword_cases.
  destruct H as [Hinvalid|Hunknown].
  - rewrite Hinvalid. split; reflexivity.
  - apply find_by_email_None in Hunknown. rewrite Hunknown.
    destruct (email_validate email); split; reflexivity.
Qed.

(** X16. The token is stored before the mail is sent. When the scan finds a
    password item for a valid email and the transport fails,
    [sendPasswordResetToken] throws status 500, "Email failed to send", yet
    the update that stores the token digest and the expiry, one hour ahead,
    has been made and stays: the log shows the update, then the failed
    mail, and the item the scan now finds holds both fields. *)
Theorem sendPasswordResetToken_stores_then_mails (env : Env) (email : string)
    (w : World) (item : Item) :
  email_validate email = true →
  find_by_email email (db w) = Some item →
  Js.truthy (attr "provider" item) = false →
  user_id item ≠ "" →
  env_smtp env = false →
  let tokenHash := bcrypt_hash (env_token env) (env_salt env) in
  let expiry := toISOString (env_now env + 3600000) in
  let w' := (sendPasswordResetToken env TABLE_NAME email w).2 in
  (sendPasswordResetToken env TABLE_NAME email w).1
  = Throw (ErrorWithStatus "Email failed to send" 500)
  ∧ log w'
    = (log w ++ [EvUpdate (user_id item) (reset_issued tokenHash expiry);
                 EvMail (TokenMail email (env_token env)) false])%list
  ∧ ∃ item', find_by_email email (db w') = Some item'
             ∧ user_id item' = user_id item
             ∧ attr "resetToken" item' = Some tokenHash
             ∧ attr "tokenExpiry" item' = Some expiry
             ∧ attr "password_hash" item' = attr "password_hash" item.
Proof.
  intros Hvalid Hf Hprov Hid Hdown tokenHash expiry.
  rewrite (sendPasswordResetToken_found env email w item) by assumption.
  rewrite Hdown. cbn [fst snd]. split; [reflexivity|]. split.
  - unfold mailed, updated. cbn [log]. now rewrite <- app_assoc.
  - exists (Dynamo.set_attrs (reset_issued tokenHash expiry) item).
    destruct (attrs_reset_issued tokenHash expiry item) as [Ht Hx].
    split; [|split; [reflexivity|split; [exact Ht|split; [exact Hx|]]]].
    + apply (find_by_email_updated email (reset_issued tokenHash expiry));
        [apply not_email_reset_issued|assumption].
    + apply attr_set_attrs_notin, not_hash_reset_issued.
Qed.

(** X17. An expired token is dead for good. Let the scan find, for a valid
    email, a password account with a reset pending whose expiry is reached,
    and let the new password not verify against the account's digest. Then
    [resetPassword] throws "Invalid Token" and clears the reset fields; and
    on the table it leaves, every further [resetPassword] for the email,
    whatever its token, its new password and its time, throws status 400 and
    writes nothing. *)
Theorem expired_token_is_dead (env : Env) (email token newPassword : string)
    (w : World) (item : Item) (h t x : string) (expiry : Z) :
  email_validate email = true →
  find_by_email email (db w) = Some item →
  password_account item →
  attr "password_hash" item = Some h →
  bcrypt_verify newPassword h = false →
  pending_reset item t x →
  parse_date x = Some expiry → expiry <= env_now env →
  let w' := updated (user_id item) reset_cleared w in
  resetPassword env TABLE_NAME email token newPassword w
  = (Throw (ErrorWithStatus "Invalid Token" 400), w')
  ∧ ∀ env' token' newPassword',
      ∃ message,
        resetPassword env' TABLE_NAME email token' newPassword' w'
        = (Throw (ErrorWithStatus message 400), w').
Proof.
  intros Hvalid Hf [_ Hprov] Hh Hnew Hpending Hparse Hle w'.
  assert (Hfalsy : Js.truthy (attr "provider" item) = false)
    by now rewrite Hprov.
  split.
  - rewrite (resetPassword_found env email token newPassword w item h t x)
      by assumption.
    rewrite Hparse. simpl date_ge. apply Z.leb_le in Hle. now rewrite Hle.
  - intros env' token' newPassword'.
    apply (resetPassword_no_pending env' email token' newPassword' w'
             (Dynamo.set_attrs reset_cleared item) h).
    + assumption.
    + apply (find_by_email_updated email reset_cleared);
        [apply (not_email_reset_issued "" "")|assumption].
    + rewrite attr_set_attrs_notin;
        [assumption|apply (not_provider_reset_issued "" "")].
    + rewrite attr_set_attrs_notin;
        [assumption|apply (not_hash_reset_issued "" "")].
    + apply attrs_reset_cleared.
Qed.

(** X18. A new token replaces the old one. After two calls of
    [sendPasswordResetToken] for the email of a password item (the email
    valid, the key not empty, the mails delivered or not), the item the scan
    finds holds the digest and the expiry of the second call only; so a
    later [resetPassword] with the token of the first call succeeds only if
    bcrypt verifies that token against the digest of the second. *)
Theorem second_token_replaces_first (first second : Env) (email : string)
    (w : World) (item : Item) :
  email_validate email = true →
  find_by_email email (db w) = Some item →
  Js.truthy (attr "provider" item) = false →
  user_id item ≠ "" →
  let w1 := (sendPasswordResetToken first TABLE_NAME email w).2 in
  let w2 := (sendPasswordResetToken second TABLE_NAME email w1).2 in
  let tokenHash := bcrypt_hash (env_token second) (env_salt second) in
  let expiry := toISOString (env_now second + 3600000) in
  (∃ item2, find_by_email email (db w2) = Some item2
            ∧ user_id item2 = user_id item
            ∧ attr "resetToken" item2 = Some tokenHash
            ∧ attr "tokenExpiry" item2 = Some expiry)
  ∧ ∀ env newPassword w3,
      resetPassword env TABLE_NAME email (env_token first) newPassword w2
      = (Return tt, w3) →
      bcrypt_verify (env_token first) tokenHash = true.
Proof.
  intros Hvalid Hf Hprov Hid w1 w2 tokenHash expiry.
  set (fields1 := reset_issued (bcrypt_hash (env_token first) (env_salt first))
                    (toISOString (env_now first + one_hour))).
  set (item1 := Dynamo.set_attrs fields1 item).
  assert (Hw1 : w1 = mailed (TokenMail email (env_token first)) (env_smtp first)
                       (updated (user_id item) fields1 w)).
  { unfold w1.
    now rewrite (sendPasswordResetToken_found first email w item) by assumption. }
  assert (Hf1 : find_by_email email (db w1) = Some item1).
  { rewrite Hw1.
    apply (find_by_email_updated email fields1);
      [apply not_email_reset_issued|assumption]. }
  assert (Hprov1 : Js.truthy (attr "provider" item1) = false).
  { unfold item1. rewrite attr_set_attrs_notin;
      [assumption|apply not_provider_reset_issued]. }
  set (item2 := Dynamo.set_attrs (reset_issued tokenHash expiry) item1).
  assert (Hw2 : w2 = mailed (TokenMail email (env_token second))
                       (env_smtp second)
                       (updated (user_id item)
                          (reset_issued tokenHash expiry) w1)).
  { unfold w2.
    now rewrite (sendPasswordResetToken_found second email w1 item1)
      by assumption. }
  assert (Hf2 : find_by_email email (db w2) = Some item2).
  { rewrite Hw2.
    apply (find_by_email_updated email (reset_issued tokenHash expiry)
             (db w1) item1);
      [apply not_email_reset_issued|assumption]. }
  destruct (attrs_reset_issued tokenHash expiry item1) as [Ht2 Hx2].
  split.
  - exists item2. repeat split; assumption.
  - intros env newPassword w3 Hok.
    apply resetPassword_success
      in Hok as (_ & it & h & t & x & Hfit & _ & _ & _ & (Ht & _) & Hv & _).
    rewrite Hf2 in Hfit. inversion Hfit; subst it.
    fold item2 in Ht2. rewrite Ht2 in Ht. inversion Ht; subst t. exact Hv.
Qed.

End TokenLife.


(** ** The statuses of a call *)

Lemma call_throws {A B} (m : M A) (f : A → B) (w : World) (e : Exn) :
  (bind m (fun a => ret (f a)) w).1 = Throw e → (m w).1 = Throw e.
Proof.
  unfold bind, ret. destruct (m w) as [[a|e0] w']; simpl; congruence.
Qed.

(** The goal [(Throw e0, w).1 = Throw e → http_status e ∈ l]. *)
Ltac thrown :=
  let H := fresh "H" in
  intros H; cbn [fst] in H; inversion H; subst; clear H;
  cbn [http_status statusCode_of Z.eqb no_password_to_reset invalid_token
       same_password email_failed wrong_method wrong_provider
       authenticateUser_failure email_taken];
  in_table.

Ltac returned :=
  let H := fresh "H" in intros H; cbn [fst] in H; discriminate H.

Lemma databaseEditUser_throws (table uid : string)
    (fields : list (string * string)) (w w' : World) (e : Exn) :
  databaseEditUser table uid fields w = (Throw e, w') →
  e = ErrorWithStatus "User Id does not exist" 400.
Proof.
  unfold databaseEditUser, try_catch, Dynamo.update, Dynamo.on_table,
    Dynamo.resource_not_found, throw.
  destruct (String.eqb table TABLE_NAME); [|congruence].
  destruct fields as [|f fields]; [congruence|].
  destruct (Dynamo.exists_key uid (db w)); congruence.
Qed.

Lemma check_fields_status (allowed fields : list string) (w w' : World)
    (e : Exn) :
  check_fields allowed fields w = (Throw e, w') → http_status e = 400.
Proof.
  induction fields as [|f rest IH]; [discriminate|].
  cbn [check_fields].
  destruct (Js.includes allowed (Js.toLowerCase f)); cbn [negb];
    [assumption|].
  intros H. inversion H. reflexivity.
Qed.

Lemma registerUser_scan_status (email : string) (items : list Item)
    (w w' : World) (e : Exn) :
  registerUser_scan email items w = (Throw e, w') → http_status e = 409.
Proof.
  induction items as [|item rest IH]; [discriminate|].
  cbn [registerUser_scan].
  destruct (Js.strict_eq (attr "email" item) email); [|assumption].
  intros H. inversion H. reflexivity.
Qed.

Section Statuses.

Context {P : Platform}.

Lemma authenticateUser_scan_status (email password : string)
    (items : list Item) (w w' : World) (e : Exn) :
  authenticateUser_scan email password items w = (Throw e, w') →
  http_status e ∈ [401; 403; 500].
Proof.
  induction items as [|item rest IH]; cbn [authenticateUser_scan].
  - intros H. inversion H. in_table.
  - destruct (Js.strict_eq (attr "email" item) email); [|assumption].
    destruct (Js.truthy (attr "provider" item)).
    + intros H. inversion H. in_table.
    + destruct (attr "password_hash" item) as [h|]; mstep.
      * destruct (bcrypt_verify password h); [discriminate|assumption].
      * intros H. inversion H. in_table.
Qed.

Lemma authenticateUser_status (table email password : string) (w w' : World)
    (e : Exn) :
  authenticateUser table email password w = (Throw e, w') →
  http_status e ∈ [400; 401; 403; 500].
Proof.
  unfold authenticateUser, validateTableName.
  destruct (String.eqb_spec table TABLE_NAME) as [->|Hne]; mstep.
  - unfold Dynamo.scan. rewrite on_table_ok. intros H.
    apply authenticateUser_scan_status in H.
    now apply list_elem_of_further.
  - intros H. inversion H. in_table.
Qed.

Lemma call_throw_status (env : Env) (c : Call) (w : World) (e : Exn) :
  (call env c w).1 = Throw e → http_status e ∈ statuses_of c.
Proof.
  destruct c as [table username password email|table email password
                 |table username provider email|table uid info
                 |table uid fields|table email oldPassword newPassword
                 |table userId|table email|table email token newPassword];
    unfold call; intros H; apply call_throws in H; revert H;
    cbn [statuses_of].
  - (* Register *)
    unfold registerUser, validateTableName.
    destruct (String.eqb_spec table TABLE_NAME) as [->|Hne]; mstep;
      [|thrown].
    destruct (email_validate email); mstep; [|thrown].
    unfold Dynamo.scan. rewrite on_table_ok.
    destruct (registerUser_scan email (Dynamo.page (db w)) w)
      as [[[]|e0] w0] eqn:Hscan.
    + rewrite databaseAddUser_password. returned.
    + apply registerUser_scan_status in Hscan.
      intros H. cbn [fst] in H. inversion H; subst. rewrite Hscan. in_table.
  - (* Authenticate *)
    destruct (authenticateUser table email password w) as [[a|e0] w0] eqn:Hc;
      [returned|].
    intros H. cbn [fst] in H. inversion H; subst.
    eapply authenticateUser_status; eassumption.
  - (* AuthenticateOrRegisterOAuth *)
    destruct (String.eqb_spec table TABLE_NAME) as [->|Hne].
    + destruct (find_by_email email (db w)) as [item|] eqn:Hf.
      * rewrite (authenticateOauthUser_found env username provider email w
                   item Hf).
        destruct (Js.truthy (attr "password_hash" item)); [thrown|].
        destruct (Js.strict_eq (attr "provider" item) provider);
          [returned|thrown].
      * rewrite (authenticateOauthUser_new env username provider email w Hf).
        returned.
    + unfold authenticateOauthUser. mstep.
      rewrite (validateTableName_wrong table w Hne). thrown.
  - (* SetProfile *)
    unfold setUserInfo, validateTableName.
    destruct (String.eqb_spec table TABLE_NAME) as [->|Hne]; mstep;
      [|thrown].
    destruct (check_fields ADDITIONAL_USER_FIELDS (map fst info) w)
      as [[[]|e0] w0] eqn:Hcheck.
    + destruct (databaseEditUser TABLE_NAME uid info w0) as [[[]|e1] w1];
        [returned|thrown].
    + apply check_fields_status in Hcheck.
      intros H. cbn [fst] in H. inversion H; subst. rewrite Hcheck. in_table.
  - (* GetProfile *)
    unfold getUserInfo, validateTableName.
    destruct (String.eqb_spec table TABLE_NAME) as [->|Hne]; mstep;
      [|thrown].
    destruct (check_fields RETRIEVABLE_USER_FIELDS
                (map Js.trim (Js.split_comma fields)) w)
      as [[[]|e0] w0] eqn:Hcheck.
    + unfold Dynamo.get. rewrite on_table_ok.
      destruct (projection_accepted fields); cbn [negb]; [|thrown].
      destruct (Dynamo.get_item uid (db w0)) as [item|].
      * destruct (bool_decide (Dynamo.project fields item = ∅));
          [thrown|returned].
      * destruct (String.eqb uid ""); thrown.
    + apply check_fields_status in Hcheck.
      intros H. cbn [fst] in H. inversion H; subst. rewrite Hcheck. in_table.
  - (* ChangePassword *)
    unfold changePassword, validateTableName.
    destruct (String.eqb_spec table TABLE_NAME) as [->|Hne]; mstep;
      [|thrown].
    destruct (String.eqb oldPassword newPassword); mstep; [thrown|].
    destruct (authenticateUser TABLE_NAME email oldPassword w)
      as [[userId|e0] w0] eqn:Hauth.
    + destruct (databaseEditUser TABLE_NAME userId
                  [("password_hash", bcrypt_hash newPassword (env_salt env))]
                  w0) as [[[]|e1] w1] eqn:Hedit; [returned|].
      apply databaseEditUser_throws in Hedit. subst e1. thrown.
    + destruct (bool_decide (statusCode_of e0 = Some 403)); [thrown|].
      intros H. cbn [fst] in H. inversion H; subst.
      eapply authenticateUser_status; eassumption.
  - (* DeleteUser *)
    unfold deleteUser, validateTableName.
    destruct (String.eqb_spec table TABLE_NAME) as [->|Hne]; mstep;
      [|thrown].
    unfold Dynamo.delete. rewrite on_table_ok.
    destruct (Dynamo.exists_key userId (db w)); [returned|thrown].
  - (* IssueResetToken *)
    destruct (String.eqb_spec table TABLE_NAME) as [->|Hne].
    + rewrite sendPasswordResetToken_cases.
      destruct (email_validate email); cbn [negb]; [|thrown].
      destruct (find_by_email email (db w)) as [item|]; [|thrown].
      destruct (Js.truthy (attr "provider" item)); [thrown|].
      destruct (String.eqb (user_id item) ""); [thrown|].
      destruct (env_smtp env); [returned|thrown].
    + unfold sendPasswordResetToken. mstep.
      rewrite (validateTableName_wrong table w Hne). thrown.
  - (* ResetPassword *)
    destruct (String.eqb_spec table TABLE_NAME) as [->|Hne].
    + rewrite resetPassword_cases.
      destruct (email_validate email); cbn [negb]; [|thrown].
      destruct (find_by_email email (db w)) as [item|]; [|thrown].
      destruct (Js.truthy (attr "provider" item)); [thrown|].
      destruct (attr "password_hash" item) as [h|]; [|thrown].
      destruct (bcrypt_verify newPassword h); [thrown|].
      destruct (attr "resetToken" item) as [t|]; [|thrown].
      destruct (attr "tokenExpiry" item) as [x|]; [|thrown].
      destruct (String.eqb t "" || String.eqb x ""); [thrown|].
      destruct (date_ge (env_now env) (parse_date x)); [thrown|].
      destruct (bcrypt_verify token t); [|thrown].
      destruct (String.eqb (user_id item) ""); [thrown|].
      destruct (env_smtp env); [returned|thrown].
    + unfold resetPassword. mstep.
      rewrite (validateTableName_wrong table w Hne). thrown.
Qed.


End Statuses.

(** ** One call, one step *)

Lemma put_item_others (item x : Item) (tbl : list Item) :
  user_id x ≠ user_id item → (x ∈ Dynamo.put_item item tbl ↔ x ∈ tbl).
Proof.
  intros Hne. induction tbl as [|y tbl IH]; simpl.
  - rewrite list_elem_of_singleton. split; [intros ->; contradiction|].
    intros H. inversion H.
  - destruct (Dynamo.has_key (user_id item) y) eqn:Hk.
    + apply has_key_true in Hk. rewrite !elem_of_cons.
      split; (intros [->|H]; [|now right]); exfalso; congruence.
    + rewrite !elem_of_cons, IH. reflexivity.
Qed.

Section Steps.

Context {P : Platform}.

(** Whatever the call, the table it leaves is one [step] away. *)
Lemma call_step (env : Env) (c : Call) (w : World) :
  step (env_uuid env) (db w) (db (call env c w).2).
Proof.
  destruct c as [table username password email|table email password
                 |table username provider email|table uid info
                 |table uid fields|table email oldPassword newPassword
                 |table userId|table email|table email token newPassword];
    unfold call; rewrite call_world.
  - (* Register *)
    unfold registerUser, validateTableName.
    destruct (String.eqb_spec table TABLE_NAME) as [->|Hne]; mstep;
      [|apply step_nothing].
    destruct (email_validate email); mstep; [|apply step_nothing].
    unfold Dynamo.scan. rewrite on_table_ok.
    destruct (registerUser_scan_effect email (Dynamo.page (db w)) w)
      as [[e He]|[He Hu]]; rewrite He; [apply step_nothing|].
    rewrite databaseAddUser_password. apply step_put. left. eauto.
  - (* Authenticate *)
    destruct (authenticateUser_effect table email password w)
      as [[e He]|(item & _ & _ & _ & _ & _ & He)]; rewrite He;
      apply step_nothing.
  - (* AuthenticateOrRegisterOAuth *)
    destruct (String.eqb_spec table TABLE_NAME) as [->|Hne].
    + destruct (find_by_email email (db w)) as [item|] eqn:Hf.
      * rewrite (authenticateOauthUser_found env username provider email w
                   item Hf).
        destruct (Js.truthy (attr "password_hash" item));
          [apply step_nothing|].
        destruct (Js.strict_eq (attr "provider" item) provider);
          apply step_nothing.
      * rewrite (authenticateOauthUser_new env username provider email w Hf).
        apply step_put. right. eauto.
    + unfold authenticateOauthUser. mstep.
      rewrite (validateTableName_wrong table w Hne). apply step_nothing.
  - (* SetProfile *)
    unfold setUserInfo, validateTableName.
    destruct (String.eqb_spec table TABLE_NAME) as [->|Hne]; mstep;
      [|apply step_nothing].
    destruct (check_fields_effect ADDITIONAL_USER_FIELDS (map fst info) w)
      as [[e He]|[He Hall]]; rewrite He; [apply step_nothing|].
    destruct (databaseEditUser_effect TABLE_NAME uid info w) as [[e He']|He'];
      rewrite He'; [apply step_nothing|].
    apply step_update. left. exact Hall.
  - (* GetProfile *)
    rewrite getUserInfo_world. apply step_nothing.
  - (* ChangePassword *)
    unfold changePassword, validateTableName.
    destruct (String.eqb_spec table TABLE_NAME) as [->|Hne]; mstep;
      [|apply step_nothing].
    destruct (String.eqb oldPassword newPassword); mstep;
      [apply step_nothing|].
    destruct (authenticateUser_effect TABLE_NAME email oldPassword w)
      as [[e He]|(item & _ & _ & _ & _ & _ & He)]; rewrite He.
    + destruct (bool_decide (statusCode_of e = Some 403)); apply step_nothing.
    + destruct (databaseEditUser_effect TABLE_NAME (user_id item)
                  [("password_hash", bcrypt_hash newPassword (env_salt env))] w)
        as [[e He']|He']; rewrite He'; [apply step_nothing|].
      apply step_update. right. left. eauto.
  - (* DeleteUser *)
    unfold deleteUser, validateTableName.
    destruct (String.eqb_spec table TABLE_NAME) as [->|Hne]; mstep;
      [|apply step_nothing].
    unfold Dynamo.delete. rewrite on_table_ok.
    destruct (Dynamo.exists_key userId (db w));
      [apply step_delete|apply step_nothing].
  - (* IssueResetToken *)
    destruct (String.eqb_spec table TABLE_NAME) as [->|Hne].
    + rewrite sendPasswordResetToken_cases.
      destruct (email_validate email); cbn [negb]; [|apply step_nothing].
      destruct (find_by_email email (db w)) as [item|]; [|apply step_nothing].
      destruct (Js.truthy (attr "provider" item)); [apply step_nothing|].
      destruct (String.eqb (user_id item) ""); [apply step_nothing|].
      apply step_update. right. right. left. eauto.
    + unfold sendPasswordResetToken. mstep.
      rewrite (validateTableName_wrong table w Hne). apply step_nothing.
  - (* ResetPassword *)
    destruct (String.eqb_spec table TABLE_NAME) as [->|Hne].
    + rewrite resetPassword_cases.
      destruct (email_validate email); cbn [negb]; [|apply step_nothing].
      destruct (find_by_email email (db w)) as [item|]; [|apply step_nothing].
      destruct (Js.truthy (attr "provider" item)); [apply step_nothing|].
      destruct (attr "password_hash" item) as [h|]; [|apply step_nothing].
      destruct (bcrypt_verify newPassword h); [apply step_nothing|].
      destruct (attr "resetToken" item) as [t|]; [|apply step_nothing].
      destruct (attr "tokenExpiry" item) as [x|]; [|apply step_nothing].
      destruct (String.eqb t "" || String.eqb x ""); [apply step_nothing|].
      destruct (date_ge (env_now env) (parse_date x)).
      * apply step_update. right. right. right. now left.
      * destruct (bcrypt_verify token t); [|apply step_nothing].
        destruct (String.eqb (user_id item) ""); [apply step_nothing|].
        apply step_update. right. right. right. right. eauto.
    + unfold resetPassword. mstep.
      rewrite (validateTableName_wrong table w Hne). apply step_nothing.
Qed.

End Steps.

(** The names an update of the engine assigns are none of [email] and
    [provider]. *)
Lemma edit_fields_names (fields : list (string * string)) :
  edit_fields fields →
  ("email" ∉ map fst fields) ∧ ("provider" ∉ map fst fields).
Proof.
  intros [Hall|[[h ->]|[(a & b & ->)|[->|[h ->]]]]].
  - split; intros Hin; specialize (Hall _ Hin); vm_compute in Hall;
      discriminate.
  - split; simpl; intros H; apply list_elem_of_singleton in H; discriminate.
  - split; [apply not_email_reset_issued|apply not_provider_reset_issued].
  - split; [apply (not_email_reset_issued "" "")
           |apply (not_provider_reset_issued "" "")].
  - split; [apply not_email_password_reset|apply not_provider_password_reset].
Qed.

Lemma set_attrs_keeps (fields : list (string * string)) (item : Item)
    (name : string) :
  is_Some (attr name item) → is_Some (attr name (Dynamo.set_attrs fields item)).
Proof.
  intros H. unfold attr. simpl. apply fold_insert_is_Some. now left.
Qed.

Lemma edit_fields_paired (fields : list (string * string)) (item : Item) :
  edit_fields fields → reset_paired item →
  reset_paired (Dynamo.set_attrs fields item).
Proof.
  unfold reset_paired.
  intros [Hall|[[h ->]|[(a & b & ->)|[->|[h ->]]]]] Hp.
  - rewrite !attr_set_attrs_notin; [assumption| |];
      intros Hin; specialize (Hall _ Hin); vm_compute in Hall; discriminate.
  - rewrite !attr_set_attrs_notin; [assumption| |]; simpl; intros H;
      apply list_elem_of_singleton in H; discriminate.
  - destruct (attrs_reset_issued a b item) as [-> ->]. split; eauto.
  - destruct (attrs_reset_cleared item) as [-> ->]. split; eauto.
  - destruct (attrs_password_reset h item) as (_ & -> & ->). split; eauto.
Qed.

Lemma new_item_facts (uuid : string) (item : Item) :
  new_item uuid item →
  user_id item = uuid ∧ identified item ∧ reset_paired item ∧ one_mode item.
Proof.
  intros [(u & h & e & ->)|(u & p & e & ->)].
  - split; [reflexivity|].
    destruct (password_item_account uuid u h e) as (Hacc & _ & _).
    unfold identified, reset_paired, attr, password_item. simpl.
    split; [split; eexists; by simplify_map_eq|].
    split; [|now left].
    split; intros [v Hv]; by simplify_map_eq.
  - split; [reflexivity|].
    destruct (oauth_item_account uuid u p e) as (Hacc & _ & _).
    unfold identified, reset_paired, attr, oauth_item. simpl.
    split; [split; eexists; by simplify_map_eq|].
    split; [|now right].
    split; intros [v Hv]; by simplify_map_eq.
Qed.

Lemma step_item (uuid : string) (tbl tbl' : list Item) (x' : Item) :
  step uuid tbl tbl' → x' ∈ tbl' →
  new_item uuid x'
  ∨ x' ∈ tbl
  ∨ ∃ x fields, x ∈ tbl ∧ edit_fields fields
                ∧ x' = Dynamo.set_attrs fields x.
Proof.
  intros Hstep Hx'. destruct Hstep as [|item Hnew|uid fields Hedit|uid].
  - right. now left.
  - apply put_item_elem_inv in Hx' as [->|Hx']; [now left|right; now left].
  - apply list_elem_of_fmap in Hx' as (x & -> & Hx).
    destruct (Dynamo.has_key uid x); [|right; now left].
    right. right. eauto.
  - right. left. now apply delete_item_elem in Hx' as [? _].
Qed.

Section StepTheorems.

Context {P : Platform}.

(** X20. A call reaches one id. Whatever the call, there is an id such that
    the items under every other id are the same before and after it: an
    operation on one account never reads back as a change of another. *)
Theorem call_reaches_one_id (env : Env) (c : Call) (w : World) :
  ∃ uid, ∀ x, user_id x ≠ uid → (x ∈ db (call env c w).2 ↔ x ∈ db w).
Proof.
  destruct (call_step env c w) as [|item Hnew|uid fields Hedit|uid].
  - exists "". reflexivity.
  - exists (user_id item). intros x Hne. now apply put_item_others.
  - exists uid. intros x Hne. now apply update_item_others.
  - exists uid. intros x Hne. rewrite delete_item_elem. tauto.
Qed.

(** X21. A call keeps what identifies an account. Whatever the call, every
    item of the table it leaves is either the new item put under the id
    drawn for the call, or comes from an item of the table before it with
    the same [user_id], the same [email] and the same [provider], and holds
    every attribute that item held: the engine never renames an account,
    never moves it to another email or provider, and never removes an
    attribute. *)
Theorem call_keeps_identity (env : Env) (c : Call) (w : World) (x' : Item) :
  x' ∈ db (call env c w).2 →
  new_item (env_uuid env) x'
  ∨ ∃ x, x ∈ db w ∧ user_id x' = user_id x
         ∧ attr "email" x' = attr "email" x
         ∧ attr "provider" x' = attr "provider" x
         ∧ ∀ name, is_Some (attr name x) → is_Some (attr name x').
Proof.
  intros Hx'.
  destruct (step_item _ _ _ _ (call_step env c w) Hx')
    as [Hnew|[Hold|(x & fields & Hx & Hedit & ->)]].
  - now left.
  - right. exists x'. repeat split; auto.
  - right. exists x. destruct (edit_fields_names fields Hedit) as [He Hp].
    split; [assumption|]. split; [reflexivity|].
    split; [now apply attr_set_attrs_notin|].
    split; [now apply attr_set_attrs_notin|].
    intros name. apply set_attrs_keeps.
Qed.

(** X22. Well-formed tables stay well-formed. From a table whose ids are
    unique and whose items each hold an email and a username and hold a token
    digest exactly when they hold an expiry, every session of engine calls
    leaves a table with the same three properties. *)
Theorem session_keeps_tables_well_formed (calls : list (Env * Call))
    (w : World) :
  unique_keys (db w) → Forall identified (db w) → Forall reset_paired (db w) →
  unique_keys (db (session calls w))
  ∧ Forall identified (db (session calls w))
  ∧ Forall reset_paired (db (session calls w)).
Proof.
  revert w. induction calls as [|[env c] calls IH]; intros w Hu Hi Hp.
  - repeat split; assumption.
  - simpl. apply IH.
    + eapply write_unique_keys; [apply call_write|]; assumption.
    + rewrite Forall_forall in *. intros x' Hx'.
      destruct (step_item _ _ _ _ (call_step env c w) Hx')
        as [Hnew|[Hold|(x & fields & Hx & Hedit & ->)]].
      * now apply new_item_facts in Hnew as (_ & ? & _).
      * now apply Hi.
      * destruct (Hi x Hx) as [H1 H2].
        split; now apply set_attrs_keeps.
    + rewrite Forall_forall in *. intros x' Hx'.
      destruct (step_item _ _ _ _ (call_step env c w) Hx')
        as [Hnew|[Hold|(x & fields & Hx & Hedit & ->)]].
      * now apply new_item_facts in Hnew as (_ & _ & ? & _).
      * now apply Hp.
      * apply edit_fields_paired; [assumption|now apply Hp].
Qed.

End StepTheorems.

(** ** The further properties on the sample worlds *)

Lemma getUserInfo_discloses_only_retrievable_witness :
  (∀ name,
     is_Some (({["username" := "alice"]} : gmap string string) !! name) →
     retrievable_field name = true)
  ∧ ({["username" := "alice"]} : gmap string string) !! "password_hash" = None
  ∧ ({["username" := "alice"]} : gmap string string) !! "resetToken" = None
  ∧ ({["username" := "alice"]} : gmap string string) !! "tokenExpiry" = None
  ∧ ({["username" := "alice"]} : gmap string string) !! "user_id" = None
  ∧ ({["username" := "alice"]} : gmap string string) ≠ ∅.
Proof.
  apply (getUserInfo_discloses_only_retrievable (P := Sample.platform)
           TABLE_NAME "id-1" "username" alice_world alice_world).
  vm_compute. reflexivity.
Defined.

Lemma getUserInfo_answers_what_is_stored_witness :
  ∃ answer,
    getUserInfo (P := Sample.platform) TABLE_NAME "id-1" "username, email"
      alice_world
    = (Return answer, alice_world)
    ∧ ∀ name,
        answer !! name
        = if bool_decide
               (name ∈ map Js.trim (Js.split_comma "username, email"))
          then attr name (password_item "id-1" "alice" "$salt$pw1" "a@x.com")
          else None.
Proof.
  destruct (getUserInfo_answers_what_is_stored (P := Sample.platform)
              "id-1" "username, email" alice_world
              (password_item "id-1" "alice" "$salt$pw1" "a@x.com"))
    as (_ & Hanswer & _).
  - intros f Hf. vm_compute in Hf.
    apply elem_of_cons in Hf as [->|Hf]; [reflexivity|].
    apply list_elem_of_singleton in Hf as ->. reflexivity.
  - vm_compute. reflexivity.
  - vm_compute. reflexivity.
  - apply Hanswer.
    exists "username". split; [vm_compute; in_table|eexists; reflexivity].
Defined.

Lemma setUserInfo_then_getUserInfo_witness :
  setUserInfo TABLE_NAME "id-1" [("username", "al")] alice_world
  = (Return tt, updated "id-1" [("username", "al")] alice_world)
  ∧ getUserInfo (P := Sample.platform) TABLE_NAME "id-1" "username"
      (updated "id-1" [("username", "al")] alice_world)
    = (Return {["username" := "al"]},
       updated "id-1" [("username", "al")] alice_world).
Proof.
  apply (setUserInfo_then_getUserInfo (P := Sample.platform)
           "id-1" "username" "al" alice_world
           (password_item "id-1" "alice" "$salt$pw1" "a@x.com")).
  - reflexivity.
  - vm_compute. reflexivity.
Defined.

Lemma reset_flow_unknown_email_witness :
  sendPasswordResetToken (P := Sample.platform) Sample.env TABLE_NAME
    "not-an-email" mallory_world
  = (Throw (ErrorWithStatus "Email does not exist" 400), mallory_world)
  ∧ resetPassword (P := Sample.platform) Sample.env TABLE_NAME
      "not-an-email" "c0ffee" "pw9" mallory_world
    = (Throw (ErrorWithStatus "Email does not exist" 400), mallory_world).
Proof.
  apply (reset_flow_unknown_email (P := Sample.platform) Sample.env
           "not-an-email" "c0ffee" "pw9" mallory_world).
  left. reflexivity.
Defined.

Lemma sendPasswordResetToken_stores_then_mails_witness :
  (sendPasswordResetToken (P := Sample.platform) down_env TABLE_NAME
     "a@x.com" alice_world).1
  = Throw (ErrorWithStatus "Email failed to send" 500)
  ∧ log (sendPasswordResetToken (P := Sample.platform) down_env TABLE_NAME
           "a@x.com" alice_world).2
    = (log alice_world
         ++ [EvUpdate "id-1" (reset_issued "$sugar$0ddba11" "3605000");
             EvMail (TokenMail "a@x.com" "0ddba11") false])%list
  ∧ ∃ item',
      find_by_email (P := Sample.platform) "a@x.com"
        (db (sendPasswordResetToken (P := Sample.platform) down_env TABLE_NAME
               "a@x.com" alice_world).2) = Some item'
      ∧ user_id item' = "id-1"
      ∧ attr "resetToken" item' = Some "$sugar$0ddba11"
      ∧ attr "tokenExpiry" item' = Some "3605000"
      ∧ attr "password_hash" item' = Some "$salt$pw1".
Proof.
  apply (sendPasswordResetToken_stores_then_mails (P := Sample.platform)
           down_env "a@x.com" alice_world
           (password_item "id-1" "alice" "$salt$pw1" "a@x.com")).
  - reflexivity.
  - vm_compute. reflexivity.
  - reflexivity.
  - discriminate.
  - reflexivity.
Defined.

Lemma expired_token_is_dead_witness :
  resetPassword (P := Sample.platform) late_env TABLE_NAME
    "a@x.com" "c0ffee" "pw9" pending_world
  = (Throw (ErrorWithStatus "Invalid Token" 400),
     updated "id-1" reset_cleared pending_world)
  ∧ ∀ env' token' newPassword',
      ∃ message,
        resetPassword (P := Sample.platform) env' TABLE_NAME
          "a@x.com" token' newPassword'
          (updated "id-1" reset_cleared pending_world)
        = (Throw (ErrorWithStatus message 400),
           updated "id-1" reset_cleared pending_world).
Proof.
  apply (expired_token_is_dead (P := Sample.platform) late_env
           "a@x.com" "c0ffee" "pw9" pending_world alice_pending
           "$salt$pw1" "$salt$c0ffee" "3601000" 3601000).
  - reflexivity.
  - vm_compute. reflexivity.
  - split; [eexists|]; vm_compute; reflexivity.
  - vm_compute. reflexivity.
  - reflexivity.
  - repeat split; sample_fact.
  - vm_compute. reflexivity.
  - vm_compute. discriminate.
Defined.

Lemma second_token_replaces_first_witness :
  (∃ item2,
     find_by_email (P := Sample.platform) "a@x.com"
       (db (sendPasswordResetToken (P := Sample.platform) soon_env TABLE_NAME
              "a@x.com" pending_world).2) = Some item2
     ∧ user_id item2 = "id-1"
     ∧ attr "resetToken" item2 = Some "$sugar$0ddba11"
     ∧ attr "tokenExpiry" item2 = Some "3605000")
  ∧ ∀ env newPassword w3,
      resetPassword (P := Sample.platform) env TABLE_NAME
        "a@x.com" "c0ffee" newPassword
        (sendPasswordResetToken (P := Sample.platform) soon_env TABLE_NAME
           "a@x.com" pending_world).2
      = (Return tt, w3) →
      bcrypt_verify (Platform := Sample.platform) "c0ffee" "$sugar$0ddba11"
      = true.
Proof.
  apply (second_token_replaces_first (P := Sample.platform) Sample.env
           soon_env "a@x.com" alice_world
           (password_item "id-1" "alice" "$salt$pw1" "a@x.com")).
  - reflexivity.
  - vm_compute. reflexivity.
  - reflexivity.
  - discriminate.
Defined.


Lemma call_keeps_identity_witness :
  new_item (env_uuid Sample.env)
    (Dynamo.set_attrs [("password_hash", "$salt$pw2")]
       (password_item "id-1" "alice" "$salt$pw1" "a@x.com"))
  ∨ ∃ x, x ∈ db bob_world
         ∧ user_id (Dynamo.set_attrs [("password_hash", "$salt$pw2")]
                      (password_item "id-1" "alice" "$salt$pw1" "a@x.com"))
           = user_id x
         ∧ attr "email"
             (Dynamo.set_attrs [("password_hash", "$salt$pw2")]
                (password_item "id-1" "alice" "$salt$pw1" "a@x.com"))
           = attr "email" x
         ∧ attr "provider"
             (Dynamo.set_attrs [("password_hash", "$salt$pw2")]
                (password_item "id-1" "alice" "$salt$pw1" "a@x.com"))
           = attr "provider" x
         ∧ ∀ name,
             is_Some (attr name x) →
             is_Some
               (attr name
                  (Dynamo.set_attrs [("password_hash", "$salt$pw2")]
                     (password_item "id-1" "alice" "$salt$pw1" "a@x.com"))).
Proof.
  apply (call_keeps_identity (P := Sample.platform) Sample.env
           (ChangePassword TABLE_NAME "a@x.com" "pw1" "pw2") bob_world).
  vm_compute. apply list_elem_of_here.
Defined.

Lemma bob_world_identified : Forall identified (db bob_world).
Proof.
  vm_compute.
  constructor; [split; eexists; reflexivity|].
  constructor; [split; eexists; reflexivity|].
  constructor.
Defined.

Lemma bob_world_reset_paired : Forall reset_paired (db bob_world).
Proof.
  vm_compute.
  constructor; [split; intros [? H]; discriminate H|].
  constructor; [split; intros [? H]; discriminate H|].
  constructor.
Defined.

Lemma session_keeps_tables_well_formed_witness :
  unique_keys (db (session (P := Sample.platform) sample_session bob_world))
  ∧ Forall identified
      (db (session (P := Sample.platform) sample_session bob_world))
  ∧ Forall reset_paired
      (db (session (P := Sample.platform) sample_session bob_world)).
Proof.
  apply (session_keeps_tables_well_formed (P := Sample.platform)
           sample_session bob_world).
  - exact bob_world_keys.
  - exact bob_world_identified.
  - exact bob_world_reset_paired.
Defined.

(** * The endpoints and the router *)

Lemma isCorrectPath_stage (path name : string) :
  isCorrectPath path name = true →
  ∃ stage, In stage stages ∧ path = stage +:+ "/user-data/" +:+ name.
Proof.
  unfold isCorrectPath. intros H.
  apply existsb_exists in H as (stage & Hin & Heq).
  exists stage. split; [assumption|now apply String.eqb_eq].
Qed.

Lemma respond_status (m : M Payload) (w : World) (l : list Z) :
  (∀ e w', m w = (Throw e, w') → http_status e ∈ l) →
  statusCode (respond m w).1 ∈ 200 :: l.
Proof.
  intros H. unfold respond. destruct (m w) as [[a|e] w'] eqn:Hm; cbn.
  - apply list_elem_of_here.
  - apply list_elem_of_further. now apply (H e w').
Qed.

Lemma parsed_body_throws {A} (parse : string → Parsed A) (event : LambdaEvent)
    (w w' : World) (e : Exn) :
  parsed_body parse event w = (Throw e, w') →
  w' = w ∧ (http_status e = 400 ∨ http_status e = 500).
Proof.
  unfold parsed_body, throw, ret.
  destruct (Js.truthy (event_body event)); cbn [negb].
  - destruct (parse (Js.show (event_body event))); intros H; inversion H.
    split; [reflexivity|now right].
  - intros H; inversion H. split; [reflexivity|now left].
Qed.

Lemma parsed_body_returns {A} (parse : string → Parsed A) (event : LambdaEvent)
    (w w' : World) (a : A) :
  parsed_body parse event w = (Return a, w') →
  w' = w ∧ Js.truthy (event_body event) = true
  ∧ parse (Js.show (event_body event)) = Value a.
Proof.
  unfold parsed_body, throw, ret.
  destruct (Js.truthy (event_body event)); cbn [negb]; [|discriminate].
  destruct (parse (Js.show (event_body event))); intros H; inversion H.
  auto.
Qed.

Lemma bind_throws {A B} (m : M A) (f : A → B) (w w' : World) (e : Exn) :
  m w = (Throw e, w') → (bind m (fun a => ret (f a)) w).1 = Throw e.
Proof. intros H. unfold bind. now rewrite H. Qed.

(** From [http_status e ∈ l] to [http_status e ∈ l'] for a longer [l']. *)
Ltac among H :=
  revert H; rewrite ?elem_of_cons, ?elem_of_nil; tauto.

Section Router.

Context {P : Platform} {J : Json}.

Variable tableName : string.

Lemma handler_routes (env : Env) (r : Route) (event : LambdaEvent) :
  routes_to r event →
  handler tableName env event = route_handler tableName r env event.
Proof.
  intros [Hm (path & Hp & Hc)].
  apply isCorrectPath_stage in Hc as (stage & Hin & ->).
  unfold handler. rewrite Hm, Hp.
  simpl in Hin. destruct Hin as [<-|[<-|[<-|[<-|[]]]]];
    destruct r; reflexivity.
Qed.

Lemma not_routed (r : Route) (event : LambdaEvent) :
  ¬ routes_to r event →
  Js.strict_eq (event_method event) (route_method r)
  && isCorrectPath (Js.show (event_path event)) (route_name r) = false.
Proof.
  intros Hno.
  destruct (Js.strict_eq (event_method event) (route_method r)) eqn:Hm;
    [|reflexivity].
  destruct (isCorrectPath (Js.show (event_path event)) (route_name r))
    eqn:Hp; [|reflexivity].
  exfalso. destruct (event_path event) as [path|] eqn:Hpath.
  - apply Hno. split.
    + destruct (event_method event) as [m|]; [|discriminate].
      apply String.eqb_eq in Hm. now subst.
    + exists path. split; [assumption|exact Hp].
  - destruct r; vm_compute in Hp; discriminate.
Qed.

(** X23. The router dispatches by method and path. An event whose method is
    a route's and whose path is the route's name under [/user-data/], alone
    or behind [/dev], [/staging] or [/prod], gets exactly the answer of that
    route's endpoint, with its effect on the table and the mail: the nine
    routes do not shadow one another. *)
Theorem handler_dispatch (env : Env) (r : Route) (event : LambdaEvent)
    (w : World) :
  routes_to r event →
  handler tableName env event w = route_handler tableName r env event w.
Proof. intros H. now rewrite (handler_routes env r event H). Qed.

(** X24. What the router refuses. An event that reaches none of the nine
    routes is answered by the router itself: 400 "No path provided" when the
    path is missing or empty; else 405 "No httpMethod provided" when the
    method is; else 404, and this answer alone carries no headers. The table
    and the log are as they were. *)
Theorem handler_unrouted (env : Env) (event : LambdaEvent) (w : World) :
  (∀ r, ¬ routes_to r event) →
  handler tableName env event w
  = (if negb (Js.truthy (event_path event))
     then mkResponse 400 true (MessageBody "No path provided")
     else if negb (Js.truthy (event_method event))
          then mkResponse 405 true (MessageBody "No httpMethod provided")
          else mkResponse 404 false
                 (MessageBody "Unrecognised path and method combination"),
     w).
Proof.
  intros Hno. unfold handler.
  destruct (Js.truthy (event_path event)); cbn [negb]; [|reflexivity].
  destruct (Js.truthy (event_method event)); cbn [negb]; [|reflexivity].
  pose proof (not_routed RRegister event (Hno _)) as H1.
  pose proof (not_routed RAuthenticate event (Hno _)) as H2.
  pose proof (not_routed ROauth event (Hno _)) as H3.
  pose proof (not_routed RSet event (Hno _)) as H4.
  pose proof (not_routed RGet event (Hno _)) as H5.
  pose proof (not_routed RChangePW event (Hno _)) as H6.
  pose proof (not_routed RDelete event (Hno _)) as H7.
  pose proof (not_routed RResetToken event (Hno _)) as H8.
  pose proof (not_routed RResetPassword event (Hno _)) as H9.
  cbn [route_method route_name] in *.
  now rewrite H1, H2, H3, H4, H5, H6, H7, H8, H9.
Qed.

End Router.

(** ** The endpoints *)

Section EndpointTheorems.

Context {P : Platform} {J : Json}.

Variable tableName : string.

Lemma no_body (r : Route) (env : Env) (event : LambdaEvent) (w : World) :
  Js.truthy (event_body event) = false →
  route_handler tableName r env event w
  = (mkResponse 400 true (MessageBody "Body is not provided"), w).
Proof.
  intros Hb.
  destruct r; cbn [route_handler];
    unfold handleRegister, handleAuthenticate, handleOauth, handleSetInfo,
      handleGetInfo, handleChangePW, handleDeleteUser,
      handleSendPasswordResetToken, handleResetPassword,
      respond, bind, parsed_body;
    rewrite Hb; reflexivity.
Qed.

Lemma bad_body (r : Route) (env : Env) (event : LambdaEvent) (w : World)
    (message : string) :
  Js.truthy (event_body event) = true →
  unparsable r (Js.show (event_body event)) message →
  route_handler tableName r env event w
  = (mkResponse 500 true (MessageBody message), w).
Proof.
  intros Hb Hparse.
  destruct r; cbn [route_handler unparsable] in *;
    unfold handleRegister, handleAuthenticate, handleOauth, handleSetInfo,
      handleGetInfo, handleChangePW, handleDeleteUser,
      handleSendPasswordResetToken, handleResetPassword,
      respond, bind, parsed_body;
    rewrite Hb, Hparse; reflexivity.
Qed.

Lemma missing_field (r : Route) (env : Env) (event : LambdaEvent) (w : World) :
  Js.truthy (event_body event) = true →
  incomplete r (Js.show (event_body event)) →
  ∃ message,
    route_handler tableName r env event w
    = (mkResponse 400 true (MessageBody message), w).
Proof.
  intros Hb Hinc.
  destruct r; cbn [route_handler incomplete route_fields] in *;
    unfold handleRegister, handleAuthenticate, handleOauth, handleSetInfo,
      handleGetInfo, handleChangePW, handleDeleteUser,
      handleSendPasswordResetToken, handleResetPassword,
      respond, bind, parsed_body;
    rewrite Hb; cbn [negb];
    try (destruct Hinc as (fields & name & -> & Hin & Hnone);
         unfold ret; cbv beta iota;
         repeat (apply elem_of_cons in Hin as [->|Hin];
                 [rewrite Hnone;
                  repeat match goal with
                    | |- context [match fields ?f with _ => _ end] =>
                        destruct (fields f)
                    end; eexists; reflexivity|]);
         now apply elem_of_nil in Hin).
  destruct Hinc as (userID & info & -> & [->| ->]);
    [|destruct userID]; eexists; reflexivity.
Qed.

(** X25. A request is checked before the engine is reached. For an event
    that reaches a route: without a body, or with an empty one, the answer
    is 400 "Body is not provided"; with a body [JSON.parse] throws on, it is
    500 with the parser's message; with a body that parses but leaves one of
    the fields the endpoint asks for undefined, it is 400. In all three
    cases the table and the log are as they were: nothing is written or
    mailed. *)
Theorem handler_checks_the_request (env : Env) (r : Route)
    (event : LambdaEvent) (w : World) :
  routes_to r event →
  (Js.truthy (event_body event) = false →
   handler tableName env event w
   = (mkResponse 400 true (MessageBody "Body is not provided"), w))
  ∧ (∀ message,
       Js.truthy (event_body event) = true →
       unparsable r (Js.show (event_body event)) message →
       handler tableName env event w
       = (mkResponse 500 true (MessageBody message), w))
  ∧ (Js.truthy (event_body event) = true →
     incomplete r (Js.show (event_body event)) →
     ∃ message,
       handler tableName env event w
       = (mkResponse 400 true (MessageBody message), w)).
Proof.
  intros Hr. rewrite (handler_routes tableName env r event Hr).
  split; [apply no_body|]. split; [intros message; apply bad_body|].
  apply missing_field.
Qed.

End EndpointTheorems.

(** ** The statuses of the endpoints *)

(** The goal [statusCode (respond (bind (parsed_body ..) k) w).1 ∈ 200 :: l]:
    what is left is a throw of [k] on the parsed fields. *)
Ltac body_status :=
  let Hb := fresh "Hb" in
  let Hs := fresh "Hs" in
  apply respond_status; intros e w' H; unfold bind in H;
  match type of H with
  | context [parsed_body ?p ?ev ?w] =>
      destruct (parsed_body p ev w) as [[fields|e0] w0] eqn:Hb
  end;
  [apply parsed_body_returns in Hb as (-> & _ & _)
  |apply parsed_body_throws in Hb as (-> & [Hs|Hs]);
   inversion H; subst; rewrite Hs; in_table].

(** The hypothesis [H : throw _ w = (Throw e, w')]. *)
Ltac field_missing H :=
  unfold throw in H; inversion H; subst;
  cbn [http_status statusCode_of Z.eqb]; in_table.

(** The hypothesis [H] on the outcome of an engine call [m w], which is the
    call [c], and the error [e] it throws. *)
Ltac engine_status env c e H :=
  match type of H with
  | context [let (_, _) := ?m ?w in _] =>
      let Hc := fresh "Hc" in
      let Hs := fresh "Hs" in
      let a := fresh "a" in
      let e1 := fresh "e" in
      let w1 := fresh "w" in
      destruct (m w) as [[a|e1] w1] eqn:Hc;
      [unfold ret in H; discriminate H|];
      inversion H; subst;
      assert (Hs : http_status e ∈ statuses_of c)
        by (apply (call_throw_status env c w); unfold call;
            eapply bind_throws; exact Hc);
      cbn [statuses_of] in Hs; among Hs
  end.

Section EndpointStatuses.

Context {P : Platform} {J : Json}.

Variable tableName : string.

(** X26. The statuses of the endpoints. Whatever the event, the table and
    the surroundings, the status an endpoint answers with is among those of
    its route: 200, 400 and 500 everywhere, 409 for [/register] only, 401
    for [/authenticate] and [/change-pw] only, and 403 for those two,
    [/handle-oauth], [/pw-reset-token] and [/pw-reset]. *)
Theorem endpoint_statuses (r : Route) (env : Env) (event : LambdaEvent)
    (w : World) :
  statusCode (route_handler tableName r env event w).1 ∈ route_statuses r.
Proof.
  destruct r; cbn [route_handler route_statuses];
    unfold handleRegister, handleAuthenticate, handleOauth, handleSetInfo,
      handleGetInfo, handleChangePW, handleDeleteUser,
      handleSendPasswordResetToken, handleResetPassword.
  - (* /register *)
    body_status.
    destruct (fields "username") as [username|]; [|field_missing H].
    destruct (fields "password") as [password|]; [|field_missing H].
    destruct (fields "email") as [email|]; [|field_missing H].
    engine_status env (Register tableName username password email) e H.
  - (* /authenticate *)
    body_status.
    destruct (fields "email") as [email|]; [|field_missing H].
    destruct (fields "password") as [password|]; [|field_missing H].
    destruct (authenticateUser tableName email password w)
      as [[id|e1] w1] eqn:Hc.
    + engine_status env (GetProfile tableName id "username") e H.
    + inversion H; subst.
      assert (Hs : http_status e
                   ∈ statuses_of (Authenticate tableName email password))
        by (apply (call_throw_status env _ w); unfold call;
            eapply bind_throws; exact Hc).
      cbn [statuses_of] in Hs. among Hs.
  - (* /handle-oauth *)
    body_status.
    destruct (fields "username") as [username|]; [|field_missing H].
    destruct (fields "provider") as [provider|]; [|field_missing H].
    destruct (fields "email") as [email|]; [|field_missing H].
    engine_status env
      (AuthenticateOrRegisterOAuth tableName username provider email) e H.
  - (* /set *)
    body_status.
    destruct fields as [[userID|] [info|]];
      [|field_missing H|field_missing H|field_missing H].
    engine_status env (SetProfile tableName userID info) e H.
  - (* /get *)
    body_status.
    destruct (fields "userID") as [userID|]; [|field_missing H].
    destruct (fields "fields") as [requested|]; [|field_missing H].
    engine_status env (GetProfile tableName userID requested) e H.
  - (* /change-pw *)
    body_status.
    destruct (fields "email") as [email|]; [|field_missing H].
    destruct (fields "oldPassword") as [oldPassword|]; [|field_missing H].
    destruct (fields "newPassword") as [newPassword|]; [|field_missing H].
    engine_status env
      (ChangePassword tableName email oldPassword newPassword) e H.
  - (* /delete *)
    body_status.
    destruct (fields "userID") as [userID|]; [|field_missing H].
    engine_status env (DeleteUser tableName userID) e H.
  - (* /pw-reset-token *)
    body_status.
    destruct (fields "email") as [email|]; [|field_missing H].
    engine_status env (IssueResetToken tableName email) e H.
  - (* /pw-reset *)
    body_status.
    destruct (fields "email") as [email|]; [|field_missing H].
    destruct (fields "token") as [token|]; [|field_missing H].
    destruct (fields "newPassword") as [newPassword|]; [|field_missing H].
    engine_status env (ResetPassword tableName email token newPassword) e H.
Qed.

End EndpointStatuses.

(** ** Authentication through the endpoint, and the reset token *)

Lemma get_item_of_member (uid : string) (tbl : list Item) (item : Item) :
  item ∈ tbl → user_id item = uid → is_Some (Dynamo.get_item uid tbl).
Proof.
  intros Hin Hid. unfold Dynamo.get_item.
  destruct (List.find (Dynamo.has_key uid) tbl) as [found|] eqn:Hf; [eauto|].
  apply list_elem_of_In in Hin.
  pose proof (List.find_none _ _ Hf item Hin) as Hk.
  apply has_key_true in Hid. congruence.
Qed.

Lemma username_asked (f : string) :
  f ∈ map Js.trim (Js.split_comma "username") → f = "username".
Proof. intros Hf. vm_compute in Hf. now apply list_elem_of_singleton in Hf. Qed.

Lemma project_username (item : Item) :
  Dynamo.project "username" item !! "username" = attr "username" item.
Proof.
  rewrite project_lookup. rewrite bool_decide_eq_true_2; [reflexivity|].
  vm_compute. apply list_elem_of_here.
Qed.

Lemma project_username_empty (item : Item) :
  attr "username" item = None → Dynamo.project "username" item = ∅.
Proof.
  intros Hu. apply map_eq. intros name. rewrite project_lookup, lookup_empty.
  destruct (bool_decide (name ∈ map Js.trim (Js.split_comma "username")))
    eqn:Hin; [|reflexivity].
  apply bool_decide_eq_true_1 in Hin. apply username_asked in Hin as ->.
  exact Hu.
Qed.

Section Composition.

Context {P : Platform} {J : Json}.

(** X27. What [/authenticate] answers. When the body gives an email and a
    password and [authenticateUser] answers an id, the table has an item
    under that id, and the endpoint answers from the first such item: 200
    with the id, the stored [username] and the email of the request when the
    item holds a username; 400, "Uninitialised value/s: 'username'", when it
    holds none, although the password was verified. The world is as it
    was. *)
Theorem handleAuthenticate_answers_the_account (tableName : string)
    (event : LambdaEvent) (fields : string → option string)
    (email password id : string) (w w1 : World) :
  Js.truthy (event_body event) = true →
  JSON_parse (Js.show (event_body event)) = Value fields →
  fields "email" = Some email →
  fields "password" = Some password →
  authenticateUser tableName email password w = (Return id, w1) →
  ∃ item,
    Dynamo.get_item id (db w) = Some item
    ∧ handleAuthenticate tableName event w
      = (match attr "username" item with
         | Some username =>
             mkResponse 200 true (UserBody id (Some username) email)
         | None =>
             mkResponse 400 true
               (MessageBody "Uninitialised value/s: 'username'")
         end, w).
Proof.
  intros Hb Hparse He Hp Hauth.
  destruct (authenticateUser_sound _ _ _ _ _ _ Hauth)
    as (Htable & Hw & item0 & h & Hin & Hid & _).
  subst tableName w1.
  destruct (get_item_of_member id (db w) item0 Hin Hid) as [item Hget].
  exists item. split; [assumption|].
  unfold handleAuthenticate, respond, bind, parsed_body.
  rewrite Hb, Hparse. cbn [negb]. unfold ret at 1. cbv beta iota.
  rewrite He, Hp, Hauth.
  rewrite (getUserInfo_checked id "username" w item);
    [|intros f Hf; apply username_asked in Hf as ->; reflexivity
     |apply projection_plain; reflexivity|assumption].
  destruct (attr "username" item) as [u|] eqn:Hu.
  - rewrite bool_decide_eq_false_2.
    + unfold ret. now rewrite project_username, Hu.
    + intros Hempty. pose proof (project_username item) as Hproj.
      rewrite Hempty, lookup_empty, Hu in Hproj. discriminate.
  - rewrite bool_decide_eq_true_2; [reflexivity|].
    now apply project_username_empty.
Qed.

(** X28. The reset token stays out of the response. Whatever the event and
    the world, the answer of [/pw-reset-token] is the same for any two
    surroundings in which the transport does the same: it depends neither on
    the token drawn, nor on the salt, nor on the time of the call. *)
Theorem reset_token_stays_out_of_the_response (tableName : string)
    (env env' : Env) (event : LambdaEvent) (w : World) :
  env_smtp env = env_smtp env' →
  (handleSendPasswordResetToken tableName env event w).1
  = (handleSendPasswordResetToken tableName env' event w).1.
Proof.
  intros Hsmtp.
  unfold handleSendPasswordResetToken, respond, bind, parsed_body.
  destruct (Js.truthy (event_body event)); cbn [negb]; [|reflexivity].
  destruct (JSON_parse (Js.show (event_body event))) as [message|fields];
    [reflexivity|].
  unfold ret at 1 3. cbv beta iota.
  destruct (fields "email") as [email|]; [|reflexivity].
  destruct (String.eqb_spec tableName TABLE_NAME) as [->|Hne].
  - rewrite !sendPasswordResetToken_cases.
    destruct (email_validate email); cbn [negb]; [|reflexivity].
    destruct (find_by_email email (db w)) as [item|]; [|reflexivity].
    destruct (Js.truthy (attr "provider" item)); [reflexivity|].
    destruct (String.eqb (user_id item) ""); [reflexivity|].
    rewrite <- Hsmtp. destruct (env_smtp env); reflexivity.
  - unfold sendPasswordResetToken. mstep.
    rewrite (validateTableName_wrong tableName w Hne). reflexivity.
Qed.

End Composition.

(** ** The endpoints on the sample worlds *)

Lemma handler_dispatch_witness :
  handler (P := Sample.platform) (J := Sample.json) TABLE_NAME mallory_env
    (SdkEvent (Some "POST") (Some "/dev/user-data/register")
       (Some "username=carol;password=pw3;email=c@x.com")) bob_world
  = route_handler (P := Sample.platform) (J := Sample.json) TABLE_NAME
      RRegister mallory_env
      (SdkEvent (Some "POST") (Some "/dev/user-data/register")
         (Some "username=carol;password=pw3;email=c@x.com")) bob_world.
Proof.
  apply (handler_dispatch (P := Sample.platform) (J := Sample.json)
           TABLE_NAME mallory_env RRegister).
  split; [reflexivity|]. eexists. split; reflexivity.
Defined.

Lemma handler_unrouted_witness :
  handler (P := Sample.platform) (J := Sample.json) TABLE_NAME Sample.env
    (UrlEvent (Some "GET") (Some "/user-data/register") None) bob_world
  = (mkResponse 404 false
       (MessageBody "Unrecognised path and method combination"), bob_world).
Proof.
  apply (handler_unrouted (P := Sample.platform) (J := Sample.json)
           TABLE_NAME Sample.env
           (UrlEvent (Some "GET") (Some "/user-data/register") None)
           bob_world).
  intros r [Hm (path & Hp & Hc)]. cbn in Hp. inversion Hp; subst path.
  destruct r; first [discriminate Hm | vm_compute in Hc; discriminate Hc].
Defined.

Lemma handler_checks_the_request_witness :
  handler (P := Sample.platform) (J := Sample.json) TABLE_NAME Sample.env
    (SdkEvent (Some "DELETE") (Some "/prod/user-data/delete") None) bob_world
  = (mkResponse 400 true (MessageBody "Body is not provided"), bob_world).
Proof.
  apply (handler_checks_the_request (P := Sample.platform)
           (J := Sample.json) TABLE_NAME Sample.env RDelete
           (SdkEvent (Some "DELETE") (Some "/prod/user-data/delete") None)
           bob_world).
  - split; [reflexivity|]. eexists. split; reflexivity.
  - reflexivity.
Defined.

Lemma handleAuthenticate_answers_the_account_witness :
  ∃ item,
    Dynamo.get_item "id-1" (db bob_world) = Some item
    ∧ handleAuthenticate (P := Sample.platform) (J := Sample.json) TABLE_NAME
        (SdkEvent (Some "POST") (Some "/user-data/authenticate")
           (Some "email=a@x.com;password=pw1")) bob_world
      = (match attr "username" item with
         | Some username =>
             mkResponse 200 true (UserBody "id-1" (Some username) "a@x.com")
         | None =>
             mkResponse 400 true
               (MessageBody "Uninitialised value/s: 'username'")
         end, bob_world).
Proof.
  apply (handleAuthenticate_answers_the_account (P := Sample.platform)
           (J := Sample.json) TABLE_NAME
           (SdkEvent (Some "POST") (Some "/user-data/authenticate")
              (Some "email=a@x.com;password=pw1"))
           (Sample.field_of [("email", "a@x.com"); ("password", "pw1")])
           "a@x.com" "pw1" "id-1" bob_world bob_world).
  - reflexivity.
  - vm_compute. reflexivity.
  - reflexivity.
  - reflexivity.
  - vm_compute. reflexivity.
Defined.

Lemma reset_token_stays_out_of_the_response_witness :
  (handleSendPasswordResetToken (P := Sample.platform) (J := Sample.json)
     TABLE_NAME Sample.env
     (SdkEvent (Some "POST") (Some "/user-data/pw-reset-token")
        (Some "email=a@x.com")) alice_world).1
  = (handleSendPasswordResetToken (P := Sample.platform) (J := Sample.json)
       TABLE_NAME soon_env
       (SdkEvent (Some "POST") (Some "/user-data/pw-reset-token")
          (Some "email=a@x.com")) alice_world).1.
Proof.
  apply (reset_token_stays_out_of_the_response (P := Sample.platform)
           (J := Sample.json) TABLE_NAME Sample.env soon_env).
  reflexivity.
Defined.

(** ** What the store rejects, and what a scan does not see *)

Section Store.

Context {P : Platform}.

(** GetProfile lets the rejections of the store through. When every
    field asked for is retrievable, so that the check of [getUserInfo]
    passes, and either a field is named twice, or the id is the empty string
    and no item has it, DynamoDB rejects the [GetCommand] and [getUserInfo],
    which does not catch it, throws that error: it carries no [statusCode],
    the endpoint answers 500, and nothing is written. *)
Theorem getUserInfo_lets_rejections_through (userId fields : string)
    (w : World) :
  (∀ f, f ∈ map Js.trim (Js.split_comma fields) → retrievable_field f = true) →
  ¬ NoDup (map Js.trim (Js.split_comma fields))
  ∨ (userId = "" ∧ ∀ x, x ∈ db w → user_id x ≠ "") →
  ∃ message,
    getUserInfo TABLE_NAME userId fields w = (Throw (JsError message), w)
    ∧ statusCode_of (JsError message) = None
    ∧ http_status (JsError message) = 500.
Proof.
  intros Hall Hcase. rewrite (getUserInfo_passed userId fields w Hall).
  destruct (projection_accepted fields) eqn:Ha; cbn [negb];
    [|eexists; repeat split].
  destruct Hcase as [Htwice|[-> Hnone]].
  - exfalso. apply Htwice. now apply projection_distinct.
  - rewrite (get_item_None "" (db w) Hnone). cbn [String.eqb].
    eexists. repeat split.
Qed.

(** An item beyond the page of the scan is not seen. When the scan
    finds no item for the email (no item of the table holds it, or those
    that do lie beyond the one page the scan reads), the engine does what it
    does for an unknown email: [authenticateUser] throws status 401 and
    [changePassword], with two different passwords, the same;
    [authenticateOauthUser] puts a new OAuth account with the email; and,
    the email passing the syntax check, [registerUser] puts a new password
    account with it, while [sendPasswordResetToken] and [resetPassword]
    throw status 400, "Email does not exist", and write nothing. *)
Theorem scan_finds_no_item (env : Env)
    (username password newPassword provider token email : string)
    (w : World) :
  find_by_email email (db w) = None →
  authenticateUser TABLE_NAME email password w
  = (Throw authenticateUser_failure, w)
  ∧ (password ≠ newPassword →
     changePassword env TABLE_NAME email password newPassword w
     = (Throw authenticateUser_failure, w))
  ∧ authenticateOauthUser env TABLE_NAME username provider email w
    = (Return (env_uuid env),
       added (oauth_item (env_uuid env) username provider email) w)
  ∧ (email_validate email = true →
     registerUser env TABLE_NAME username password email w
     = (Return (env_uuid env),
        added (password_item (env_uuid env) username
                 (bcrypt_hash password (env_salt env)) email) w)
     ∧ sendPasswordResetToken env TABLE_NAME email w
       = (Throw (ErrorWithStatus "Email does not exist" 400), w)
     ∧ resetPassword env TABLE_NAME email token newPassword w
       = (Throw (ErrorWithStatus "Email does not exist" 400), w)).
Proof.
  intros Hf.
  assert (Hauth : authenticateUser TABLE_NAME email password w
                  = (Throw authenticateUser_failure, w)).
  { unfold authenticateUser. rewrite validateTableName_ok. mstep.
    unfold Dynamo.scan. rewrite on_table_ok.
    apply authenticateUser_scan_miss. intros item Hin Hmail.
    apply first_with_email_None in Hf. exfalso. exact (Hf item Hin Hmail). }
  split; [exact Hauth|]. split; [|split].
  - intros Hdiff. unfold changePassword. rewrite validateTableName_ok. mstep.
    apply String.eqb_neq in Hdiff. now rewrite Hdiff, Hauth.
  - now apply authenticateOauthUser_new.
  - intros Hvalid. split; [|split].
    + unfold registerUser. rewrite validateTableName_ok, Hvalid. mstep.
      unfold Dynamo.scan. rewrite on_table_ok.
      rewrite (scan_none (fun item => registerUser_scan email [item])
                 (ret tt) (registerUser_scan email) email);
        [reflexivity|reflexivity| |assumption].
      intros x rest. simpl.
      destruct (Js.strict_eq (attr "email" x) email); reflexivity.
    + now rewrite sendPasswordResetToken_cases, Hvalid, Hf.
    + now rewrite resetPassword_cases, Hvalid, Hf.
Qed.

End Store.

Lemma getUserInfo_lets_rejections_through_witness :
  ∃ message,
    getUserInfo (P := Sample.platform) TABLE_NAME "id-1" "username,username"
      alice_world
    = (Throw (JsError message), alice_world)
    ∧ statusCode_of (JsError message) = None
    ∧ http_status (JsError message) = 500.
Proof.
  apply (getUserInfo_lets_rejections_through (P := Sample.platform)
           "id-1" "username,username" alice_world).
  - intros f Hf. vm_compute in Hf.
    apply elem_of_cons in Hf as [->|Hf]; [reflexivity|].
    apply list_elem_of_singleton in Hf as ->. reflexivity.
  - left. vm_compute. intros H. apply NoDup_cons in H as [Hnot _].
    apply Hnot. apply list_elem_of_here.
Defined.

Lemma scan_finds_no_item_witness :
  authenticateUser (P := Sample.cramped) TABLE_NAME "c@x.com" "pw3" carol_world
  = (Throw authenticateUser_failure, carol_world)
  ∧ registerUser (P := Sample.cramped) soon_env TABLE_NAME
      "eve" "pw" "c@x.com" carol_world
    = (Return "id-8",
       added (password_item "id-8" "eve" "$sugar$pw" "c@x.com") carol_world)
  ∧ sendPasswordResetToken (P := Sample.cramped) soon_env TABLE_NAME
      "c@x.com" carol_world
    = (Throw (ErrorWithStatus "Email does not exist" 400), carol_world).
Proof.
  destruct (scan_finds_no_item (P := Sample.cramped) soon_env
              "eve" "pw3" "pw9" "google" "0ddba11" "c@x.com" carol_world)
    as (Hauth & _ & _ & Hvalid); [vm_compute; reflexivity|].
  split; [exact Hauth|].
  destruct (scan_finds_no_item (P := Sample.cramped) soon_env
              "eve" "pw" "pw9" "google" "0ddba11" "c@x.com" carol_world)
    as (_ & _ & _ & Hrest); [vm_compute; reflexivity|].
  destruct (Hrest eq_refl) as (Hregister & Htoken & _).
  split; [exact Hregister|exact Htoken].
Defined.
